(** * HireLink: the form/validation/store core, embedded and verified

    A shallow embedding of the client-side core of HireLink
    (src/lib/validation.ts, src/lib/store.ts and the handlers of the
    step, board and modal components), followed by the properties of
    that code.

    Layout: the embedding comes first (one Module per source unit),
    the lemmas and theorems follow. *)

From Stdlib Require Import Ascii String QArith.
From stdpp Require Import gmap strings list.

Local Open Scope N_scope.

(** ** JavaScript strings

    A JavaScript string is a sequence of UTF-16 code units; [length],
    [trim], [includes] and a regular expression without the [u] flag all
    work on code units. *)
Module JsString.

Definition jsstring := list N.

(** A literal of the source, code unit by code unit (the literals used
    here are ASCII). *)
Definition js (s : string) : jsstring :=
  List.map N_of_ascii (String.list_ascii_of_string s).

Definition between (lo hi c : N) : bool := (lo <=? c) && (c <=? hi).

(** WhiteSpace and LineTerminator of ECMAScript: what [trim] strips and
    what [\s] matches (TAB, LF, VT, FF, CR, SP, NBSP, the Zs category,
    LS, PS and ZWNBSP). *)
Definition isWhiteSpace (c : N) : bool :=
  between 9 13 c || (c =? 32) || (c =? 160) || (c =? 5760)
  || between 8192 8202 c || (c =? 8232) || (c =? 8233) || (c =? 8239)
  || (c =? 8287) || (c =? 12288) || (c =? 65279).

Fixpoint trimStart (s : jsstring) : jsstring :=
  match s with
  | c :: rest => if isWhiteSpace c then trimStart rest else s
  | [] => []
  end.

Definition trimEnd (s : jsstring) : jsstring := rev (trimStart (rev s)).

Definition trim (s : jsstring) : jsstring := trimEnd (trimStart s).

(** Truthiness of a string: the empty string is the only falsy one. *)
Definition truthy (s : jsstring) : bool :=
  match s with [] => false | _ => true end.

Definition eqb (a b : jsstring) : bool := bool_decide (a = b).

(** [arr.includes(x)] on an array of strings. *)
Definition includes (arr : list jsstring) (x : jsstring) : bool :=
  existsb (eqb x) arr.

(** [s.substring(from, to)]: both indices are clamped to the length and
    swapped when out of order. *)
Definition substring (from to : nat) (s : jsstring) : jsstring :=
  let a := Nat.min from (length s) in
  let b := Nat.min to (length s) in
  firstn (Nat.max a b - Nat.min a b) (skipn (Nat.min a b) s).

(** [s.substr(from, len)] for a non-negative [from]. *)
Definition substr (from len : nat) (s : jsstring) : jsstring :=
  firstn len (skipn from s).

(** [toUpperCase] on the code units [a]..[z]; the strings it is applied
    to here are radix-36 numerals, whose other code units have no upper
    case form. *)
Definition upperUnit (c : N) : N :=
  if between 97 122 c then c - 32 else c.

Definition toUpperCase (s : jsstring) : jsstring := List.map upperUnit s.

(** The radix-36 digit of a value below 36: [0]..[9] then [a]..[z]. *)
Definition digit36 (d : N) : N := if d <? 10 then 48 + d else 87 + d.

Fixpoint digits36 (fuel : nat) (n : N) : jsstring :=
  match fuel with
  | O => []
  | S fuel' =>
      if n <? 36 then [digit36 n]
      else digits36 fuel' (n / 36) ++ [digit36 (n mod 36)]
  end.

(** [n.toString(36)] for a non-negative integer [n]: the numeral has
    no more digits than [n] has bits (and one digit for zero). *)
Definition toString36 (n : N) : jsstring := digits36 (S (N.size_nat n)) n.

End JsString.

(** ** Regular expressions

    The patterns of VALIDATION_RULES are anchored with [^] and [$] and
    carry no flags, so [pattern.test(s)] asks whether the whole of [s] is
    in the pattern's language.  The matcher works by derivatives. *)
Module Regex.
Import JsString.

Inductive regex : Type :=
| Void : regex
| Eps : regex
| Cls : (N -> bool) -> regex
| Cat : regex -> regex -> regex
| Alt : regex -> regex -> regex
| Star : regex -> regex.

(** [r+], [r?], [r{n}] and [r{n,m}] as the engine reads them. *)
Definition Plus (r : regex) : regex := Cat r (Star r).
Definition Opt (r : regex) : regex := Alt Eps r.

Fixpoint Times (n : nat) (r : regex) : regex :=
  match n with O => Eps | S n' => Cat r (Times n' r) end.

Fixpoint UpTo (n : nat) (r : regex) : regex :=
  match n with O => Eps | S n' => Opt (Cat r (UpTo n' r)) end.

Definition Range (n m : nat) (r : regex) : regex :=
  Cat (Times n r) (UpTo (m - n) r).

Definition Chr (c : N) : regex := Cls (N.eqb c).

Fixpoint Lit (s : jsstring) : regex :=
  match s with [] => Eps | c :: rest => Cat (Chr c) (Lit rest) end.

Fixpoint nullable (r : regex) : bool :=
  match r with
  | Void => false
  | Eps => true
  | Cls _ => false
  | Cat a b => nullable a && nullable b
  | Alt a b => nullable a || nullable b
  | Star _ => true
  end.

(** Constructors that drop a dead branch, to keep derivatives small. *)
Definition mkCat (a b : regex) : regex :=
  match a with
  | Void => Void
  | Eps => b
  | _ => Cat a b
  end.

Definition mkAlt (a b : regex) : regex :=
  match a, b with
  | Void, _ => b
  | _, Void => a
  | _, _ => Alt a b
  end.

Fixpoint deriv (c : N) (r : regex) : regex :=
  match r with
  | Void => Void
  | Eps => Void
  | Cls p => if p c then Eps else Void
  | Cat a b =>
      if nullable a then mkAlt (mkCat (deriv c a) b) (deriv c b)
      else mkCat (deriv c a) b
  | Alt a b => mkAlt (deriv c a) (deriv c b)
  | Star a => mkCat (deriv c a) (Star a)
  end.

Fixpoint matches (r : regex) (s : jsstring) : bool :=
  match s with
  | [] => nullable r
  | c :: rest => matches (deriv c r) rest
  end.

(** [/^r$/.test(s)] *)
Definition test (r : regex) (s : jsstring) : bool := matches r s.

(** The language of a pattern, the reference the matcher is proved
    against. *)
Inductive lang : regex -> jsstring -> Prop :=
| lang_eps : lang Eps []
| lang_cls p c : p c = true -> lang (Cls p) [c]
| lang_cat a b s t : lang a s -> lang b t -> lang (Cat a b) (s ++ t)
| lang_alt_l a b s : lang a s -> lang (Alt a b) s
| lang_alt_r a b s : lang b s -> lang (Alt a b) s
| lang_star_nil a : lang (Star a) []
| lang_star_cons a c s t :
    lang a (c :: s) -> lang (Star a) t -> lang (Star a) (c :: s ++ t).

End Regex.

(** ** src/lib/validation.ts *)
Module Validation.
Import JsString Regex.

(** What the validators read of a DOM [File]. *)
Record File : Type := mkFile {
  fileName : jsstring;
  fileSize : N;
  fileType : jsstring }.

(** [{ valid: boolean; error?: string }] *)
Record Verdict : Type := mkVerdict {
  valid : bool;
  error : option string }.

Definition pass : Verdict := mkVerdict true None.
Definition fail (msg : string) : Verdict := mkVerdict false (Some msg).

(** *** VALIDATION_RULES *)

Definition isDigit (c : N) : bool := between 48 57 c.
Definition isLower (c : N) : bool := between 97 122 c.
Definition isUpper (c : N) : bool := between 65 90 c.

Definition fullName_minLength : nat := 2.
Definition fullName_maxLength : nat := 100.

(** [[a-zA-Z\s'-]] *)
Definition fullName_class (c : N) : bool :=
  isLower c || isUpper c || isWhiteSpace c || (c =? 39) || (c =? 45).

(** [/^[a-zA-Z\s'-]+$/] *)
Definition fullName_pattern : regex := Plus (Cls fullName_class).

(** [[^\s@]] *)
Definition email_class (c : N) : bool :=
  negb (isWhiteSpace c || (c =? 64)).

(** [/^[^\s@]+@[^\s@]+\.[^\s@]+$/] *)
Definition email_pattern : regex :=
  Cat (Plus (Cls email_class))
    (Cat (Chr 64)
       (Cat (Plus (Cls email_class))
          (Cat (Chr 46) (Plus (Cls email_class))))).

(** [[\d\s\-+()]] *)
Definition phone_class (c : N) : bool :=
  isDigit c || isWhiteSpace c || (c =? 45) || (c =? 43) || (c =? 40)
  || (c =? 41).

(** [/^[\d\s\-+()]+$/] *)
Definition phone_pattern : regex := Plus (Cls phone_class).
Definition phone_minLength : nat := 10.

(** [/^\d+(\.\d+)?$/] *)
Definition yearsOfExperience_pattern : regex :=
  Cat (Plus (Cls isDigit)) (Opt (Cat (Chr 46) (Plus (Cls isDigit)))).

(** [[\da-z\.-]], [[a-z\.]] and [[\/\w \.-]] *)
Definition host_class (c : N) : bool :=
  isDigit c || isLower c || (c =? 46) || (c =? 45).
Definition tld_class (c : N) : bool := isLower c || (c =? 46).
Definition path_class (c : N) : bool :=
  (c =? 47) || isLower c || isUpper c || isDigit c || (c =? 95)
  || (c =? 32) || (c =? 46) || (c =? 45).

(** The portfolio pattern, group by group: an optional [https?://],
    one or more of [[\da-z.-]], a dot, two to six of [[a-z.]], any
    number of possibly empty runs of [[/\w .-]], an optional slash. *)
Definition portfolioLink_pattern : regex :=
  Cat (Opt (Cat (Lit (js "http")) (Cat (Opt (Chr 115)) (Lit (js "://")))))
    (Cat (Plus (Cls host_class))
       (Cat (Chr 46)
          (Cat (Range 2 6 (Cls tld_class))
             (Cat (Star (Star (Cls path_class))) (Opt (Chr 47)))))).

Definition skills_minItems : nat := 1.
Definition skills_maxItems : nat := 20.
Definition skills_maxLength : nat := 50.

Definition resume_acceptedFormats : list jsstring :=
  [ js "application/pdf"; js "application/msword";
    js "application/vnd.openxmlformats-officedocument.wordprocessingml.document" ].

(** [5 * 1024 * 1024] *)
Definition resume_maxSize : N := 5 * 1024 * 1024.

(** *** Field validators *)

Definition validateFullName (name : jsstring) : Verdict :=
  if negb (truthy (trim name)) then fail "Full name is required"
  else if (length name <? fullName_minLength)%nat
  then fail "Full name must be at least 2 characters"
  else if (fullName_maxLength <? length name)%nat
  then fail "Full name must not exceed 100 characters"
  else if negb (test fullName_pattern name)
  then fail "Full name can only contain letters, spaces, hyphens, and apostrophes"
  else pass.

Definition validateEmail (email : jsstring) : Verdict :=
  if negb (truthy (trim email)) then fail "Email is required"
  else if negb (test email_pattern email)
  then fail "Please enter a valid email address"
  else pass.

(** [phone.replace(/\D/g, '')] *)
Definition digitsOnly (phone : jsstring) : jsstring :=
  List.filter isDigit phone.

Definition validatePhone (phone : jsstring) : Verdict :=
  if negb (truthy (trim phone)) then fail "Phone number is required"
  else if negb (test phone_pattern phone)
  then fail "Phone number contains invalid characters"
  else if (length (digitsOnly phone) <? phone_minLength)%nat
  then fail "Phone number must contain at least 10 digits"
  else pass.

(** The value of a run of decimal digits. *)
Definition digitsValue (ds : jsstring) : N :=
  foldl (fun acc c => 10 * acc + (c - 48)) 0 ds.

(** A numeral cut at its decimal point: the digits before it and, when
    there is a point, the digits after it. *)
Fixpoint splitAtPoint (s : jsstring) : jsstring * option jsstring :=
  match s with
  | [] => ([], None)
  | c :: rest =>
      if c =? 46 then ([], Some rest)
      else let '(whole, frac) := splitAtPoint rest in (c :: whole, frac)
  end.

(** The exact value of a numeral of the years pattern: the digits before
    the point, plus the digits after it scaled by their count. *)
Definition decimalValue (s : jsstring) : Q :=
  let '(whole, frac) := splitAtPoint s in
  match frac with
  | None => Z.of_N (digitsValue whole) # 1
  | Some ds =>
      (Z.of_N (digitsValue whole) # 1)
      + (Z.of_N (digitsValue ds) # Pos.pow 10 (Pos.of_nat (length ds)))
  end.

(** [parseFloat(years) < 0 || parseFloat(years) > 80] for a numeral the
    pattern accepted.  [parseFloat] returns the numeral's value rounded
    to the nearest double, ties to even.  The value is not negative, so
    neither is the double.  The double is above 80 exactly when the
    value is above the midpoint between 80 and the next double,
    80 + 2^-47: the doubles of [64, 128) are 2^-46 apart and 80 has an
    even significand, so the midpoint itself rounds down to 80. *)
Definition outOfRange (years : jsstring) : bool :=
  negb (Qle_bool (decimalValue years) (80 + (1 # Pos.pow 2 47))).

Definition validateYearsOfExperience (years : jsstring) : Verdict :=
  if negb (truthy (trim years)) then fail "Years of experience is required"
  else if negb (test yearsOfExperience_pattern years)
  then fail "Years of experience must be a valid number"
  else if outOfRange years
  then fail "Years of experience must be between 0 and 80"
  else pass.

Definition validateSkills (skills : list jsstring) : Verdict :=
  if bool_decide (length skills = 0%nat)
  then fail "Please add at least one skill"
  else if (skills_maxItems <? length skills)%nat
  then fail "Maximum 20 skills allowed"
  else if existsb (fun skill => (skills_maxLength <? length skill)%nat) skills
  then fail "Each skill must not exceed 50 characters"
  else pass.

Definition validatePortfolioLink (link : jsstring) : Verdict :=
  if negb (truthy (trim link)) then pass
  else if negb (test portfolioLink_pattern link)
  then fail "Please enter a valid portfolio URL"
  else pass.

Definition validateResume (file : option File) : Verdict :=
  match file with
  | None => fail "Resume is required"
  | Some f =>
      if negb (includes resume_acceptedFormats (fileType f))
      then fail "Resume must be PDF, DOC, or DOCX format"
      else if resume_maxSize <? fileSize f
      then fail "Resume must not exceed 5MB"
      else pass
  end.

(** *** Step validators *)

(** [{ valid: boolean; errors: Record<string, string> }] *)
Record StepVerdict : Type := mkStepVerdict {
  stepValid : bool;
  errors : gmap string string }.

(** [if (!v.valid) errors[field] = v.error || ''] *)
Definition record (field : string) (v : Verdict)
    (errs : gmap string string) : gmap string string :=
  if valid v then errs else <[field := default ""%string (error v)]> errs.

(** [{ valid: Object.keys(errors).length === 0, errors }] *)
Definition conclude (errs : gmap string string) : StepVerdict :=
  mkStepVerdict (bool_decide (size errs = 0%nat)) errs.

Definition validatePersonalInfoStep (fullName email phone : jsstring)
    : StepVerdict :=
  conclude
    (record "phone" (validatePhone phone)
       (record "email" (validateEmail email)
          (record "fullName" (validateFullName fullName) ∅))).

Definition validateExperienceStep (yearsOfExperience : jsstring)
    (skills : list jsstring) (portfolioLink : jsstring) : StepVerdict :=
  conclude
    (record "portfolioLink" (validatePortfolioLink portfolioLink)
       (record "skills" (validateSkills skills)
          (record "yearsOfExperience"
             (validateYearsOfExperience yearsOfExperience) ∅))).

Definition validateResumeStep (file : option File) : StepVerdict :=
  conclude (record "resume" (validateResume file) ∅).

(** *** generateApplicationId

    [now] is [Date.now()], the milliseconds since the epoch, and
    [rendering] is [Math.random().toString(36)], the radix-36 numeral
    the runtime prints for the random number: [0] for zero and
    otherwise [0.] followed by the digits that tell the number apart
    from its neighbours. *)
Definition generateApplicationId (now : N) (rendering : jsstring)
    : jsstring :=
  let timestamp := toUpperCase (toString36 now) in
  let random := toUpperCase (substring 2 10 rendering) in
  js "HLA-" ++ random ++ js "-" ++ timestamp.

End Validation.

(** ** src/lib/store.ts *)
Module Store.
Import JsString Validation.

Module PersonalInfo.
Record t : Type := mk {
  fullName : jsstring;
  email : jsstring;
  phone : jsstring }.
End PersonalInfo.

Module Experience.
Record t : Type := mk {
  yearsOfExperience : jsstring;
  skills : list jsstring;
  portfolioLink : jsstring }.
End Experience.

Module ApplicationForm.
Record t : Type := mk {
  personalInfo : PersonalInfo.t;
  experience : Experience.t;
  resumeFile : option File;
  resumeFileName : jsstring }.

(** [Partial<ApplicationForm>]: [None] is a key the object does not
    have. *)
Record partial : Type := mkPartial {
  p_personalInfo : option PersonalInfo.t;
  p_experience : option Experience.t;
  p_resumeFile : option (option File);
  p_resumeFileName : option jsstring }.

(** [{ ...form, ...p }] *)
Definition spread (form : t) (p : partial) : t :=
  {| personalInfo := default (personalInfo form) (p_personalInfo p);
     experience := default (experience form) (p_experience p);
     resumeFile := default (resumeFile form) (p_resumeFile p);
     resumeFileName := default (resumeFileName form) (p_resumeFileName p) |}.
End ApplicationForm.

Module JobPosting.
Record t : Type := mk {
  id : jsstring;
  title : jsstring;
  location : jsstring;
  description : jsstring;
  department : jsstring;
  experience : jsstring }.
End JobPosting.

(** ['Applied' | 'Reviewed' | 'Interview Scheduled' | 'Offer Sent'] *)
Inductive Stage : Type :=
| Applied
| Reviewed
| InterviewScheduled
| OfferSent.

(** The string each stage is at run time. *)
Definition stageLabel (s : Stage) : string :=
  match s with
  | Applied => "Applied"
  | Reviewed => "Reviewed"
  | InterviewScheduled => "Interview Scheduled"
  | OfferSent => "Offer Sent"
  end.

Module Candidate.
Record t : Type := mk {
  id : jsstring;
  applicationId : jsstring;
  jobId : jsstring;
  jobTitle : jsstring;
  applicationData : ApplicationForm.t;
  appliedDate : jsstring;
  stage : Stage;
  score : option Z;
  notes : option jsstring;
  interviewDate : option jsstring;
  interviewTime : option jsstring;
  offerDetails : option jsstring }.

(** [Partial<Candidate>]: [None] is a key the object does not have; a
    key of an optional field may be present and hold [undefined]. *)
Record partial : Type := mkPartial {
  p_id : option jsstring;
  p_applicationId : option jsstring;
  p_jobId : option jsstring;
  p_jobTitle : option jsstring;
  p_applicationData : option ApplicationForm.t;
  p_appliedDate : option jsstring;
  p_stage : option Stage;
  p_score : option (option Z);
  p_notes : option (option jsstring);
  p_interviewDate : option (option jsstring);
  p_interviewTime : option (option jsstring);
  p_offerDetails : option (option jsstring) }.

(** [{}] *)
Definition noKeys : partial :=
  mkPartial None None None None None None None None None None None None.

(** [{ ...candidate, ...updates }] *)
Definition spread (candidate : t) (updates : partial) : t :=
  {| id := default (id candidate) (p_id updates);
     applicationId :=
       default (applicationId candidate) (p_applicationId updates);
     jobId := default (jobId candidate) (p_jobId updates);
     jobTitle := default (jobTitle candidate) (p_jobTitle updates);
     applicationData :=
       default (applicationData candidate) (p_applicationData updates);
     appliedDate := default (appliedDate candidate) (p_appliedDate updates);
     stage := default (stage candidate) (p_stage updates);
     score := default (score candidate) (p_score updates);
     notes := default (notes candidate) (p_notes updates);
     interviewDate :=
       default (interviewDate candidate) (p_interviewDate updates);
     interviewTime :=
       default (interviewTime candidate) (p_interviewTime updates);
     offerDetails :=
       default (offerDetails candidate) (p_offerDetails updates) |}.
End Candidate.

Inductive UserRole : Type := candidate | recruiter.

(** The data of [HireLinkStore]; its functions are the actions below. *)
Record HireLinkStore : Type := mkStore {
  currentStep : nat;
  applicationForm : ApplicationForm.t;
  jobPostings : list JobPosting.t;
  selectedJobId : option jsstring;
  candidates : list Candidate.t;
  userRole : UserRole }.

Definition initialApplicationForm : ApplicationForm.t :=
  {| ApplicationForm.personalInfo :=
       {| PersonalInfo.fullName := [];
          PersonalInfo.email := [];
          PersonalInfo.phone := [] |};
     ApplicationForm.experience :=
       {| Experience.yearsOfExperience := [];
          Experience.skills := [];
          Experience.portfolioLink := [] |};
     ApplicationForm.resumeFile := None;
     ApplicationForm.resumeFileName := [] |}.

Definition mockJobPostings : list JobPosting.t :=
  [ JobPosting.mk (js "1") (js "Senior Frontend Developer")
      (js "San Francisco, CA")
      (js "Build scalable web applications with React and Next.js. Join our team of passionate engineers.")
      (js "Engineering") (js "5+ years");
    JobPosting.mk (js "2") (js "Full Stack Engineer") (js "New York, NY")
      (js "Work on end-to-end features using modern web technologies. Shape the future of our platform.")
      (js "Engineering") (js "3+ years");
    JobPosting.mk (js "3") (js "Product Manager") (js "Remote")
      (js "Lead product vision and strategy for our core offerings. Drive impact across all departments.")
      (js "Product") (js "4+ years");
    JobPosting.mk (js "4") (js "UX/UI Designer") (js "Austin, TX")
      (js "Design beautiful and intuitive user experiences for millions of users.")
      (js "Design") (js "2+ years") ].

(** The state [create] starts from.  The store is wrapped in [persist]:
    this is the state of a first visit; a later visit starts from the
    snapshot kept in local storage, which is not modelled here, so what
    must hold on a later visit is stated for any starting state. *)
Definition initialStore : HireLinkStore :=
  {| currentStep := 0;
     applicationForm := initialApplicationForm;
     jobPostings := mockJobPostings;
     selectedJobId := None;
     candidates := [];
     userRole := candidate |}.

(** *** Actions: each hands an updater to [set] *)

Definition setApplicationForm (form : ApplicationForm.partial)
    (state : HireLinkStore) : HireLinkStore :=
  {| currentStep := currentStep state;
     applicationForm := ApplicationForm.spread (applicationForm state) form;
     jobPostings := jobPostings state;
     selectedJobId := selectedJobId state;
     candidates := candidates state;
     userRole := userRole state |}.

Definition setCurrentStep (step : nat) (state : HireLinkStore)
    : HireLinkStore :=
  {| currentStep := step;
     applicationForm := applicationForm state;
     jobPostings := jobPostings state;
     selectedJobId := selectedJobId state;
     candidates := candidates state;
     userRole := userRole state |}.

Definition resetApplicationForm (state : HireLinkStore) : HireLinkStore :=
  {| currentStep := 0;
     applicationForm := initialApplicationForm;
     jobPostings := jobPostings state;
     selectedJobId := selectedJobId state;
     candidates := candidates state;
     userRole := userRole state |}.

Definition setSelectedJobId (jobId : jsstring) (state : HireLinkStore)
    : HireLinkStore :=
  {| currentStep := currentStep state;
     applicationForm := applicationForm state;
     jobPostings := jobPostings state;
     selectedJobId := Some jobId;
     candidates := candidates state;
     userRole := userRole state |}.

Definition withCandidates (cs : list Candidate.t) (state : HireLinkStore)
    : HireLinkStore :=
  {| currentStep := currentStep state;
     applicationForm := applicationForm state;
     jobPostings := jobPostings state;
     selectedJobId := selectedJobId state;
     candidates := cs;
     userRole := userRole state |}.

(** [candidates: [candidate, ...state.candidates]] *)
Definition addCandidate (candidate : Candidate.t) (state : HireLinkStore)
    : HireLinkStore :=
  withCandidates (candidate :: candidates state) state.

(** [candidates: state.candidates.map((candidate) =>
      candidate.id === id ? { ...candidate, ...updates } : candidate)] *)
Definition updateCandidate (id : jsstring) (updates : Candidate.partial)
    (state : HireLinkStore) : HireLinkStore :=
  withCandidates
    (List.map
       (fun candidate =>
          if eqb (Candidate.id candidate) id
          then Candidate.spread candidate updates
          else candidate)
       (candidates state))
    state.

(** [candidates.find((c) => c.id === id)] *)
Definition getCandidateById (id : jsstring) (state : HireLinkStore)
    : option Candidate.t :=
  List.find (fun c => eqb (Candidate.id c) id) (candidates state).

Definition setUserRole (role : UserRole) (state : HireLinkStore)
    : HireLinkStore :=
  {| currentStep := currentStep state;
     applicationForm := applicationForm state;
     jobPostings := jobPostings state;
     selectedJobId := selectedJobId state;
     candidates := candidates state;
     userRole := role |}.

(** *** What a caller observes of an action

    No action has a branch that throws or reports: each builds the next
    state and returns [undefined].  Performing one therefore always
    completes with the next state; the two faults are the ones the
    store's requirements speak of, and no action raises either. *)
Inductive StoreFault : Type := DUPLICATE_ID | NOT_FOUND.

Definition perform (action : HireLinkStore -> HireLinkStore)
    (state : HireLinkStore) : StoreFault + HireLinkStore :=
  inr (action state).

End Store.

(** ** The application wizard: src/app/apply/[jobId]/page.tsx and the
    three step components

    A handler reads the props and state of the render it was created in
    and runs to completion before the next event; it is modelled as a
    function from the component's local state and the store to their
    next values.  [handleSubmit], [handleScheduleInterview] and
    [handleSendOffer] wait on a one-second timer before they write: each
    is taken as one step, the wait left out. *)
Module Wizard.
Import JsString Validation Store.

(** [errors.field] as a condition: set and not the empty string. *)
Definition flagged (errors : gmap string string) (field : string) : bool :=
  match errors !! field with
  | Some msg => bool_decide (msg <> ""%string)
  | None => false
  end.

(** *** ApplicationFormPage *)

Definition handleNextStep (state : HireLinkStore) : HireLinkStore :=
  if (currentStep state <? 2)%nat
  then setCurrentStep (currentStep state + 1)%nat state
  else state.

Definition handlePreviousStep (state : HireLinkStore) : HireLinkStore :=
  if (0 <? currentStep state)%nat
  then setCurrentStep (currentStep state - 1)%nat state
  else state.

(** *** PersonalInfoStep *)
Module PersonalInfoStep.

Record Local : Type := mkLocal {
  errors : gmap string string;
  touched : gmap string bool }.

Definition mount : Local := mkLocal ∅ ∅.

(** The three fields the inputs pass to the handlers. *)
Inductive Field : Type := fullName | email | phone.

Definition key (f : Field) : string :=
  match f with
  | fullName => "fullName"
  | email => "email"
  | phone => "phone"
  end.

(** [{ ...applicationForm.personalInfo, [field]: value }] *)
Definition assign (f : Field) (value : jsstring) (p : PersonalInfo.t)
    : PersonalInfo.t :=
  match f with
  | fullName =>
      PersonalInfo.mk value (PersonalInfo.email p) (PersonalInfo.phone p)
  | email =>
      PersonalInfo.mk (PersonalInfo.fullName p) value (PersonalInfo.phone p)
  | phone =>
      PersonalInfo.mk (PersonalInfo.fullName p) (PersonalInfo.email p) value
  end.

Definition handleFieldChange (f : Field) (value : jsstring)
    (l : Local) (state : HireLinkStore) : Local * HireLinkStore :=
  let info := ApplicationForm.personalInfo (applicationForm state) in
  let state' :=
    setApplicationForm
      (ApplicationForm.mkPartial (Some (assign f value info)) None None None)
      state in
  (if flagged (errors l) (key f)
   then mkLocal (<[key f := ""%string]> (errors l)) (touched l)
   else l,
   state').

Definition validateField (f : Field) (p : PersonalInfo.t) : Verdict :=
  match f with
  | fullName => validateFullName (PersonalInfo.fullName p)
  | email => validateEmail (PersonalInfo.email p)
  | phone => validatePhone (PersonalInfo.phone p)
  end.

Definition handleFieldBlur (f : Field) (l : Local) (state : HireLinkStore)
    : Local :=
  let info := ApplicationForm.personalInfo (applicationForm state) in
  let validation := validateField f info in
  mkLocal
    (if valid validation then errors l
     else <[key f := default ""%string (error validation)]> (errors l))
    (<[key f := true]> (touched l)).

(** The second component tells whether [onNext] was called. *)
Definition handleNext (l : Local) (state : HireLinkStore) : Local * bool :=
  let info := ApplicationForm.personalInfo (applicationForm state) in
  let newErrors :=
    record "phone" (validatePhone (PersonalInfo.phone info))
      (record "email" (validateEmail (PersonalInfo.email info))
         (record "fullName"
            (validateFullName (PersonalInfo.fullName info)) ∅)) in
  if (0 <? size newErrors)%nat
  then (mkLocal newErrors
          (<["phone" := true]>
             (<["email" := true]> (<["fullName" := true]> ∅))),
        false)
  else (l, true).

End PersonalInfoStep.

(** *** ExperienceStep *)
Module ExperienceStep.

Record Local : Type := mkLocal {
  errors : gmap string string;
  touched : gmap string bool;
  skillInput : jsstring }.

Definition mount : Local := mkLocal ∅ ∅ [].

Definition setErrors (errs : gmap string string) (l : Local) : Local :=
  mkLocal errs (touched l) (skillInput l).

Definition setSkillInput (value : jsstring) (l : Local) : Local :=
  mkLocal (errors l) (touched l) value.

(** [setApplicationForm({ experience: e })] *)
Definition setExperience (e : Experience.t) (state : HireLinkStore)
    : HireLinkStore :=
  setApplicationForm (ApplicationForm.mkPartial None (Some e) None None)
    state.

Definition handleExperienceChange (value : jsstring) (l : Local)
    (state : HireLinkStore) : Local * HireLinkStore :=
  let e := ApplicationForm.experience (applicationForm state) in
  (if flagged (errors l) "yearsOfExperience"
   then setErrors (<["yearsOfExperience" := ""%string]> (errors l)) l
   else l,
   setExperience
     (Experience.mk value (Experience.skills e) (Experience.portfolioLink e))
     state).

Definition handlePortfolioChange (value : jsstring) (l : Local)
    (state : HireLinkStore) : Local * HireLinkStore :=
  let e := ApplicationForm.experience (applicationForm state) in
  (if flagged (errors l) "portfolioLink"
   then setErrors (<["portfolioLink" := ""%string]> (errors l)) l
   else l,
   setExperience
     (Experience.mk (Experience.yearsOfExperience e) (Experience.skills e)
        value)
     state).

Definition handleAddSkill (l : Local) (state : HireLinkStore)
    : Local * HireLinkStore :=
  let e := ApplicationForm.experience (applicationForm state) in
  let skills := Experience.skills e in
  let trimmedSkill := trim (skillInput l) in
  if negb (truthy trimmedSkill)
  then (setErrors (<["skillInput" := "Please enter a skill"%string]>
                     (errors l)) l, state)
  else if (50 <? length trimmedSkill)%nat
  then (setErrors
          (<["skillInput" := "Skill must not exceed 50 characters"%string]>
             (errors l)) l, state)
  else if includes skills trimmedSkill
  then (setErrors (<["skillInput" := "This skill is already added"%string]>
                     (errors l)) l, state)
  else if (20 <=? length skills)%nat
  then (setErrors (<["skillInput" := "Maximum 20 skills allowed"%string]>
                     (errors l)) l, state)
  else
    (mkLocal (<["skillInput" := ""%string]> (errors l)) (touched l) [],
     setExperience
       (Experience.mk (Experience.yearsOfExperience e)
          (skills ++ [trimmedSkill]) (Experience.portfolioLink e))
       state).

(** The two fields the inputs pass to [handleFieldBlur]. *)
Inductive Field : Type := yearsOfExperience | portfolioLink.

Definition key (f : Field) : string :=
  match f with
  | yearsOfExperience => "yearsOfExperience"
  | portfolioLink => "portfolioLink"
  end.

Definition validateField (f : Field) (e : Experience.t) : Verdict :=
  match f with
  | yearsOfExperience =>
      validateYearsOfExperience (Experience.yearsOfExperience e)
  | portfolioLink => validatePortfolioLink (Experience.portfolioLink e)
  end.

Definition handleFieldBlur (f : Field) (l : Local) (state : HireLinkStore)
    : Local :=
  let e := ApplicationForm.experience (applicationForm state) in
  let validation := validateField f e in
  mkLocal
    (if valid validation then errors l
     else <[key f := default ""%string (error validation)]> (errors l))
    (<[key f := true]> (touched l))
    (skillInput l).

Definition handleRemoveSkill (skillToRemove : jsstring) (l : Local)
    (state : HireLinkStore) : Local * HireLinkStore :=
  let e := ApplicationForm.experience (applicationForm state) in
  (l,
   setExperience
     (Experience.mk (Experience.yearsOfExperience e)
        (filter (fun skill => skill <> skillToRemove)
           (Experience.skills e))
        (Experience.portfolioLink e))
     state).

(** The second component tells whether [onNext] was called. *)
Definition handleNext (l : Local) (state : HireLinkStore) : Local * bool :=
  let e := ApplicationForm.experience (applicationForm state) in
  let newErrors :=
    record "portfolioLink"
      (validatePortfolioLink (Experience.portfolioLink e))
      (record "skills" (validateSkills (Experience.skills e))
         (record "yearsOfExperience"
            (validateYearsOfExperience (Experience.yearsOfExperience e))
            ∅)) in
  if (0 <? size newErrors)%nat
  then (mkLocal newErrors
          (<["portfolioLink" := true]>
             (<["skills" := true]> (<["yearsOfExperience" := true]> ∅)))
          (skillInput l),
        false)
  else (l, true).

End ExperienceStep.

(** *** ResumeStep *)
Module ResumeStep.

Record Local : Type := mkLocal {
  error : string;
  isSubmitting : bool }.

Definition mount : Local := mkLocal "" false.

(** [setApplicationForm({ resumeFile, resumeFileName })] *)
Definition setResume (file : option File) (name : jsstring)
    (state : HireLinkStore) : HireLinkStore :=
  setApplicationForm
    (ApplicationForm.mkPartial None None (Some file) (Some name)) state.

(** [handleFileSelect] and [handleDrop] do the same with the first
    file of the event, when there is one. *)
Definition handleFileSelect (file : option File) (l : Local)
    (state : HireLinkStore) : Local * HireLinkStore :=
  match file with
  | None => (l, state)
  | Some f =>
      let validation := validateResume (Some f) in
      if negb (valid validation)
      then (mkLocal (default "Invalid file"%string
                       (Validation.error validation))
              (isSubmitting l), state)
      else (mkLocal "" (isSubmitting l),
            setResume (Some f) (fileName f) state)
  end.

Definition handleRemoveFile (l : Local) (state : HireLinkStore)
    : Local * HireLinkStore :=
  (mkLocal "" (isSubmitting l), setResume None [] state).

(** What [handleSubmit] reads from outside: [Date.now()] and the
    rendering [Math.random().toString(36)] used for the application
    id, the rendering of the second random number used for the record
    id, and [new Date().toISOString()]. *)
Record Ambient : Type := mkAmbient {
  now : N;
  rendering : jsstring;
  idRendering : jsstring;
  isoDate : jsstring }.

(** The record [handleSubmit] builds. *)
Definition newCandidate (a : Ambient) (selectedJob : JobPosting.t)
    (state : HireLinkStore) : Candidate.t :=
  {| Candidate.id := substr 2 9 (idRendering a);
     Candidate.applicationId := generateApplicationId (now a) (rendering a);
     Candidate.jobId := default [] (selectedJobId state);
     Candidate.jobTitle := JobPosting.title selectedJob;
     Candidate.applicationData := applicationForm state;
     Candidate.appliedDate := isoDate a;
     Candidate.stage := Applied;
     Candidate.score := None;
     Candidate.notes := Some [];
     Candidate.interviewDate := None;
     Candidate.interviewTime := None;
     Candidate.offerDetails := None |}.

(** [jobPostings.find((j) => j.id === selectedJobId)] *)
Definition findSelectedJob (state : HireLinkStore) : option JobPosting.t :=
  List.find
    (fun j => bool_decide (Some (JobPosting.id j) = selectedJobId state))
    (jobPostings state).

(** The third component is the route [router.push] was given, when it
    was called. *)
Definition handleSubmit (a : Ambient) (l : Local) (state : HireLinkStore)
    : Local * HireLinkStore * option jsstring :=
  let validation :=
    validateResume (ApplicationForm.resumeFile (applicationForm state)) in
  if negb (valid validation)
  then (mkLocal (default "Resume is required"%string
                   (Validation.error validation))
          (isSubmitting l), state, None)
  else
    match findSelectedJob state with
    | None =>
        (mkLocal "Failed to submit application. Please try again." false,
         state, None)
    | Some selectedJob =>
        (mkLocal (error l) true,
         addCandidate (newCandidate a selectedJob state) state,
         Some (js "/thank-you/"
               ++ generateApplicationId (now a) (rendering a)))
    end.

End ResumeStep.

End Wizard.

(** ** The wizard as a state machine

    One event is one user action on the page that is displayed.  The
    page shows the step component selected by [currentStep], and only
    while the selected job exists; a component that is mounted starts
    from its initial local state. *)
Module WizardMachine.
Import JsString Validation Store Wizard.

Record State : Type := mkState {
  store : HireLinkStore;
  personal : PersonalInfoStep.Local;
  experience : ExperienceStep.Local;
  resume : ResumeStep.Local }.

Definition initial : State :=
  mkState initialStore PersonalInfoStep.mount ExperienceStep.mount
    ResumeStep.mount.

Inductive Event : Type :=
| SelectJob (jobId : jsstring)
| FieldChange (f : PersonalInfoStep.Field) (value : jsstring)
| FieldBlur (f : PersonalInfoStep.Field)
| PersonalNext
| ExperienceChange (value : jsstring)
| PortfolioChange (value : jsstring)
| ExperienceBlur (f : ExperienceStep.Field)
| SkillInput (value : jsstring)
| AddSkill
| RemoveSkill (skill : jsstring)
| ExperienceNext
| ExperienceBack
| FileSelect (file : option File)
| RemoveFile
| ResumeBack
| Submit (a : ResumeStep.Ambient).

(** The step component on display, if any. *)
Definition displayed (w : State) : option nat :=
  match ResumeStep.findSelectedJob (store w) with
  | Some _ => Some (currentStep (store w))
  | None => None
  end.

(** The page after the store moved to another step: the components are
    mounted afresh. *)
Definition remount (state : HireLinkStore) : State :=
  mkState state PersonalInfoStep.mount ExperienceStep.mount ResumeStep.mount.

Definition step (e : Event) (w : State) : State :=
  match e, displayed w with
  | SelectJob jobId, _ =>
      if existsb (fun j => eqb (JobPosting.id j) jobId) (jobPostings (store w))
      then remount (setSelectedJobId jobId (store w))
      else w
  | FieldChange f value, Some 0%nat =>
      let '(l, st) :=
        PersonalInfoStep.handleFieldChange f value (personal w) (store w) in
      mkState st l (experience w) (resume w)
  | FieldBlur f, Some 0%nat =>
      mkState (store w)
        (PersonalInfoStep.handleFieldBlur f (personal w) (store w))
        (experience w) (resume w)
  | PersonalNext, Some 0%nat =>
      let '(l, onNext) := PersonalInfoStep.handleNext (personal w) (store w) in
      if onNext then remount (handleNextStep (store w))
      else mkState (store w) l (experience w) (resume w)
  | ExperienceChange value, Some 1%nat =>
      let '(l, st) :=
        ExperienceStep.handleExperienceChange value (experience w) (store w) in
      mkState st (personal w) l (resume w)
  | PortfolioChange value, Some 1%nat =>
      let '(l, st) :=
        ExperienceStep.handlePortfolioChange value (experience w) (store w) in
      mkState st (personal w) l (resume w)
  | ExperienceBlur f, Some 1%nat =>
      mkState (store w) (personal w)
        (ExperienceStep.handleFieldBlur f (experience w) (store w)) (resume w)
  | SkillInput value, Some 1%nat =>
      mkState (store w) (personal w)
        (ExperienceStep.setSkillInput value (experience w)) (resume w)
  | AddSkill, Some 1%nat =>
      let '(l, st) := ExperienceStep.handleAddSkill (experience w) (store w) in
      mkState st (personal w) l (resume w)
  | RemoveSkill skill, Some 1%nat =>
      let '(l, st) :=
        ExperienceStep.handleRemoveSkill skill (experience w) (store w) in
      mkState st (personal w) l (resume w)
  | ExperienceNext, Some 1%nat =>
      let '(l, onNext) := ExperienceStep.handleNext (experience w) (store w) in
      if onNext then remount (handleNextStep (store w))
      else mkState (store w) (personal w) l (resume w)
  | ExperienceBack, Some 1%nat => remount (handlePreviousStep (store w))
  | FileSelect file, Some 2%nat =>
      let '(l, st) := ResumeStep.handleFileSelect file (resume w) (store w) in
      mkState st (personal w) (experience w) l
  | RemoveFile, Some 2%nat =>
      let '(l, st) := ResumeStep.handleRemoveFile (resume w) (store w) in
      mkState st (personal w) (experience w) l
  | ResumeBack, Some 2%nat => remount (handlePreviousStep (store w))
  | Submit a, Some 2%nat =>
      (* the button is disabled without a file or while submitting *)
      match ApplicationForm.resumeFile (applicationForm (store w)) with
      | None => w
      | Some _ =>
          if ResumeStep.isSubmitting (resume w) then w
          else
            let '(l, st, route) :=
              ResumeStep.handleSubmit a (resume w) (store w) in
            match route with
            | Some _ => remount st   (* the page is left *)
            | None => mkState st (personal w) (experience w) l
            end
      end
  | _, _ => w
  end.

Definition run (events : list Event) (w : State) : State :=
  foldl (fun w e => step e w) w events.

(** The skills of the draft. *)
Definition skillsOf (w : State) : list jsstring :=
  Experience.skills (ApplicationForm.experience (applicationForm (store w))).

End WizardMachine.

(** ** src/components/PipelineBoard.tsx *)
Module PipelineBoard.
Import JsString Store.

Record PipelineStage : Type := mkStage {
  id : string;
  label : string;
  color : string }.

Definition PIPELINE_STAGES : list PipelineStage :=
  [ mkStage "Applied" "Applied" "bg-blue-50 dark:bg-blue-950";
    mkStage "Reviewed" "Reviewed" "bg-yellow-50 dark:bg-yellow-950";
    mkStage "Interview Scheduled" "Interview Scheduled"
      "bg-purple-50 dark:bg-purple-950";
    mkStage "Offer Sent" "Offer Sent" "bg-green-50 dark:bg-green-950" ].

(** [candidates.filter((c) => c.stage === stage)] *)
Definition getCandidatesByStage (candidates : list Candidate.t)
    (stage : string) : list Candidate.t :=
  filter (fun c => stageLabel (Candidate.stage c) = stage) candidates.

(** The columns the board renders: one bucket per entry of
    [PIPELINE_STAGES], in that order. *)
Definition columns (candidates : list Candidate.t)
    : list (list Candidate.t) :=
  List.map (fun stage => getCandidatesByStage candidates (id stage))
    PIPELINE_STAGES.

End PipelineBoard.

(** ** The recruiter's components: CandidateModal, InterviewScheduler and
    OfferLetter *)
Module Recruiter.
Import JsString Store.

Module CandidateModal.

Record Local : Type := mkLocal {
  isEditing : bool;
  score : option Z;
  notes : jsstring;
  newStage : option Stage;
  isInterviewSchedulerOpen : bool;
  isOfferLetterOpen : bool }.

(** [useState(candidate.score)], [useState(candidate.notes || '')],
    [useState('')] for [newStage]. *)
Definition mount (candidate : Candidate.t) : Local :=
  mkLocal false (Candidate.score candidate)
    (default [] (Candidate.notes candidate)) None false false.

(** [score ? parseInt(String(score)) : undefined] for an integer
    score. *)
Definition savedScore (score : option Z) : option Z :=
  match score with
  | Some z => if (z =? 0)%Z then None else Some z
  | None => None
  end.

(** [{ score: ..., notes, ...(newStage && { stage: newStage }) }] *)
Definition saveUpdates (l : Local) : Candidate.partial :=
  Candidate.mkPartial None None None None None None
    (newStage l) (Some (savedScore (score l))) (Some (Some (notes l)))
    None None None.

Definition handleSave (candidate : Candidate.t) (l : Local)
    (state : HireLinkStore) : Local * HireLinkStore :=
  (mkLocal false (score l) (notes l) (newStage l)
     (isInterviewSchedulerOpen l) (isOfferLetterOpen l),
   updateCandidate (Candidate.id candidate) (saveUpdates l) state).

(** [{ stage }] *)
Definition stageOnly (stage : Stage) : Candidate.partial :=
  Candidate.mkPartial None None None None None None (Some stage)
    None None None None None.

Definition handleMoveToStage (stage : Stage) (candidate : Candidate.t)
    (state : HireLinkStore) : HireLinkStore :=
  updateCandidate (Candidate.id candidate) (stageOnly stage) state.

End CandidateModal.

Module InterviewScheduler.

Record Local : Type := mkLocal {
  interviewDate : jsstring;
  interviewTime : jsstring;
  interviewType : jsstring;
  interviewNotes : jsstring;
  isScheduling : bool }.

Definition mount : Local := mkLocal [] [] [] [] false.

(** [interviewDate && interviewTime && interviewType] as a condition *)
Definition isValid (l : Local) : bool :=
  truthy (interviewDate l) && truthy (interviewTime l)
  && truthy (interviewType l).

Definition scheduleUpdates (l : Local) : Candidate.partial :=
  Candidate.mkPartial None None None None None None
    (Some InterviewScheduled) None (Some (Some (interviewNotes l)))
    (Some (Some (interviewDate l))) (Some (Some (interviewTime l))) None.

(** The third component tells whether [onClose] was called. *)
Definition handleScheduleInterview (candidate : Candidate.t) (l : Local)
    (state : HireLinkStore) : Local * HireLinkStore * bool :=
  if negb (isValid l) then (l, state, false)
  else (mount,
        updateCandidate (Candidate.id candidate) (scheduleUpdates l) state,
        true).

End InterviewScheduler.

Module OfferLetter.

Record Local : Type := mkLocal {
  position : jsstring;
  salary : jsstring;
  startDate : jsstring;
  offerNotes : jsstring;
  isSending : bool }.

(** [useState(candidate.jobTitle)], [useState(candidate.offerDetails
    || '')] *)
Definition mount (candidate : Candidate.t) : Local :=
  mkLocal (Candidate.jobTitle candidate) [] []
    (default [] (Candidate.offerDetails candidate)) false.

Definition offerUpdates (l : Local) : Candidate.partial :=
  Candidate.mkPartial None None None None None None
    (Some OfferSent) None None None None (Some (Some (offerNotes l))).

(** [onClose] is always called. *)
Definition handleSendOffer (candidate : Candidate.t) (l : Local)
    (state : HireLinkStore) : Local * HireLinkStore :=
  (mkLocal (position l) [] [] [] false,
   updateCandidate (Candidate.id candidate) (offerUpdates l) state).

End OfferLetter.

End Recruiter.

(** ** The recruiter dashboard as a state machine
    (DashboardPage with the modal it opens)

    [selectedCandidate] is the record the recruiter clicked: a copy taken
    at the click, which the modal and its two dialogs keep reading while
    the store moves on.  An event whose button is not rendered or is
    disabled leaves the state as it is. *)
Module Dashboard.
Import JsString Store Recruiter.

Record State : Type := mkState {
  store : HireLinkStore;
  selectedCandidate : option Candidate.t;
  modal : CandidateModal.Local;
  scheduler : InterviewScheduler.Local;
  offer : OfferLetter.Local }.

Inductive Event : Type :=
| Arrive (c : Candidate.t)          (* a submission reaches the store *)
| SelectCandidate (i : nat)         (* the card of the i-th record *)
| CloseModal
| SetScore (n : Z)
| SetNotes (text : jsstring)
| Save
| MoveToReviewed
| OpenScheduler
| SchedulerInput (date time type notes : jsstring)
| Schedule
| OpenOffer
| OfferInput (salary startDate notes : jsstring)
| SendOffer.

(** The page before any card was clicked. *)
Definition closed (state : HireLinkStore) : State :=
  mkState state None
    (CandidateModal.mkLocal false None [] None false false)
    InterviewScheduler.mount
    (OfferLetter.mkLocal [] [] [] [] false).

Definition initial : State := closed initialStore.

(** [handleSelectCandidate]: the modal and its dialogs are mounted for
    the clicked record.  The cards lie under the dialog while a record
    is selected, so a click reaches one only when none is. *)
Definition select (c : Candidate.t) (state : HireLinkStore) : State :=
  mkState state (Some c) (CandidateModal.mount c) InterviewScheduler.mount
    (OfferLetter.mount c).

Definition withModal (l : CandidateModal.Local) (s : State) : State :=
  mkState (store s) (selectedCandidate s) l (scheduler s) (offer s).

Definition step (e : Event) (s : State) : State :=
  match e, selectedCandidate s with
  | Arrive c, _ =>
      mkState (addCandidate c (store s)) (selectedCandidate s) (modal s)
        (scheduler s) (offer s)
  | SelectCandidate i, None =>
      match candidates (store s) !! i with
      | Some c => select c (store s)
      | None => s
      end
  | CloseModal, Some _ => closed (store s)
  | SetScore n, Some _ =>
      let l := modal s in
      withModal
        (CandidateModal.mkLocal (CandidateModal.isEditing l) (Some n)
           (CandidateModal.notes l) (CandidateModal.newStage l)
           (CandidateModal.isInterviewSchedulerOpen l)
           (CandidateModal.isOfferLetterOpen l)) s
  | SetNotes text, Some _ =>
      let l := modal s in
      withModal
        (CandidateModal.mkLocal (CandidateModal.isEditing l)
           (CandidateModal.score l) text (CandidateModal.newStage l)
           (CandidateModal.isInterviewSchedulerOpen l)
           (CandidateModal.isOfferLetterOpen l)) s
  | Save, Some c =>
      let l := modal s in
      (* disabled={!isEditing && !score && !notes} *)
      if negb (CandidateModal.isEditing l)
         && negb (bool_decide
                    (CandidateModal.savedScore (CandidateModal.score l)
                     <> None))
         && negb (truthy (CandidateModal.notes l))
      then s
      else
        let '(l', st) := CandidateModal.handleSave c l (store s) in
        mkState st (Some c) l' (scheduler s) (offer s)
  | MoveToReviewed, Some c =>
      match Candidate.stage c with
      | Applied =>
          mkState (CandidateModal.handleMoveToStage Reviewed c (store s))
            (Some c) (modal s) (scheduler s) (offer s)
      | _ => s
      end
  | OpenScheduler, Some c =>
      match Candidate.stage c with
      | Reviewed =>
          let l := modal s in
          withModal
            (CandidateModal.mkLocal (CandidateModal.isEditing l)
               (CandidateModal.score l) (CandidateModal.notes l)
               (CandidateModal.newStage l) true
               (CandidateModal.isOfferLetterOpen l)) s
      | _ => s
      end
  | SchedulerInput date time type notes, Some _ =>
      mkState (store s) (selectedCandidate s) (modal s)
        (InterviewScheduler.mkLocal date time type notes
           (InterviewScheduler.isScheduling (scheduler s)))
        (offer s)
  | Schedule, Some c =>
      (* disabled={!isValid || isScheduling}, inside the open dialog *)
      if CandidateModal.isInterviewSchedulerOpen (modal s)
         && InterviewScheduler.isValid (scheduler s)
         && negb (InterviewScheduler.isScheduling (scheduler s))
      then
        let '(l, st, onClose) :=
          InterviewScheduler.handleScheduleInterview c (scheduler s)
            (store s) in
        if onClose then closed st
        else mkState st (Some c) (modal s) l (offer s)
      else s
  | OpenOffer, Some c =>
      match Candidate.stage c with
      | InterviewScheduled =>
          let l := modal s in
          withModal
            (CandidateModal.mkLocal (CandidateModal.isEditing l)
               (CandidateModal.score l) (CandidateModal.notes l)
               (CandidateModal.newStage l)
               (CandidateModal.isInterviewSchedulerOpen l) true) s
      | _ => s
      end
  | OfferInput salary startDate notes, Some _ =>
      mkState (store s) (selectedCandidate s) (modal s) (scheduler s)
        (OfferLetter.mkLocal (OfferLetter.position (offer s)) salary
           startDate notes (OfferLetter.isSending (offer s)))
  | SendOffer, Some c =>
      (* disabled={!salary || !startDate || isSending}, inside the open
         dialog *)
      if CandidateModal.isOfferLetterOpen (modal s)
         && truthy (OfferLetter.salary (offer s))
         && truthy (OfferLetter.startDate (offer s))
         && negb (OfferLetter.isSending (offer s))
      then
        let '(_, st) := OfferLetter.handleSendOffer c (offer s) (store s) in
        closed st
      else s
  | _, _ => s
  end.

Definition run (events : list Event) (s : State) : State :=
  foldl (fun s e => step e s) s events.

End Dashboard.

(** ** Notions the properties are stated with *)
Module Props.
Import JsString Validation Store.

(** The position of a stage on the path Applied, Reviewed, Interview
    Scheduled, Offer Sent. *)
Definition stageRank (s : Stage) : nat :=
  match s with
  | Applied => 0
  | Reviewed => 1
  | InterviewScheduled => 2
  | OfferSent => 3
  end.

Definition ids (cs : list Candidate.t) : list jsstring :=
  List.map Candidate.id cs.

(** An operation on the store never moves the stage of a record, taken
    by its position in the collection, to an earlier one. *)
Definition neverBackward (op : HireLinkStore -> HireLinkStore) : Prop :=
  forall (state : HireLinkStore) (i : nat) (c c' : Candidate.t),
    candidates state !! i = Some c ->
    candidates (op state) !! i = Some c' ->
    (stageRank (Candidate.stage c) <= stageRank (Candidate.stage c'))%nat.

(** Between two collections no stage moved backward: every record of the
    first has a record of its id in the second, at its stage or a later
    one. *)
Definition forwardOnly (before after : list Candidate.t) : Prop :=
  forall c,
    c ∈ before ->
    exists c',
      c' ∈ after /\ Candidate.id c' = Candidate.id c
      /\ (stageRank (Candidate.stage c) <= stageRank (Candidate.stage c'))%nat.

(** A run of the dashboard in which every arriving record brings an id
    the store does not hold yet. *)
Fixpoint freshArrivals (events : list Dashboard.Event)
    (s : Dashboard.State) : Prop :=
  match events with
  | [] => True
  | e :: rest =>
      match e with
      | Dashboard.Arrive c =>
          Candidate.id c ∉ ids (candidates (Dashboard.store s))
      | _ => True
      end
      /\ freshArrivals rest (Dashboard.step e s)
  end.

(** What the dashboard keeps true of the record it has selected: the
    store holds a record of that id whose stage is the one on display,
    or one move ahead after Move to Reviewed; and a dialog is open only
    at the stage whose button opens it. *)
Definition coherent (s : Dashboard.State) : Prop :=
  NoDup (ids (candidates (Dashboard.store s)))
  /\ match Dashboard.selectedCandidate s with
     | None => True
     | Some c =>
         (exists r, r ∈ candidates (Dashboard.store s)
            /\ Candidate.id r = Candidate.id c
            /\ (Candidate.stage r = Candidate.stage c
                \/ (Candidate.stage c = Applied
                    /\ Candidate.stage r = Reviewed)))
         /\ Recruiter.CandidateModal.newStage (Dashboard.modal s) = None
         /\ (Recruiter.CandidateModal.isInterviewSchedulerOpen
               (Dashboard.modal s) = true ->
             Candidate.stage c = Reviewed)
         /\ (Recruiter.CandidateModal.isOfferLetterOpen
               (Dashboard.modal s) = true ->
             Candidate.stage c = InterviewScheduled)
     end.

(** The skills of the draft a store holds. *)
Definition draftSkills (state : HireLinkStore) : list jsstring :=
  Experience.skills (ApplicationForm.experience (applicationForm state)).

(** The value of an upper-case radix-36 digit, when it is one. *)
Definition digitValue36 (c : N) : option N :=
  if between 48 57 c then Some (c - 48)
  else if between 65 90 c then Some (c - 55)
  else None.

(** The integer a string of upper-case radix-36 digits denotes. *)
Definition parseUpper36 (s : jsstring) : option N :=
  foldl (fun acc c =>
           match acc, digitValue36 c with
           | Some a, Some d => Some (36 * a + d)
           | _, _ => None
           end) (Some 0) s.

(** The number a radix-36 rendering of a fraction stands for: [0] is
    zero, and [0.] followed by digits is the sum of each digit over the
    power of 36 of its place. *)
Definition lowerDigitValue36 (c : N) : option N :=
  if between 48 57 c then Some (c - 48)
  else if between 97 122 c then Some (c - 87)
  else None.

Fixpoint fractionValue36 (digits : jsstring) : option Q :=
  match digits with
  | [] => Some 0%Q
  | c :: rest =>
      match lowerDigitValue36 c, fractionValue36 rest with
      | Some d, Some v => Some ((inject_Z (Z.of_N d) + v) / 36)%Q
      | _, _ => None
      end
  end.

Definition renderedValue (rendering : jsstring) : option Q :=
  match rendering with
  | [48] => Some 0%Q
  | 48 :: 46 :: digits => fractionValue36 digits
  | _ => None
  end.

(** A field after a merge: the value the update names for it, or the old
    value when the update does not name it. *)
Definition merged {A : Type} (old : A) (named : option A) (new : A) : Prop :=
  match named with
  | Some v => new = v
  | None => new = old
  end.

(** The full-name rule in the words of the requirements: the trimmed
    length is between 2 and 100, and every character is a letter, a
    space, a hyphen or an apostrophe. *)
Definition statedFullNameRule (s : jsstring) : Prop :=
  (2 <= length (trim s) <= 100)%nat
  /\ Forall (fun c => isLower c || isUpper c || (c =? 32) || (c =? 45)
                      || (c =? 39) = true) s.

(** The full-name rule the validator implements. *)
Definition fullNameRule (s : jsstring) : Prop :=
  trim s <> []
  /\ (2 <= length s <= 100)%nat
  /\ Forall (fun c => fullName_class c = true) s.

(** A verdict as the field validators build it: valid with no error, or
    invalid with one. *)
Definition wellFormed (v : Verdict) : Prop :=
  (valid v = true /\ error v = None)
  \/ (valid v = false /\ exists msg, error v = Some msg).

(** The three step validators on the draft a form holds. *)
Definition personalValid (form : ApplicationForm.t) : bool :=
  stepValid
    (validatePersonalInfoStep
       (PersonalInfo.fullName (ApplicationForm.personalInfo form))
       (PersonalInfo.email (ApplicationForm.personalInfo form))
       (PersonalInfo.phone (ApplicationForm.personalInfo form))).

Definition experienceValid (form : ApplicationForm.t) : bool :=
  stepValid
    (validateExperienceStep
       (Experience.yearsOfExperience (ApplicationForm.experience form))
       (Experience.skills (ApplicationForm.experience form))
       (Experience.portfolioLink (ApplicationForm.experience form))).

Definition resumeValid (form : ApplicationForm.t) : bool :=
  stepValid (validateResumeStep (ApplicationForm.resumeFile form)).

(** What one event of the wizard can do to the store: nothing; select a
    job; rewrite the personal information on step 0, the experience on
    step 1, the resume on step 2 (a file that passes the check, with its
    name, or no file and no name); go one step forward from a valid step;
    go one step back; or, on step 2 with a resume that passes and a job
    that exists, put the new record in front of the candidates. *)
Inductive WizardMove : HireLinkStore -> HireLinkStore -> Prop :=
| move_none state : WizardMove state state
| move_job jobId state : WizardMove state (setSelectedJobId jobId state)
| move_personal info state :
    currentStep state = 0%nat ->
    WizardMove state
      (setApplicationForm
         (ApplicationForm.mkPartial (Some info) None None None) state)
| move_experience e state :
    currentStep state = 1%nat ->
    WizardMove state (Wizard.ExperienceStep.setExperience e state)
| move_file f state :
    currentStep state = 2%nat ->
    valid (validateResume (Some f)) = true ->
    WizardMove state (Wizard.ResumeStep.setResume (Some f) (fileName f) state)
| move_no_file state :
    currentStep state = 2%nat ->
    WizardMove state (Wizard.ResumeStep.setResume None [] state)
| move_next state :
    (currentStep state < 2)%nat ->
    (currentStep state = 0%nat -> personalValid (applicationForm state) = true) ->
    (currentStep state = 1%nat ->
     experienceValid (applicationForm state) = true) ->
    WizardMove state (setCurrentStep (currentStep state + 1)%nat state)
| move_back state :
    (0 < currentStep state <= 2)%nat ->
    WizardMove state (setCurrentStep (currentStep state - 1)%nat state)
| move_submit a job state :
    currentStep state = 2%nat ->
    valid
      (validateResume (ApplicationForm.resumeFile (applicationForm state)))
    = true ->
    Wizard.ResumeStep.findSelectedJob state = Some job ->
    WizardMove state
      (addCandidate (Wizard.ResumeStep.newCandidate a job state) state).

(** A record as a submission leaves it: at Applied, not scored, for one
    of the postings and under its title, with a draft that passes the
    three step validators. *)
Definition submitted (postings : list JobPosting.t) (c : Candidate.t)
    : Prop :=
  Candidate.stage c = Applied
  /\ Candidate.score c = None
  /\ (exists job,
        job ∈ postings /\ Candidate.jobId c = JobPosting.id job
        /\ Candidate.jobTitle c = JobPosting.title job)
  /\ personalValid (Candidate.applicationData c) = true
  /\ experienceValid (Candidate.applicationData c) = true
  /\ resumeValid (Candidate.applicationData c) = true.

(** What every state of the wizard satisfies. *)
Definition wizardInvariant (state : HireLinkStore) : Prop :=
  (currentStep state <= 2)%nat
  /\ (1 <= currentStep state ->
      personalValid (applicationForm state) = true)%nat
  /\ (currentStep state = 2%nat ->
      experienceValid (applicationForm state) = true)
  /\ match ApplicationForm.resumeFile (applicationForm state) with
     | Some f =>
         valid (validateResume (Some f)) = true
         /\ ApplicationForm.resumeFileName (applicationForm state)
            = fileName f
     | None => ApplicationForm.resumeFileName (applicationForm state) = []
     end
  /\ jobPostings state = mockJobPostings
  /\ Forall (submitted mockJobPostings) (candidates state).

(** What the applicant submitted, as a record carries it: everything but
    the stage, the score, the notes, the interview and the offer. *)
Definition submission (c : Candidate.t)
    : jsstring * jsstring * jsstring * jsstring * ApplicationForm.t
      * jsstring :=
  (Candidate.id c, Candidate.applicationId c, Candidate.jobId c,
   Candidate.jobTitle c, Candidate.applicationData c,
   Candidate.appliedDate c).

(** The records that arrive in a run of the dashboard, the latest
    first. *)
Fixpoint arrivals (events : list Dashboard.Event) : list Candidate.t :=
  match events with
  | [] => []
  | e :: rest =>
      arrivals rest
      ++ match e with
         | Dashboard.Arrive c => [c]
         | _ => []
         end
  end.

(** What an action of the recruiter can do to the store: nothing; or one
    update for the id of the selected record, which is Save with the
    score and the notes of the modal, Move to Reviewed on a record shown
    at Applied, Schedule Interview from the open dialog with a date, a
    time and a type, or Send Offer from the open dialog. *)
Inductive RecruiterMove (s : Dashboard.State) : HireLinkStore -> Prop :=
| recruiter_none : RecruiterMove s (Dashboard.store s)
| recruiter_save c :
    Dashboard.selectedCandidate s = Some c ->
    RecruiterMove s
      (updateCandidate (Candidate.id c)
         (Recruiter.CandidateModal.saveUpdates (Dashboard.modal s))
         (Dashboard.store s))
| recruiter_reviewed c :
    Dashboard.selectedCandidate s = Some c ->
    Candidate.stage c = Applied ->
    RecruiterMove s
      (updateCandidate (Candidate.id c)
         (Recruiter.CandidateModal.stageOnly Reviewed) (Dashboard.store s))
| recruiter_schedule c :
    Dashboard.selectedCandidate s = Some c ->
    Recruiter.CandidateModal.isInterviewSchedulerOpen (Dashboard.modal s)
    = true ->
    Recruiter.InterviewScheduler.isValid (Dashboard.scheduler s) = true ->
    RecruiterMove s
      (updateCandidate (Candidate.id c)
         (Recruiter.InterviewScheduler.scheduleUpdates (Dashboard.scheduler s))
         (Dashboard.store s))
| recruiter_offer c :
    Dashboard.selectedCandidate s = Some c ->
    Recruiter.CandidateModal.isOfferLetterOpen (Dashboard.modal s) = true ->
    RecruiterMove s
      (updateCandidate (Candidate.id c)
         (Recruiter.OfferLetter.offerUpdates (Dashboard.offer s))
         (Dashboard.store s)).

(** Between two collections every record advanced by one stage at
    most: every record of the first has a record of its id in the second,
    at its stage or at the next one. *)
Definition oneStageAtMost (before after : list Candidate.t) : Prop :=
  forall c,
    c ∈ before ->
    exists c',
      c' ∈ after /\ Candidate.id c' = Candidate.id c
      /\ (stageRank (Candidate.stage c) <= stageRank (Candidate.stage c')
          <= stageRank (Candidate.stage c) + 1)%nat.

(** A record past Reviewed has an interview date and time, neither
    empty; a record at Offer Sent has an offer text. *)
Definition dated (c : Candidate.t) : Prop :=
  ((2 <= stageRank (Candidate.stage c))%nat ->
   exists date time,
     Candidate.interviewDate c = Some date /\ date <> []
     /\ Candidate.interviewTime c = Some time /\ time <> [])
  /\ (Candidate.stage c = OfferSent ->
      exists text, Candidate.offerDetails c = Some text).

(** A score is absent or one of 1 to 5. *)
Definition inRange (score : option Z) : Prop :=
  match score with
  | Some n => (1 <= n <= 5)%Z
  | None => True
  end.

(** An event of the dashboard as the page produces it: a record arrives
    as a submission leaves it, at Applied and not scored, and a score is
    set by one of the five buttons. *)
Definition asThePageProduces (e : Dashboard.Event) : Prop :=
  match e with
  | Dashboard.Arrive c =>
      Candidate.stage c = Applied /\ Candidate.score c = None
  | Dashboard.SetScore n => (1 <= n <= 5)%Z
  | _ => True
  end.

(** [{ ...first, ...second }] on two updates: a key of the second wins,
    a key only the first has stays. *)
Definition later {A : Type} (second first : option A) : option A :=
  match second with
  | Some v => Some v
  | None => first
  end.

Definition override (first second : Candidate.partial) : Candidate.partial :=
  Candidate.mkPartial
    (later (Candidate.p_id second) (Candidate.p_id first))
    (later (Candidate.p_applicationId second)
       (Candidate.p_applicationId first))
    (later (Candidate.p_jobId second) (Candidate.p_jobId first))
    (later (Candidate.p_jobTitle second) (Candidate.p_jobTitle first))
    (later (Candidate.p_applicationData second)
       (Candidate.p_applicationData first))
    (later (Candidate.p_appliedDate second) (Candidate.p_appliedDate first))
    (later (Candidate.p_stage second) (Candidate.p_stage first))
    (later (Candidate.p_score second) (Candidate.p_score first))
    (later (Candidate.p_notes second) (Candidate.p_notes first))
    (later (Candidate.p_interviewDate second)
       (Candidate.p_interviewDate first))
    (later (Candidate.p_interviewTime second)
       (Candidate.p_interviewTime first))
    (later (Candidate.p_offerDetails second)
       (Candidate.p_offerDetails first)).

(** A decimal numeral: digits, and optionally a point and more digits. *)
Definition decimalNumeral (s : jsstring) : Prop :=
  exists whole frac,
    s = whole ++ frac
    /\ whole <> [] /\ Forall (fun c => isDigit c = true) whole
    /\ (frac = []
        \/ exists ds,
             frac = 46 :: ds /\ ds <> []
             /\ Forall (fun c => isDigit c = true) ds).

(** The update as the requirements word it: one record of the id is
    merged and every other record of the collection stays as it is,
    whatever the store. *)
Definition updatesOnlyOneRecord : Prop :=
  forall (state : HireLinkStore) (id : jsstring)
         (updates : Candidate.partial) (i : nat) (c : Candidate.t),
    candidates state !! i = Some c ->
    Candidate.id c = id ->
    forall j : nat,
      j <> i ->
      candidates (updateCandidate id updates state) !! j
      = candidates state !! j.

(** A store whose step is 0, 1 or 2 with the steps before it valid,
    whatever resume its draft holds and whatever records it holds. *)
Definition gated (state : HireLinkStore) : Prop :=
  (currentStep state <= 2)%nat
  /\ ((1 <= currentStep state)%nat ->
      personalValid (applicationForm state) = true)
  /\ (currentStep state = 2%nat ->
      experienceValid (applicationForm state) = true).

(** A draft whose resume passes the check and is recorded under its
    name, or which has no resume and no name. *)
Definition checkedResume (form : ApplicationForm.t) : Prop :=
  match ApplicationForm.resumeFile form with
  | Some f =>
      valid (validateResume (Some f)) = true
      /\ ApplicationForm.resumeFileName form = fileName f
  | None => ApplicationForm.resumeFileName form = []
  end.

End Props.

(** ** Sample data the closed lemmas are evaluated on *)
Module Samples.
Import JsString Validation Store Wizard.

Definition pdf : File :=
  mkFile (js "cv.pdf") 120000 (js "application/pdf").

Definition draft : ApplicationForm.t :=
  {| ApplicationForm.personalInfo :=
       PersonalInfo.mk (js "Ada Lovelace") (js "ada@example.com")
         (js "(555) 123-4567");
     ApplicationForm.experience :=
       Experience.mk (js "7.5") [js "React"; js "TypeScript"]
         (js "https://ada.dev");
     ApplicationForm.resumeFile := Some pdf;
     ApplicationForm.resumeFileName := js "cv.pdf" |}.

(** A clock reading and two renderings of random numbers. *)
Definition ambient : ResumeStep.Ambient :=
  ResumeStep.mkAmbient 1700000000000 (js "0.4fzyo82mvyr")
    (js "0.k3j9x0q1abc") (js "2023-11-14T22:13:20.000Z").

(** The same, with the random number of the application id being one
    half, which prints as [0.i] in radix 36. *)
Definition ambientHalf : ResumeStep.Ambient :=
  ResumeStep.mkAmbient 1700000000000 (js "0.i")
    (js "0.z9y8x7w6v5u") (js "2023-11-14T22:13:20.000Z").

Definition record (id : string) (name : string) (stage : Stage)
    : Candidate.t :=
  {| Candidate.id := js id;
     Candidate.applicationId := js "HLA-4FZYO82M-LOYW3V28";
     Candidate.jobId := js "1";
     Candidate.jobTitle := js "Senior Frontend Developer";
     Candidate.applicationData :=
       ApplicationForm.mk
         (PersonalInfo.mk (js name) (js "ada@example.com")
            (js "(555) 123-4567"))
         (ApplicationForm.experience draft) (Some pdf) (js "cv.pdf");
     Candidate.appliedDate := js "2023-11-14T22:13:20.000Z";
     Candidate.stage := stage;
     Candidate.score := None;
     Candidate.notes := Some [];
     Candidate.interviewDate := None;
     Candidate.interviewTime := None;
     Candidate.offerDetails := None |}.

Definition ada : Candidate.t := record "k3j9x0q1a" "Ada Lovelace" Applied.
Definition grace : Candidate.t := record "k3j9x0q1a" "Grace Hopper" Applied.
Definition alan : Candidate.t := record "p0o9i8u7y" "Alan Turing" OfferSent.

(** A store holding one record. *)
Definition storeWith (c : Candidate.t) : HireLinkStore :=
  addCandidate c initialStore.

(** A candidate's session: pick job 1, fill the three steps, submit. *)
Definition session (a : ResumeStep.Ambient) : list WizardMachine.Event :=
  [ WizardMachine.SelectJob (js "1");
    WizardMachine.FieldChange PersonalInfoStep.fullName (js "Ada Lovelace");
    WizardMachine.FieldChange PersonalInfoStep.email (js "ada@example.com");
    WizardMachine.FieldChange PersonalInfoStep.phone (js "(555) 123-4567");
    WizardMachine.PersonalNext;
    WizardMachine.ExperienceChange (js "7.5");
    WizardMachine.SkillInput (js " React ");
    WizardMachine.AddSkill;
    WizardMachine.SkillInput (js "TypeScript");
    WizardMachine.AddSkill;
    WizardMachine.PortfolioChange (js "https://ada.dev");
    WizardMachine.ExperienceNext;
    WizardMachine.FileSelect (Some pdf);
    WizardMachine.Submit a ].

(** The experience step with a text typed into the skill input. *)
Definition typed (text : string) : ExperienceStep.Local :=
  ExperienceStep.setSkillInput (js text) ExperienceStep.mount.

(** The session up to the experience step, before any skill is added. *)
Definition atExperienceStep : list WizardMachine.Event :=
  take 6 (session ambient).

(** Twenty distinct one-letter skills, typed and added one by one. *)
Definition twentySkills : list WizardMachine.Event :=
  flat_map
    (fun c => [WizardMachine.SkillInput [c]; WizardMachine.AddSkill])
    (List.map (fun i => 97 + N.of_nat i) (seq 0 20)).

(** A recruiter's session on a record that just arrived: review it,
    schedule the interview, send the offer. *)
Definition review : list Dashboard.Event :=
  [ Dashboard.Arrive ada;
    Dashboard.SelectCandidate 0;
    Dashboard.MoveToReviewed;
    Dashboard.MoveToReviewed;
    Dashboard.SetScore 4;
    Dashboard.Save;
    Dashboard.CloseModal;
    Dashboard.SelectCandidate 0;
    Dashboard.OpenScheduler;
    Dashboard.SchedulerInput (js "2023-12-01") (js "10:00 AM") (js "video")
      (js "bring portfolio");
    Dashboard.Schedule;
    Dashboard.Arrive alan;
    Dashboard.SelectCandidate 1;
    Dashboard.OpenOffer;
    Dashboard.OfferInput (js "120000") (js "2024-01-15") (js "welcome");
    Dashboard.SendOffer ].

(** The same recruiter's work on one record, up to the offer, and then a
    second submission whose random id repeats the first one's. *)
Definition collision : list Dashboard.Event :=
  [ Dashboard.Arrive ada;
    Dashboard.SelectCandidate 0;
    Dashboard.MoveToReviewed;
    Dashboard.CloseModal;
    Dashboard.SelectCandidate 0;
    Dashboard.OpenScheduler;
    Dashboard.SchedulerInput (js "2023-12-01") (js "10:00 AM") (js "video") [];
    Dashboard.Schedule;
    Dashboard.SelectCandidate 0;
    Dashboard.OpenOffer;
    Dashboard.OfferInput (js "120000") (js "2024-01-15") [];
    Dashboard.SendOffer;
    Dashboard.Arrive grace;
    Dashboard.SelectCandidate 0;
    Dashboard.MoveToReviewed ].

(** A file of a type the resume check does not accept. *)
Definition textFile : File :=
  mkFile (js "notes.txt") 2048 (js "text/plain").

(** A later visit: the store of the session above, with its record, on
    the resume step, its draft holding a file that does not pass the
    check. *)
Definition returning : WizardMachine.State :=
  WizardMachine.remount
    (ResumeStep.setResume (Some textFile) (js "notes.txt")
       (WizardMachine.store
          (WizardMachine.run (session ambient) WizardMachine.initial))).

End Samples.

(** * Properties *)

Import JsString Regex Validation Store.
Import Props.

(** ** The candidate store *)
Section CandidateStore.

Implicit Types (state : HireLinkStore) (c : Candidate.t)
  (id : jsstring) (updates : Candidate.partial).

Lemma eqb_true (a b : jsstring) : eqb a b = true <-> a = b.
Proof. unfold eqb. apply bool_decide_eq_true. Qed.

Lemma eqb_false (a b : jsstring) : eqb a b = false <-> a <> b.
Proof. unfold eqb. apply bool_decide_eq_false. Qed.

Lemma eqb_refl (a : jsstring) : eqb a a = true.
Proof. by apply eqb_true. Qed.

(** An update that matches no record maps every record to itself. *)
Lemma map_update_absent id updates (cs : list Candidate.t) :
  id ∉ ids cs ->
  List.map
    (fun candidate =>
       if eqb (Candidate.id candidate) id
       then Candidate.spread candidate updates
       else candidate) cs = cs.
Proof.
  induction cs as [|c cs IH]; intros Hid; [done|].
  cbn [List.map]. unfold ids in *. cbn [List.map] in Hid.
  apply not_elem_of_cons in Hid as [Hne Hrest].
  rewrite (proj2 (eqb_false (Candidate.id c) id)) by congruence.
  by rewrite IH.
Qed.

Lemma withCandidates_same state : withCandidates (candidates state) state = state.
Proof. by destruct state. Qed.

(** C1, as the code has it: inserting a record whose id is already
    present does not fail with DUPLICATE_ID.  The action completes, the
    record is put in front, and the collection that was there, the
    earlier record of that id included, follows it unchanged; the rest
    of the store is untouched. *)
Theorem addCandidate_duplicate_id_prepends state c :
  Candidate.id c ∈ ids (candidates state) ->
  perform (addCandidate c) state = inr (addCandidate c state)
  /\ candidates (addCandidate c state) = c :: candidates state
  /\ (exists earlier,
        earlier ∈ candidates state
        /\ Candidate.id earlier = Candidate.id c
        /\ earlier ∈ candidates (addCandidate c state))
  /\ currentStep (addCandidate c state) = currentStep state
  /\ applicationForm (addCandidate c state) = applicationForm state
  /\ jobPostings (addCandidate c state) = jobPostings state
  /\ selectedJobId (addCandidate c state) = selectedJobId state
  /\ userRole (addCandidate c state) = userRole state.
Proof.
  intros Hdup. repeat split; try reflexivity.
  unfold ids in Hdup. apply list_elem_of_fmap in Hdup as (earlier & Hid & Hin).
  exists earlier. repeat split; [done|done|].
  cbn. by apply list_elem_of_further.
Qed.

Lemma addCandidate_duplicate_id_prepends_witness :
  Candidate.id Samples.grace ∈ ids (candidates (Samples.storeWith Samples.ada))
  /\ candidates (addCandidate Samples.grace (Samples.storeWith Samples.ada))
     = [Samples.grace; Samples.ada].
Proof.
  assert (H : Candidate.id Samples.grace
              ∈ ids (candidates (Samples.storeWith Samples.ada)))
    by (vm_compute; apply list_elem_of_here).
  split; [exact H|].
  exact (proj1 (proj2
    (addCandidate_duplicate_id_prepends (Samples.storeWith Samples.ada)
       Samples.grace H))).
Defined.

(** C1 as stated fails: the second insert of an id is not refused, and
    the store ends up holding both records of that id. *)
Lemma addCandidate_duplicate_id_counterexample :
  Candidate.id Samples.grace = Candidate.id Samples.ada
  /\ perform (addCandidate Samples.grace) (Samples.storeWith Samples.ada)
     <> inl DUPLICATE_ID
  /\ candidates (addCandidate Samples.grace (Samples.storeWith Samples.ada))
     = [Samples.grace; Samples.ada]
  /\ candidates (addCandidate Samples.grace (Samples.storeWith Samples.ada))
     <> candidates (Samples.storeWith Samples.ada).
Proof. repeat split; [discriminate | discriminate]. Qed.


(** C10: after two inserts of records that share an id the store holds
    both, the later one first, and a lookup by that id returns the later
    one, which is not the record inserted first (unless the two are the
    same record). *)
Theorem addCandidate_twice_same_id state (c1 c2 : Candidate.t) :
  Candidate.id c1 = Candidate.id c2 ->
  candidates (addCandidate c2 (addCandidate c1 state))
  = c2 :: c1 :: candidates state
  /\ getCandidateById (Candidate.id c1) (addCandidate c2 (addCandidate c1 state))
     = Some c2
  /\ (c1 <> c2 ->
      getCandidateById (Candidate.id c1)
        (addCandidate c2 (addCandidate c1 state)) <> Some c1).
Proof.
  intros Hid.
  assert (Hget : getCandidateById (Candidate.id c1)
                   (addCandidate c2 (addCandidate c1 state)) = Some c2).
  { unfold getCandidateById. cbn. by rewrite <- Hid, eqb_refl. }
  split; [reflexivity|]. split; [exact Hget|].
  intros Hne. rewrite Hget. congruence.
Qed.

Lemma addCandidate_twice_same_id_witness :
  Candidate.id Samples.ada = Candidate.id Samples.grace
  /\ getCandidateById (Candidate.id Samples.ada)
       (addCandidate Samples.grace (addCandidate Samples.ada initialStore))
     = Some Samples.grace.
Proof.
  split; [reflexivity|].
  exact (proj1 (proj2
    (addCandidate_twice_same_id initialStore Samples.ada Samples.grace
       eq_refl))).
Defined.

(** C4, as the code has it: an update for an id that no record has does
    not fail with NOT_FOUND.  The action completes and the store it
    leaves is the store it found: no record is added, removed, modified
    or reordered. *)
Theorem updateCandidate_absent_id state id updates :
  id ∉ ids (candidates state) ->
  perform (updateCandidate id updates) state = inr state
  /\ candidates (updateCandidate id updates state) = candidates state.
Proof.
  intros Habsent.
  assert (H : updateCandidate id updates state = state).
  { unfold updateCandidate. rewrite map_update_absent by done.
    apply withCandidates_same. }
  unfold perform. by rewrite H.
Qed.

Lemma updateCandidate_absent_id_witness :
  (js "nobody" ∉ ids (candidates (Samples.storeWith Samples.ada)))
  /\ candidates
       (updateCandidate (js "nobody")
          (Recruiter.CandidateModal.stageOnly Reviewed)
          (Samples.storeWith Samples.ada))
     = [Samples.ada].
Proof.
  assert (H : js "nobody" ∉ ids (candidates (Samples.storeWith Samples.ada))).
  { intros Hin. apply list_elem_of_In in Hin. vm_compute in Hin.
    destruct Hin as [Hin|[]]. discriminate Hin. }
  split; [exact H|].
  exact (proj2
    (updateCandidate_absent_id (Samples.storeWith Samples.ada) (js "nobody")
       (Recruiter.CandidateModal.stageOnly Reviewed) H)).
Defined.

(** C4 as stated fails: the update of an absent id is not refused. *)
Lemma updateCandidate_absent_id_counterexample :
  (js "nobody" ∉ ids (candidates (Samples.storeWith Samples.ada)))
  /\ perform
       (updateCandidate (js "nobody")
          (Recruiter.CandidateModal.stageOnly Reviewed))
       (Samples.storeWith Samples.ada)
     <> inl NOT_FOUND.
Proof.
  split; [|discriminate].
  intros Hin. apply list_elem_of_In in Hin. vm_compute in Hin.
  destruct Hin as [Hin|[]]. discriminate Hin.
Qed.

End CandidateStore.

Section CandidateUpdate.

Implicit Types (state : HireLinkStore) (c : Candidate.t)
  (id : jsstring) (updates : Candidate.partial).

Lemma merged_default {A : Type} (old : A) (named : option A) :
  merged old named (default old named).
Proof. by destruct named. Qed.

(** Every field of a spread record is merged from the update. *)
Lemma spread_merged c updates :
  let c' := Candidate.spread c updates in
  merged (Candidate.id c) (Candidate.p_id updates) (Candidate.id c')
  /\ merged (Candidate.applicationId c) (Candidate.p_applicationId updates)
       (Candidate.applicationId c')
  /\ merged (Candidate.jobId c) (Candidate.p_jobId updates) (Candidate.jobId c')
  /\ merged (Candidate.jobTitle c) (Candidate.p_jobTitle updates)
       (Candidate.jobTitle c')
  /\ merged (Candidate.applicationData c) (Candidate.p_applicationData updates)
       (Candidate.applicationData c')
  /\ merged (Candidate.appliedDate c) (Candidate.p_appliedDate updates)
       (Candidate.appliedDate c')
  /\ merged (Candidate.stage c) (Candidate.p_stage updates) (Candidate.stage c')
  /\ merged (Candidate.score c) (Candidate.p_score updates) (Candidate.score c')
  /\ merged (Candidate.notes c) (Candidate.p_notes updates) (Candidate.notes c')
  /\ merged (Candidate.interviewDate c) (Candidate.p_interviewDate updates)
       (Candidate.interviewDate c')
  /\ merged (Candidate.interviewTime c) (Candidate.p_interviewTime updates)
       (Candidate.interviewTime c')
  /\ merged (Candidate.offerDetails c) (Candidate.p_offerDetails updates)
       (Candidate.offerDetails c').
Proof. cbn. repeat split; apply merged_default. Qed.

(** The record at each position after an update. *)
Lemma updateCandidate_lookup state id updates (i : nat) c :
  candidates state !! i = Some c ->
  candidates (updateCandidate id updates state) !! i
  = Some (if decide (Candidate.id c = id)
          then Candidate.spread c updates else c).
Proof.
  intros Hi. unfold updateCandidate. cbn [candidates withCandidates].
  change (List.map ?f ?l) with (f <$> l).
  rewrite list_lookup_fmap, Hi. cbn. f_equal.
  destruct (decide (Candidate.id c = id)) as [He|Hne].
  - by rewrite (proj2 (eqb_true _ _) He).
  - by rewrite (proj2 (eqb_false _ _) Hne).
Qed.

(** C9, as the code has it: an update reaches every record of its id,
    not one record.  An update for an id the store holds keeps the
    collection's length and order; at every position, a record of that id
    is replaced by the record merged with the update and a record of
    another id stays as it is; in a merged record each field the update
    names takes the named value and every other field keeps its value.
    When the ids of the store are pairwise distinct, one record is merged
    and every other record stays as it is. *)
Theorem updateCandidate_merges_and_frames state id updates :
  id ∈ ids (candidates state) ->
  length (candidates (updateCandidate id updates state))
  = length (candidates state)
  /\ (forall (i : nat) c,
        candidates state !! i = Some c ->
        exists c',
          candidates (updateCandidate id updates state) !! i = Some c'
          /\ (Candidate.id c <> id -> c' = c)
          /\ (Candidate.id c = id ->
              merged (Candidate.id c) (Candidate.p_id updates) (Candidate.id c')
              /\ merged (Candidate.applicationId c)
                   (Candidate.p_applicationId updates)
                   (Candidate.applicationId c')
              /\ merged (Candidate.jobId c) (Candidate.p_jobId updates)
                   (Candidate.jobId c')
              /\ merged (Candidate.jobTitle c) (Candidate.p_jobTitle updates)
                   (Candidate.jobTitle c')
              /\ merged (Candidate.applicationData c)
                   (Candidate.p_applicationData updates)
                   (Candidate.applicationData c')
              /\ merged (Candidate.appliedDate c)
                   (Candidate.p_appliedDate updates) (Candidate.appliedDate c')
              /\ merged (Candidate.stage c) (Candidate.p_stage updates)
                   (Candidate.stage c')
              /\ merged (Candidate.score c) (Candidate.p_score updates)
                   (Candidate.score c')
              /\ merged (Candidate.notes c) (Candidate.p_notes updates)
                   (Candidate.notes c')
              /\ merged (Candidate.interviewDate c)
                   (Candidate.p_interviewDate updates)
                   (Candidate.interviewDate c')
              /\ merged (Candidate.interviewTime c)
                   (Candidate.p_interviewTime updates)
                   (Candidate.interviewTime c')
              /\ merged (Candidate.offerDetails c)
                   (Candidate.p_offerDetails updates)
                   (Candidate.offerDetails c')))
  /\ (exists (i : nat) c,
        candidates state !! i = Some c
        /\ candidates (updateCandidate id updates state) !! i
           = Some (Candidate.spread c updates))
  /\ (NoDup (ids (candidates state)) ->
      exists (i : nat) c,
        candidates state !! i = Some c /\ Candidate.id c = id
        /\ candidates (updateCandidate id updates state) !! i
           = Some (Candidate.spread c updates)
        /\ forall j : nat,
             j <> i ->
             candidates (updateCandidate id updates state) !! j
             = candidates state !! j).
Proof.
  intros Hin. split; [|split; [|split]].
  - unfold updateCandidate. cbn. apply length_map.
  - intros i c Hi. eexists. split; [by apply updateCandidate_lookup|].
    destruct (decide (Candidate.id c = id)) as [He|Hne].
    + split; [done|]. intros _. apply spread_merged.
    + split; done.
  - unfold ids in Hin. apply list_elem_of_fmap in Hin as (c & Hid & Hc).
    apply list_elem_of_lookup in Hc as [i Hi].
    exists i, c. split; [done|].
    rewrite (updateCandidate_lookup _ _ _ _ _ Hi).
    by rewrite decide_True.
  - intros Hnd. unfold ids in Hin.
    apply list_elem_of_fmap in Hin as (c & Hid & Hc).
    apply list_elem_of_lookup in Hc as [i Hi].
    exists i, c. split; [done|]. split; [done|]. split.
    + rewrite (updateCandidate_lookup _ _ _ _ _ Hi). by rewrite decide_True.
    + intros j Hj.
      destruct (candidates state !! j) as [c2|] eqn:Hc2.
      * rewrite (updateCandidate_lookup _ _ _ _ _ Hc2).
        rewrite decide_False; [done|]. intros Hid2. apply Hj.
        apply (NoDup_lookup (ids (candidates state)) j i id); [done|..];
          unfold ids; change (List.map ?f ?l) with (f <$> l);
          rewrite list_lookup_fmap.
        -- by rewrite Hc2; cbn; rewrite Hid2.
        -- by rewrite Hi; cbn; rewrite Hid.
      * unfold updateCandidate. cbn [candidates withCandidates].
        change (List.map ?f ?l) with (f <$> l).
        by rewrite list_lookup_fmap, Hc2.
Qed.

(** C9 as stated fails: with two records of one id in the store, as two
    submissions whose random ids coincide leave them, the update of that
    id rewrites both, so the other record does not stay as it is. *)
Lemma updateCandidate_other_record_counterexample : ~ updatesOnlyOneRecord.
Proof.
  intros Hone.
  specialize (Hone (withCandidates [Samples.grace; Samples.ada] initialStore)
                (Candidate.id Samples.grace)
                (Recruiter.CandidateModal.stageOnly Reviewed)
                0%nat Samples.grace eq_refl eq_refl 1%nat).
  specialize (Hone ltac:(lia)).
  apply (f_equal (fmap Candidate.stage)) in Hone.
  vm_compute in Hone. discriminate Hone.
Qed.

Lemma updateCandidate_merges_and_frames_witness :
  Candidate.id Samples.alan
  ∈ ids (candidates (withCandidates [Samples.ada; Samples.alan] initialStore))
  /\ length
       (candidates
          (updateCandidate (Candidate.id Samples.alan)
             (Recruiter.CandidateModal.stageOnly Reviewed)
             (withCandidates [Samples.ada; Samples.alan] initialStore)))
     = length
         (candidates (withCandidates [Samples.ada; Samples.alan] initialStore)).
Proof.
  assert (H : Candidate.id Samples.alan
              ∈ ids (candidates
                       (withCandidates [Samples.ada; Samples.alan]
                          initialStore)))
    by (apply list_elem_of_In; vm_compute; tauto).
  split; [exact H|].
  exact (proj1
    (updateCandidate_merges_and_frames
       (withCandidates [Samples.ada; Samples.alan] initialStore)
       (Candidate.id Samples.alan)
       (Recruiter.CandidateModal.stageOnly Reviewed) H)).
Defined.

(** The update at work on two records: the one of the given id takes the
    new stage, the other is left alone. *)
Example updateCandidate_on_two_records :
  candidates
    (updateCandidate (Candidate.id Samples.alan)
       (Recruiter.CandidateModal.stageOnly Reviewed)
       (withCandidates [Samples.ada; Samples.alan] initialStore))
  = [Samples.ada; Samples.record "p0o9i8u7y" "Alan Turing" Reviewed].
Proof. reflexivity. Qed.

End CandidateUpdate.

(** ** The pipeline projection *)
Section PipelineProjection.

Import PipelineBoard.

Implicit Types (cs bucket : list Candidate.t) (c : Candidate.t).

(** The four columns, spelled out. *)
Lemma columns_unfold cs :
  columns cs =
  [ getCandidatesByStage cs "Applied";
    getCandidatesByStage cs "Reviewed";
    getCandidatesByStage cs "Interview Scheduled";
    getCandidatesByStage cs "Offer Sent" ].
Proof. reflexivity. Qed.

(** Every stage is the id of exactly one column. *)
Lemma stage_column (s : Stage) :
  exists i stage,
    PIPELINE_STAGES !! i = Some stage /\ stageLabel s = id stage
    /\ forall j stage',
         PIPELINE_STAGES !! j = Some stage' -> stageLabel s = id stage' -> j = i.
Proof.
  destruct s;
    [exists 0%nat | exists 1%nat | exists 2%nat | exists 3%nat];
    eexists; (split; [reflexivity|]); (split; [reflexivity|]);
    intros [|[|[|[|j]]]] stage' Hj Hid; cbn in Hj;
    try discriminate Hj; injection Hj as <-; cbn in Hid;
    try discriminate Hid; reflexivity.
Qed.

Lemma bucket_sizes cs :
  (length (getCandidatesByStage cs "Applied")
   + length (getCandidatesByStage cs "Reviewed")
   + length (getCandidatesByStage cs "Interview Scheduled")
   + length (getCandidatesByStage cs "Offer Sent") = length cs)%nat.
Proof.
  unfold getCandidatesByStage.
  induction cs as [|c cs IH]; [reflexivity|].
  rewrite !filter_cons.
  destruct (Candidate.stage c); cbn [stageLabel];
    repeat case_decide; try congruence; cbn [length]; lia.
Qed.

Lemma column_lookup cs (i : nat) stage bucket :
  PIPELINE_STAGES !! i = Some stage ->
  columns cs !! i = Some bucket ->
  bucket = getCandidatesByStage cs (id stage).
Proof.
  intros Hs Hb. unfold columns in Hb.
  change (List.map ?f ?l) with (f <$> l) in Hb.
  rewrite list_lookup_fmap, Hs in Hb. cbn in Hb. congruence.
Qed.

(** C8: the board has exactly four buckets; their sizes add up to the
    number of records; a bucket holds exactly the records of the
    collection whose stage is the bucket's; every record of the collection
    is in one bucket and in no other; and each bucket lists its records in
    the order the collection has them. *)
Theorem columns_partition_by_stage cs :
  length (columns cs) = 4%nat
  /\ sum_list (length <$> columns cs) = length cs
  /\ (forall (i : nat) stage bucket c,
        PIPELINE_STAGES !! i = Some stage ->
        columns cs !! i = Some bucket ->
        (c ∈ bucket <-> c ∈ cs /\ stageLabel (Candidate.stage c) = id stage))
  /\ (forall c,
        c ∈ cs ->
        exists (i : nat) bucket,
          columns cs !! i = Some bucket /\ c ∈ bucket
          /\ forall (j : nat) bucket',
               columns cs !! j = Some bucket' -> c ∈ bucket' -> j = i)
  /\ (forall bucket, bucket ∈ columns cs -> sublist bucket cs).
Proof.
  split; [reflexivity|]. split; [|split; [|split]].
  - rewrite columns_unfold. cbn [fmap list_fmap sum_list sum_list_with].
    unfold Datatypes.id. pose proof (bucket_sizes cs). lia.
  - intros i stage bucket c Hs Hb.
    rewrite (column_lookup cs i stage bucket Hs Hb).
    unfold getCandidatesByStage. rewrite list_elem_of_filter. tauto.
  - intros c Hc.
    destruct (stage_column (Candidate.stage c)) as (i & stage & Hs & Hid & Huniq).
    exists i, (getCandidatesByStage cs (id stage)). split; [|split].
    + unfold columns. change (List.map ?f ?l) with (f <$> l).
      by rewrite list_lookup_fmap, Hs.
    + unfold getCandidatesByStage. by apply list_elem_of_filter.
    + intros j bucket' Hj Hin.
      assert (Hj' := Hj). unfold columns in Hj'.
      change (List.map ?f ?l) with (f <$> l) in Hj'.
      rewrite list_lookup_fmap in Hj'.
      destruct (PIPELINE_STAGES !! j) as [stage'|] eqn:Hs'; [|discriminate].
      rewrite (column_lookup cs j stage' bucket' Hs' Hj) in Hin.
      unfold getCandidatesByStage in Hin.
      apply list_elem_of_filter in Hin as [Hlabel _].
      by apply (Huniq j stage').
  - intros bucket Hb. rewrite columns_unfold in Hb.
    repeat (apply elem_of_cons in Hb as [->|Hb]);
      [apply sublist_filter ..|]; try typeclasses eauto.
    by apply elem_of_nil in Hb.
Qed.

End PipelineProjection.

(** ** The validation engine *)
Section FullName.

Implicit Types (s : jsstring) (p : N -> bool).

Lemma matches_Void s : matches Void s = false.
Proof. induction s; [reflexivity|assumption]. Qed.

Lemma deriv_cls_then p (c : N) (r : regex) :
  mkCat (if p c then Eps else Void) r = if p c then r else Void.
Proof. by destruct (p c). Qed.

(** A starred class accepts the strings made of the class. *)
Lemma matches_star_cls p s : matches (Star (Cls p)) s = forallb p s.
Proof.
  induction s as [|c s IH]; [reflexivity|].
  cbn [matches deriv forallb]. rewrite deriv_cls_then.
  destruct (p c); [exact IH|apply matches_Void].
Qed.

(** [/^[class]+$/.test(s)]: the string is not empty and made of the
    class. *)
Lemma test_plus_cls p s :
  test (Plus (Cls p)) s = truthy s && forallb p s.
Proof.
  destruct s as [|c s]; [reflexivity|].
  unfold test, Plus. cbn [matches deriv nullable truthy forallb andb].
  rewrite deriv_cls_then.
  destruct (p c); [apply matches_star_cls|apply matches_Void].
Qed.

Lemma truthy_true s : truthy s = true <-> s <> [].
Proof. destruct s; cbn; split; congruence. Qed.

(** C5, as the code has it: a full name is valid exactly when it is not
    blank, its length as typed (not as trimmed) is between 2 and 100, and
    every character is an ASCII letter, a white-space character, a hyphen
    or an apostrophe. *)
Theorem validateFullName_valid_iff s :
  valid (validateFullName s) = true <-> fullNameRule s.
Proof.
  unfold validateFullName, fullNameRule, fullName_pattern,
    fullName_minLength, fullName_maxLength.
  rewrite test_plus_cls.
  destruct (truthy (trim s)) eqn:Htrim; cbn [negb].
  - apply truthy_true in Htrim.
    destruct (length s <? 2)%nat eqn:Hmin;
      [apply Nat.ltb_lt in Hmin | apply Nat.ltb_ge in Hmin].
    { cbn. split; [discriminate|]. intros (_ & Hlen & _). lia. }
    destruct (100 <? length s)%nat eqn:Hmax;
      [apply Nat.ltb_lt in Hmax | apply Nat.ltb_ge in Hmax].
    { cbn. split; [discriminate|]. intros (_ & Hlen & _). lia. }
    assert (Hs : truthy s = true).
    { apply truthy_true. intros ->. cbn in Hmin. lia. }
    rewrite Hs. cbn [andb].
    destruct (forallb fullName_class s) eqn:Hall; cbn.
    + split; [intros _|reflexivity].
      split; [exact Htrim|]. split; [lia|].
      apply Forall_forall. intros c Hc.
      rewrite forallb_forall in Hall. apply Hall. by apply list_elem_of_In.
    + split; [discriminate|]. intros (_ & _ & Hcls).
      assert (forallb fullName_class s = true); [|congruence].
      apply forallb_forall. intros c Hc.
      rewrite Forall_forall in Hcls. apply Hcls. by apply list_elem_of_In.
  - cbn. split; [discriminate|]. intros (Hne & _).
    exfalso. apply Hne. by destruct (trim s).
Qed.

(** C5 as stated fails: a space followed by one letter passes the
    validator, yet its trimmed length is 1. *)
Lemma validateFullName_counterexample :
  ~ (valid (validateFullName (js " a")) = true
     <-> statedFullNameRule (js " a")).
Proof.
  intros [Hvalid _].
  destruct (Hvalid eq_refl) as [[Hlen _] _].
  vm_compute in Hlen. lia.
Qed.

(** The other way round: two letters followed by ninety-nine spaces have
    a trimmed length of 2, yet the validator refuses them as too long,
    counting the spaces. *)
Example validateFullName_counts_untrimmed :
  validateFullName (js "ab" ++ repeat 32 99)
  = fail "Full name must not exceed 100 characters"
  /\ length (trim (js "ab" ++ repeat 32 99)) = 2%nat.
Proof. split; reflexivity. Qed.

(** A tab is white space to the pattern. *)
Example validateFullName_accepts_tab :
  valid (validateFullName [97; 9; 98]) = true.
Proof. reflexivity. Qed.

End FullName.

(** ** The skill list of the wizard *)
Section Skills.

Import Wizard WizardMachine.

Implicit Types (state : HireLinkStore) (l : ExperienceStep.Local)
  (w : WizardMachine.State).

Lemma includes_true (arr : list jsstring) (x : jsstring) :
  includes arr x = true <-> x ∈ arr.
Proof.
  unfold includes. rewrite existsb_exists. split.
  - intros (y & Hy & Heq). apply eqb_true in Heq as ->.
    by apply list_elem_of_In.
  - intros Hx. exists x. split; [by apply list_elem_of_In|apply eqb_refl].
Qed.

Lemma includes_false (arr : list jsstring) (x : jsstring) :
  includes arr x = false <-> x ∉ arr.
Proof.
  rewrite <- includes_true. destruct (includes arr x); split; congruence.
Qed.

(** What [handleAddSkill] does, case by case. *)
Lemma handleAddSkill_cases l state :
  let input := trim (ExperienceStep.skillInput l) in
  let reject (msg : string) :=
    (ExperienceStep.setErrors (<["skillInput" := msg]> (ExperienceStep.errors l)) l,
     state) in
  (input = [] /\ ExperienceStep.handleAddSkill l state = reject "Please enter a skill")
  \/ (input <> [] /\ (50 < length input)%nat
      /\ ExperienceStep.handleAddSkill l state
         = reject "Skill must not exceed 50 characters")
  \/ (input <> [] /\ (length input <= 50)%nat /\ input ∈ draftSkills state
      /\ ExperienceStep.handleAddSkill l state
         = reject "This skill is already added")
  \/ (input <> [] /\ (length input <= 50)%nat /\ (input ∉ draftSkills state)
      /\ (20 <= length (draftSkills state))%nat
      /\ ExperienceStep.handleAddSkill l state
         = reject "Maximum 20 skills allowed")
  \/ (input <> [] /\ (length input <= 50)%nat /\ (input ∉ draftSkills state)
      /\ (length (draftSkills state) < 20)%nat
      /\ draftSkills (ExperienceStep.handleAddSkill l state).2
         = draftSkills state ++ [input]
      /\ ExperienceStep.skillInput (ExperienceStep.handleAddSkill l state).1
         = []).
Proof.
  intros input reject. unfold ExperienceStep.handleAddSkill.
  fold (draftSkills state). fold input.
  destruct (truthy input) eqn:Hin; cbn [negb].
  2:{ left. split; [by destruct input|reflexivity]. }
  apply truthy_true in Hin. right.
  destruct (50 <? length input)%nat eqn:Hlen;
    [apply Nat.ltb_lt in Hlen | apply Nat.ltb_ge in Hlen].
  { left. repeat split; (assumption || reflexivity). }
  right.
  destruct (includes (draftSkills state) input) eqn:Hdup;
    [apply includes_true in Hdup | apply includes_false in Hdup].
  { left. repeat split; (assumption || reflexivity). }
  right.
  destruct (20 <=? length (draftSkills state))%nat eqn:Hfull;
    [apply Nat.leb_le in Hfull | apply Nat.leb_gt in Hfull].
  { left. repeat split; (assumption || reflexivity). }
  right. repeat split; (assumption || reflexivity).
Qed.


Lemma draftSkills_setExperience (e : Experience.t) state :
  draftSkills (ExperienceStep.setExperience e state) = Experience.skills e.
Proof. reflexivity. Qed.

(** What one event of the wizard does to the skills: nothing, or it adds
    one trimmed, non-empty, new skill of at most 50 characters to a list
    of fewer than 20, or it removes a skill. *)
Lemma step_skills (e : Event) w :
  skillsOf (step e w) = skillsOf w
  \/ (exists t,
        skillsOf (step e w) = skillsOf w ++ [t]
        /\ (length (skillsOf w) < 20)%nat
        /\ t <> [] /\ (length t <= 50)%nat /\ (t ∉ skillsOf w))
  \/ (exists t, skillsOf (step e w) = filter (fun s => s <> t) (skillsOf w)).
Proof.
  unfold step.
  destruct e; destruct (displayed w) as [[|[|[|n]]]|]; try (left; reflexivity).
  all: try (case_match; left; reflexivity).
  - (* PersonalNext *)
    destruct (PersonalInfoStep.handleNext _ _) as [l [|]]; left;
      [|reflexivity].
    unfold handleNextStep. by case_match.
  - (* AddSkill *)
    destruct (ExperienceStep.handleAddSkill (experience w) (store w))
      as [l st] eqn:Hadd.
    pose proof (handleAddSkill_cases (experience w) (store w)) as Hcases.
    cbv zeta in Hcases. rewrite Hadd in Hcases. cbn [fst snd] in Hcases.
    destruct Hcases as [(_ & H)|[(_ & _ & H)|[(_ & _ & _ & H)|
      [(_ & _ & _ & _ & H)|(Hne & Hlen & Hnew & Hroom & Hsk & _)]]]];
      try (injection H as -> ->; left; reflexivity).
    right. left. exists (trim (ExperienceStep.skillInput (experience w))).
    unfold skillsOf. cbn [store]. fold (draftSkills st).
    fold (draftSkills (store w)). repeat split; assumption.
  - (* RemoveSkill *) right. right. exists skill. reflexivity.
  - (* ExperienceNext *)
    destruct (ExperienceStep.handleNext _ _) as [l [|]]; left;
      [|reflexivity].
    unfold handleNextStep. by case_match.
  - (* ExperienceBack *) left. unfold handlePreviousStep. by case_match.
  - (* FileSelect *)
    left. unfold ResumeStep.handleFileSelect.
    destruct file as [f|]; [|reflexivity].
    by destruct (negb (valid (validateResume (Some f)))).
  - (* ResumeBack *) left. unfold handlePreviousStep. by case_match.
  - (* Submit *)
    left. destruct (ApplicationForm.resumeFile _); [|reflexivity].
    destruct (ResumeStep.isSubmitting _); [reflexivity|].
    unfold ResumeStep.handleSubmit.
    destruct (valid _); cbn [negb]; [|reflexivity].
    by destruct (ResumeStep.findSelectedJob _).
Qed.

Lemma step_skills_bound (e : Event) w :
  (length (skillsOf w) <= 20)%nat -> (length (skillsOf (step e w)) <= 20)%nat.
Proof.
  intros Hw.
  destruct (step_skills e w) as [->|[(t & -> & Hroom & _)|(t & ->)]].
  - exact Hw.
  - rewrite length_app. cbn. lia.
  - pose proof (length_filter (fun s => s <> t) (skillsOf w)). lia.
Qed.

Lemma run_skills_bound (events : list Event) w :
  (length (skillsOf w) <= 20)%nat ->
  (length (skillsOf (run events w)) <= 20)%nat.
Proof.
  revert w. induction events as [|e events IH]; intros w Hw; [exact Hw|].
  cbn. apply IH. by apply step_skills_bound.
Qed.


(** C7: in every state the wizard can reach the skills are at most 20.
    Adding a skill leaves the store as it is, and shows a reason, when the
    trimmed input is empty, longer than 50 characters, already in the
    list, or the list has 20 entries.  When an add went through, adding a text with the
    same trimmed form again is refused as already added; and a new,
    well-formed skill offered to a list of 20 is refused with the maximum
    reason. *)
Theorem handleAddSkill_guards (events : list Event)
    (l l2 : ExperienceStep.Local) :
  let state := store (run events initial) in
  let skills := draftSkills state in
  let input := trim (ExperienceStep.skillInput l) in
  let state' := (ExperienceStep.handleAddSkill l state).2 in
  (length skills <= 20)%nat
  /\ (input = [] \/ (50 < length input)%nat \/ input ∈ skills
      \/ length skills = 20%nat ->
      state' = state
      /\ flagged
           (ExperienceStep.errors (ExperienceStep.handleAddSkill l state).1)
           "skillInput" = true)
  /\ (draftSkills state' = skills ++ [input] ->
      trim (ExperienceStep.skillInput l2) = input ->
      ExperienceStep.handleAddSkill l2 state'
      = (ExperienceStep.setErrors
           (<["skillInput" := "This skill is already added"%string]>
              (ExperienceStep.errors l2)) l2,
         state'))
  /\ (length skills = 20%nat -> input <> [] -> (length input <= 50)%nat ->
      input ∉ skills ->
      ExperienceStep.handleAddSkill l state
      = (ExperienceStep.setErrors
           (<["skillInput" := "Maximum 20 skills allowed"%string]>
              (ExperienceStep.errors l)) l,
         state)).
Proof.
  intros state skills input state'.
  assert (Hbound : (length skills <= 20)%nat).
  { apply (run_skills_bound events initial). cbn. lia. }
  pose proof (handleAddSkill_cases l state) as Hcases. cbv zeta in Hcases.
  fold input skills in Hcases.
  split; [exact Hbound|]. split; [|split].
  - intros Hcond. subst state'.
    destruct Hcases as [(_ & ->)|[(_ & _ & ->)|[(_ & _ & _ & ->)|
      [(_ & _ & _ & _ & ->)|(Hne & Hlen & Hnew & Hroom & _)]]]];
      try (split; [reflexivity|];
           unfold flagged; cbn [fst ExperienceStep.errors
                                  ExperienceStep.setErrors];
           by rewrite lookup_insert_eq).
    destruct Hcond as [?|[?|[?|?]]]; [congruence|lia|done|lia].
  - intros Hadded Hsame.
    assert (Hin : input ∈ draftSkills state').
    { rewrite Hadded. apply elem_of_app. right. apply list_elem_of_here. }
    assert (Hok : input <> [] /\ (length input <= 50)%nat).
    { subst state'.
      destruct Hcases as [(_ & H)|[(_ & _ & H)|[(_ & _ & _ & H)|
        [(_ & _ & _ & _ & H)|(Hne & Hlen & _)]]]]; [| | | |done];
        rewrite H in Hadded; cbn [snd] in Hadded; fold skills in Hadded;
        apply (f_equal length) in Hadded; rewrite length_app in Hadded;
        cbn in Hadded; lia. }
    destruct Hok as [Hne Hlen].
    pose proof (handleAddSkill_cases l2 state') as Hcases2.
    cbv zeta in Hcases2. rewrite Hsame in Hcases2.
    destruct Hcases2 as [(? & _)|[(_ & ? & _)|[(_ & _ & _ & H)|
      [(_ & _ & ? & _)|(_ & _ & ? & _)]]]];
      [congruence|lia|exact H|done|done].
  - intros Hfull Hne Hlen Hnew.
    destruct Hcases as [(? & _)|[(_ & ? & _)|[(_ & _ & ? & _)|
      [(_ & _ & _ & _ & H)|(_ & _ & _ & ? & _)]]]];
      [congruence|lia|done|exact H|lia].
Qed.

Lemma handleAddSkill_guards_witness :
  draftSkills
    (ExperienceStep.handleAddSkill (Samples.typed " React ")
       (store (run Samples.atExperienceStep initial))).2
  = [js "React"]
  /\ ExperienceStep.errors
       (ExperienceStep.handleAddSkill (Samples.typed "React")
          (ExperienceStep.handleAddSkill (Samples.typed " React ")
             (store (run Samples.atExperienceStep initial))).2).1
     !! "skillInput"%string
     = Some "This skill is already added"%string.
Proof.
  split; [reflexivity|].
  rewrite (proj1 (proj2 (proj2
    (handleAddSkill_guards Samples.atExperienceStep
       (Samples.typed " React ") (Samples.typed "React"))))
    eq_refl eq_refl).
  apply lookup_insert_eq.
Defined.

(** The twenty-first skill: after twenty skills went in, one more is
    refused with the maximum reason and the list stays at twenty. *)
Example twenty_first_skill_refused :
  let w := run (Samples.atExperienceStep ++ Samples.twentySkills) initial in
  let after := ExperienceStep.handleAddSkill (Samples.typed "Rust") (store w) in
  length (skillsOf w) = 20%nat
  /\ ExperienceStep.errors after.1 !! "skillInput"%string
     = Some "Maximum 20 skills allowed"%string
  /\ skillsOf w = draftSkills after.2.
Proof. vm_compute. repeat split. Qed.

End Skills.

(** ** The order of the stages *)
Section StageOrder.

Import Recruiter Dashboard.

Implicit Types (state : HireLinkStore) (c r : Candidate.t)
  (cs : list Candidate.t) (id : jsstring) (updates : Candidate.partial)
  (s : Dashboard.State) (e : Dashboard.Event).

Lemma forwardOnly_refl cs : forwardOnly cs cs.
Proof. intros c Hc. exists c. by repeat split. Qed.

Lemma forwardOnly_trans cs1 cs2 cs3 :
  forwardOnly cs1 cs2 -> forwardOnly cs2 cs3 -> forwardOnly cs1 cs3.
Proof.
  intros H12 H23 c Hc.
  destruct (H12 c Hc) as (c2 & Hc2 & Hid2 & Hrank2).
  destruct (H23 c2 Hc2) as (c3 & Hc3 & Hid3 & Hrank3).
  exists c3. repeat split; [done|congruence|lia].
Qed.

Lemma forwardOnly_cons c cs : forwardOnly cs (c :: cs).
Proof.
  intros r Hr. exists r. repeat split; [by apply list_elem_of_further|done].
Qed.

(** An update that does not name the id keeps the ids, in order. *)
Lemma updateCandidate_ids state id updates :
  Candidate.p_id updates = None ->
  ids (candidates (updateCandidate id updates state)) = ids (candidates state).
Proof.
  intros Hid. unfold updateCandidate, ids. cbn [candidates withCandidates].
  rewrite List.map_map. apply List.map_ext. intros c.
  destruct (eqb (Candidate.id c) id); [|reflexivity].
  cbn. by rewrite Hid.
Qed.

Lemma updateCandidate_elem state id updates c :
  c ∈ candidates state ->
  (if decide (Candidate.id c = id) then Candidate.spread c updates else c)
  ∈ candidates (updateCandidate id updates state).
Proof.
  intros Hc. apply list_elem_of_lookup in Hc as [i Hi].
  apply list_elem_of_lookup. exists i. by apply updateCandidate_lookup.
Qed.

(** An update moves no stage backward when the stage it names, if any, is
    not behind the stage of a record it applies to. *)
Lemma updateCandidate_forward state id updates :
  Candidate.p_id updates = None ->
  (forall r,
     r ∈ candidates state -> Candidate.id r = id ->
     (stageRank (Candidate.stage r)
      <= stageRank (default (Candidate.stage r) (Candidate.p_stage updates)))%nat) ->
  forwardOnly (candidates state) (candidates (updateCandidate id updates state)).
Proof.
  intros Hid Hstage c Hc.
  pose proof (updateCandidate_elem state id updates c Hc) as Hc'.
  destruct (decide (Candidate.id c = id)) as [He|Hne].
  - exists (Candidate.spread c updates). split; [exact Hc'|].
    cbn. rewrite Hid. split; [reflexivity|]. by apply Hstage.
  - exists c. by repeat split.
Qed.

(** With pairwise distinct ids, an id names one record. *)
Lemma ids_unique cs r r' :
  NoDup (ids cs) -> r ∈ cs -> r' ∈ cs ->
  Candidate.id r = Candidate.id r' -> r = r'.
Proof.
  unfold ids. induction cs as [|c cs IH]; intros Hnd Hr Hr' Hid.
  - by apply elem_of_nil in Hr.
  - cbn in Hnd. apply NoDup_cons in Hnd as [Hc Hnd].
    apply elem_of_cons in Hr as [->|Hr];
      apply elem_of_cons in Hr' as [->|Hr']; [done| | |by apply IH].
    + exfalso. apply Hc. rewrite Hid.
      change (List.map ?f ?l) with (f <$> l). by apply list_elem_of_fmap_2.
    + exfalso. apply Hc. rewrite <- Hid.
      change (List.map ?f ?l) with (f <$> l). by apply list_elem_of_fmap_2.
Qed.


(** The store after an update requested for the selected record, when
    the stage named is not behind the stage the store holds for it. *)
Lemma selected_update state c0 r updates :
  NoDup (ids (candidates state)) ->
  r ∈ candidates state ->
  Candidate.id r = Candidate.id c0 ->
  Candidate.p_id updates = None ->
  (stageRank (Candidate.stage r)
   <= stageRank (default (Candidate.stage r) (Candidate.p_stage updates)))%nat ->
  NoDup (ids (candidates (updateCandidate (Candidate.id c0) updates state)))
  /\ Candidate.spread r updates
     ∈ candidates (updateCandidate (Candidate.id c0) updates state)
  /\ Candidate.id (Candidate.spread r updates) = Candidate.id c0
  /\ forwardOnly (candidates state)
       (candidates (updateCandidate (Candidate.id c0) updates state)).
Proof.
  intros Hnd Hr Hid Hnoid Hrank. split; [|split; [|split]].
  - by rewrite updateCandidate_ids.
  - pose proof (updateCandidate_elem state (Candidate.id c0) updates r Hr) as H.
    by rewrite decide_True in H.
  - cbn. by rewrite Hnoid.
  - apply updateCandidate_forward; [done|].
    intros r2 Hr2 Hid2.
    assert (r2 = r) as -> by (apply (ids_unique (candidates state)); congruence).
    exact Hrank.
Qed.

(** One event of the dashboard keeps the page coherent and moves no stage
    backward, provided a record that arrives brings a new id. *)
Lemma step_coherent e s :
  coherent s ->
  match e with
  | Arrive c => Candidate.id c ∉ ids (candidates (store s))
  | _ => True
  end ->
  coherent (step e s)
  /\ forwardOnly (candidates (store s)) (candidates (store (step e s))).
Proof.
  destruct s as [st sel m sch off]. intros [Hnd Hsel] Hfresh.
  cbn [store selectedCandidate modal] in Hnd, Hsel, Hfresh.
  assert (Hsame : coherent (mkState st sel m sch off)
                  /\ forwardOnly (candidates st) (candidates st)).
  { split; [by split|apply forwardOnly_refl]. }
  destruct e; cbn [step selectedCandidate store modal scheduler offer].
  - (* Arrive *)
    split; [|apply forwardOnly_cons]. split.
    + cbn. apply NoDup_cons. by split.
    + cbn [selectedCandidate store modal]. destruct sel as [c0|]; [|done].
      destruct Hsel as ((r & Hr & Hrest) & Hflags).
      split; [|exact Hflags]. exists r. split; [|exact Hrest].
      cbn. by apply list_elem_of_further.
  - (* SelectCandidate *)
    destruct sel as [c0|]; [exact Hsame|].
    destruct (candidates st !! i) as [c|] eqn:Hi; [|exact Hsame].
    split; [|apply forwardOnly_refl]. split; [exact Hnd|].
    cbn. split; [|by repeat split].
    exists c. split; [by apply (list_elem_of_lookup_2 _ i)|]. by split; [|left].
  - (* CloseModal *)
    destruct sel as [c0|]; [|exact Hsame].
    split; [by split|apply forwardOnly_refl].
  - (* SetScore *)
    destruct sel as [c0|]; [|exact Hsame].
    split; [by split|apply forwardOnly_refl].
  - (* SetNotes *)
    destruct sel as [c0|]; [|exact Hsame].
    split; [by split|apply forwardOnly_refl].
  - (* Save *)
    destruct sel as [c0|]; [|exact Hsame].
    case_match; [exact Hsame|].
    destruct Hsel as ((r & Hr & Hid & Hstage) & Hnew & Hflags).
    cbn [CandidateModal.handleSave].
    assert (Hnone : Candidate.p_stage (CandidateModal.saveUpdates m) = None)
      by exact Hnew.
    destruct (selected_update st c0 r (CandidateModal.saveUpdates m))
      as (Hnd' & Hr' & Hid' & Hfwd); [done..| |].
    { rewrite Hnone. cbn. lia. }
    split; [|exact Hfwd]. split; [exact Hnd'|].
    cbn [selectedCandidate store modal]. split; [|by split].
    eexists. split; [exact Hr'|]. split; [exact Hid'|].
    cbn. rewrite Hnew. exact Hstage.
  - (* MoveToReviewed *)
    destruct sel as [c0|]; [|exact Hsame].
    destruct (Candidate.stage c0) eqn:Hc0; try exact Hsame.
    destruct Hsel as ((r & Hr & Hid & Hstage) & Hflags).
    unfold CandidateModal.handleMoveToStage.
    destruct (selected_update st c0 r (CandidateModal.stageOnly Reviewed))
      as (Hnd' & Hr' & Hid' & Hfwd); [done..| |].
    { cbn. destruct Hstage as [->|[_ ->]]; cbn; lia. }
    split; [|exact Hfwd]. split; [exact Hnd'|].
    cbn [selectedCandidate store modal]. rewrite Hc0.
    split; [|exact Hflags].
    eexists. split; [exact Hr'|]. split; [exact Hid'|].
    right. by split.
  - (* OpenScheduler *)
    destruct sel as [c0|]; [|exact Hsame].
    destruct (Candidate.stage c0) eqn:Hc0; try exact Hsame.
    split; [|apply forwardOnly_refl]. split; [exact Hnd|].
    cbn. destruct Hsel as (Hrec & Hnew & _ & Hoffer).
    rewrite Hc0 in *. by repeat split.
  - (* SchedulerInput *)
    destruct sel as [c0|]; [|exact Hsame].
    split; [by split|apply forwardOnly_refl].
  - (* Schedule *)
    destruct sel as [c0|]; [|exact Hsame].
    destruct (CandidateModal.isInterviewSchedulerOpen m) eqn:Hopen;
      [|exact Hsame].
    unfold InterviewScheduler.handleScheduleInterview.
    destruct (InterviewScheduler.isValid sch); [|exact Hsame].
    destruct (InterviewScheduler.isScheduling sch); [exact Hsame|].
    cbn [andb negb].
    destruct Hsel as ((r & Hr & Hid & Hstage) & _ & Hsched & _).
    specialize (Hsched eq_refl).
    destruct (selected_update st c0 r (InterviewScheduler.scheduleUpdates sch))
      as (Hnd' & _ & _ & Hfwd); [done..| |].
    { cbn. destruct Hstage as [->|[? _]]; [|congruence].
      rewrite Hsched. cbn. lia. }
    split; [by split|exact Hfwd].
  - (* OpenOffer *)
    destruct sel as [c0|]; [|exact Hsame].
    destruct (Candidate.stage c0) eqn:Hc0; try exact Hsame.
    split; [|apply forwardOnly_refl]. split; [exact Hnd|].
    cbn. destruct Hsel as (Hrec & Hnew & Hsched & _).
    rewrite Hc0 in *. by repeat split.
  - (* OfferInput *)
    destruct sel as [c0|]; [|exact Hsame].
    split; [by split|apply forwardOnly_refl].
  - (* SendOffer *)
    destruct sel as [c0|]; [|exact Hsame].
    destruct (CandidateModal.isOfferLetterOpen m) eqn:Hopen; [|exact Hsame].
    destruct (truthy (OfferLetter.salary off)); [|exact Hsame].
    destruct (truthy (OfferLetter.startDate off)); [|exact Hsame].
    destruct (OfferLetter.isSending off); [exact Hsame|].
    cbn [andb negb OfferLetter.handleSendOffer].
    destruct Hsel as ((r & Hr & Hid & Hstage) & _ & _ & Hoffer).
    specialize (Hoffer eq_refl).
    destruct (selected_update st c0 r (OfferLetter.offerUpdates off))
      as (Hnd' & _ & _ & Hfwd); [done..| |].
    { cbn. destruct Hstage as [->|[? _]]; [|congruence].
      rewrite Hoffer. cbn. lia. }
    split; [by split|exact Hfwd].
Qed.


(** C3, as the code has it: the store takes any stage an update names,
    so the order of the stages is kept by the recruiter's components, not
    by the store.  Along any run of the dashboard (records arriving, cards
    selected, Move to Reviewed, Schedule Interview, Send Offer, Save) that
    starts from a coherent page, and in which every arriving record brings
    an id the store does not hold yet, no record's stage moves backward:
    every record keeps a record of its id, at its stage or at a later one
    on the path Applied, Reviewed, Interview Scheduled, Offer Sent. *)
Theorem dashboard_never_moves_a_stage_backward (events : list Event) s :
  coherent s ->
  freshArrivals events s ->
  coherent (run events s)
  /\ forwardOnly (candidates (store s)) (candidates (store (run events s))).
Proof.
  revert s. induction events as [|e events IH]; intros s Hco Hfresh.
  - split; [exact Hco|apply forwardOnly_refl].
  - destruct Hfresh as [Hnew Hrest].
    destruct (step_coherent e s Hco Hnew) as [Hco' Hfwd].
    destruct (IH (step e s) Hco' Hrest) as [Hco'' Hfwd'].
    split; [exact Hco''|].
    exact (forwardOnly_trans _ _ _ Hfwd Hfwd').
Qed.

Lemma dashboard_never_moves_a_stage_backward_witness :
  coherent (closed (Samples.storeWith Samples.ada))
  /\ freshArrivals (drop 1 Samples.review)
       (closed (Samples.storeWith Samples.ada))
  /\ forwardOnly (candidates (store (closed (Samples.storeWith Samples.ada))))
       (candidates
          (store
             (run (drop 1 Samples.review)
                (closed (Samples.storeWith Samples.ada))))).
Proof.
  assert (Hco : coherent (closed (Samples.storeWith Samples.ada))).
  { split; [|exact I]. vm_compute. apply NoDup_singleton. }
  assert (Hfresh : freshArrivals (drop 1 Samples.review)
                     (closed (Samples.storeWith Samples.ada))).
  { vm_compute. repeat split.
    intros Hin. inversion Hin as [|? ? ? Hin']. inversion Hin'. }
  split; [exact Hco|]. split; [exact Hfresh|].
  exact (proj2
    (dashboard_never_moves_a_stage_backward (drop 1 Samples.review)
       (closed (Samples.storeWith Samples.ada)) Hco Hfresh)).
Defined.

(** The page is coherent before any event. *)
Lemma initial_coherent : coherent initial.
Proof. split; [apply NoDup_nil_2|exact I]. Qed.

(** C3 as stated fails: an update may name any stage, and the store
    writes it; here a record at Offer Sent is put back to Applied. *)
Lemma updateCandidate_stage_counterexample :
  ~ neverBackward
      (updateCandidate (Candidate.id Samples.alan)
         (CandidateModal.stageOnly Applied)).
Proof.
  intros Hnever.
  specialize (Hnever (Samples.storeWith Samples.alan) 0%nat Samples.alan
                (Samples.record "p0o9i8u7y" "Alan Turing" Applied)
                eq_refl eq_refl).
  cbn in Hnever. lia.
Qed.

(** [handleMoveToStage] hands the stage it is given to the store, whatever
    it is. *)
Example handleMoveToStage_any_stage :
  List.map Candidate.stage
    (candidates
       (CandidateModal.handleMoveToStage Applied Samples.alan
          (Samples.storeWith Samples.alan)))
  = [Applied].
Proof. reflexivity. Qed.

(** Why the ids must be distinct: an update reaches every record of its
    id.  When a second submission repeats the id of a record that is
    already at Offer Sent, moving the new record to Reviewed moves the old
    one back to Reviewed with it. *)
Example repeated_id_moves_a_stage_back :
  List.map Candidate.stage
    (candidates (store (run (take 12 Samples.collision) initial)))
  = [OfferSent]
  /\ List.map Candidate.stage
       (candidates (store (run Samples.collision initial)))
     = [Reviewed; Reviewed].
Proof. split; vm_compute; reflexivity. Qed.

End StageOrder.

(** ** Application identifiers *)
Section ApplicationId.

Implicit Types (n d c : N) (s : jsstring).

Lemma between_true (lo hi c : N) : lo <= c <= hi -> between lo hi c = true.
Proof.
  intros [Hlo Hhi]. unfold between.
  apply andb_true_intro. split; by apply N.leb_le.
Qed.

Lemma between_false (lo hi c : N) : c < lo \/ hi < c -> between lo hi c = false.
Proof.
  intros Hout. unfold between. apply andb_false_iff.
  destruct Hout; [left|right]; by apply N.leb_gt.
Qed.

(** The upper-case form of a radix-36 digit is read back as its value. *)
Lemma digitValue36_upper d :
  d < 36 -> digitValue36 (upperUnit (digit36 d)) = Some d.
Proof.
  intros Hd. unfold digit36. destruct (N.ltb_spec d 10) as [Hlow|Hhigh].
  - unfold upperUnit. rewrite between_false by lia.
    unfold digitValue36. rewrite between_true by lia. f_equal. lia.
  - unfold upperUnit. rewrite between_true by lia.
    unfold digitValue36. rewrite between_false by lia.
    rewrite between_true by lia. f_equal. lia.
Qed.

Lemma parseUpper36_snoc s c :
  parseUpper36 (s ++ [c])
  = match parseUpper36 s, digitValue36 c with
    | Some a, Some d => Some (36 * a + d)
    | _, _ => None
    end.
Proof. unfold parseUpper36. by rewrite foldl_app. Qed.

(** With fuel for its digits, a number's numeral reads back as the
    number. *)
Lemma digits36_reads_back (fuel : nat) n :
  n < 36 ^ N.of_nat fuel ->
  parseUpper36 (toUpperCase (digits36 fuel n)) = Some n.
Proof.
  revert n. induction fuel as [|fuel IH]; intros n Hn.
  - cbn in *. f_equal. lia.
  - cbn [digits36]. destruct (N.ltb_spec n 36) as [Hsmall|Hbig].
    + cbn. rewrite digitValue36_upper by done. reflexivity.
    + unfold toUpperCase. rewrite List.map_app. cbn [List.map].
      rewrite parseUpper36_snoc. fold (toUpperCase (digits36 fuel (n / 36))).
      rewrite IH.
      * rewrite digitValue36_upper by (apply N.mod_lt; lia).
        f_equal. pose proof (N.div_mod n 36). lia.
      * rewrite Nat2N.inj_succ, N.pow_succ_r' in Hn.
        apply N.Div0.div_lt_upper_bound. lia.
Qed.

Lemma size_nat_bound (p : positive) : N.pos p < 2 ^ N.of_nat (Pos.size_nat p).
Proof.
  induction p as [p IH|p IH|]; cbn [Pos.size_nat];
    rewrite ?Nat2N.inj_succ, ?N.pow_succ_r'; cbn; lia.
Qed.

(** The time segment: the upper-case numeral [toString(36)] prints for
    the clock reading denotes that reading. *)
Lemma toString36_reads_back n :
  parseUpper36 (toUpperCase (toString36 n)) = Some n.
Proof.
  unfold toString36. apply digits36_reads_back.
  rewrite Nat2N.inj_succ, N.pow_succ_r'.
  assert (Hsize : n < 2 ^ N.of_nat (N.size_nat n)).
  { destruct n as [|p]; [cbn; lia|apply size_nat_bound]. }
  assert (Hpow : 2 ^ N.of_nat (N.size_nat n) <= 36 ^ N.of_nat (N.size_nat n))
    by (apply N.pow_le_mono_l; lia).
  lia.
Qed.

(** The random segment has as many characters as the rendering has after
    its first two, and eight at most. *)
Lemma random_segment_length (rendering : jsstring) :
  length (toUpperCase (substring 2 10 rendering))
  = Nat.min 8 (length rendering - 2).
Proof.
  unfold toUpperCase, substring.
  rewrite length_map, length_firstn, length_skipn. lia.
Qed.

(** The shape of every identifier: the tag, the random segment, the time
    segment; the random segment is eight characters long exactly when the
    rendering of the random number has eight digits or more after its
    point. *)
Lemma generateApplicationId_shape (now : N) (rendering : jsstring) :
  let random := toUpperCase (substring 2 10 rendering) in
  let timestamp := toUpperCase (toString36 now) in
  generateApplicationId now rendering
  = js "HLA-" ++ random ++ js "-" ++ timestamp
  /\ parseUpper36 timestamp = Some now
  /\ (length random <= 8)%nat
  /\ (length random = 8%nat <-> (10 <= length rendering)%nat).
Proof.
  cbv zeta. rewrite random_segment_length.
  split; [reflexivity|]. split; [apply toString36_reads_back|]. lia.
Qed.

(** One half is the number whose rendering in radix 36 is [0.i]. *)
Example rendering_of_one_half :
  exists q : Q, renderedValue (js "0.i") = Some q /\ (q == 1 # 2)%Q.
Proof. eexists. split; [reflexivity|reflexivity]. Qed.

(** C6 at the input it fails on: when the random number is one half, the
    identifier is [HLA-I-LOYW3V28], whose random segment has one
    character, not eight. *)
Theorem generateApplicationId_random_segment_can_be_short :
  generateApplicationId 1700000000000 (js "0.i") = js "HLA-I-LOYW3V28"
  /\ toUpperCase (substring 2 10 (js "0.i")) = js "I"
  /\ length (toUpperCase (substring 2 10 (js "0.i"))) <> 8%nat.
Proof. split; [|split]; [vm_compute; reflexivity ..|]. vm_compute. lia. Qed.

(** With a rendering of eight digits or more the identifier has the
    documented shape. *)
Example generateApplicationId_usual :
  generateApplicationId 1700000000000 (js "0.4fzyo82mvyr")
  = js "HLA-4FZYO82M-LOYW3V28".
Proof. vm_compute. reflexivity. Qed.

End ApplicationId.

(** ** Submission *)
Section Submission.

Import Wizard WizardMachine.

Implicit Types (state : HireLinkStore) (l : ResumeStep.Local)
  (a : ResumeStep.Ambient).

(** What a submission does when the resume passes and the selected job
    exists: it puts a new record in front of the candidates, at stage
    Applied and holding the draft, and asks for the thank-you page.  It
    calls no other action of the store: the step and the draft of the
    wizard are after the submission what they were before it. *)
Lemma handleSubmit_accepted a l state (selectedJob : JobPosting.t) :
  valid
    (validateResume (ApplicationForm.resumeFile (applicationForm state)))
  = true ->
  ResumeStep.findSelectedJob state = Some selectedJob ->
  let result := ResumeStep.handleSubmit a l state in
  let c := ResumeStep.newCandidate a selectedJob state in
  candidates result.1.2 = c :: candidates state
  /\ Candidate.stage c = Applied
  /\ Candidate.applicationData c = applicationForm state
  /\ Candidate.applicationId c
     = generateApplicationId (ResumeStep.now a) (ResumeStep.rendering a)
  /\ result.2 = Some (js "/thank-you/" ++ Candidate.applicationId c)
  /\ currentStep result.1.2 = currentStep state
  /\ applicationForm result.1.2 = applicationForm state.
Proof.
  intros Hvalid Hjob. cbv zeta. unfold ResumeStep.handleSubmit.
  rewrite Hvalid, Hjob. cbn. by repeat split.
Qed.

(** C2 at an input it fails on.  The draft is valid step by step and job
    1 exists; the session fills the wizard with it and submits.  The
    store then holds one record, at stage Applied, with the draft in it;
    but the wizard is still on its third step and still holds the draft,
    where a reset would have put it on step 0 with the empty draft. *)
Theorem submit_leaves_the_wizard_unreset :
  let form := Samples.draft in
  let w := run (Samples.session Samples.ambient) initial in
  stepValid
    (validatePersonalInfoStep
       (PersonalInfo.fullName (ApplicationForm.personalInfo form))
       (PersonalInfo.email (ApplicationForm.personalInfo form))
       (PersonalInfo.phone (ApplicationForm.personalInfo form))) = true
  /\ stepValid
       (validateExperienceStep
          (Experience.yearsOfExperience (ApplicationForm.experience form))
          (Experience.skills (ApplicationForm.experience form))
          (Experience.portfolioLink (ApplicationForm.experience form))) = true
  /\ stepValid (validateResumeStep (ApplicationForm.resumeFile form)) = true
  /\ selectedJobId (store w) = Some (js "1")
  /\ List.map Candidate.stage (candidates (store w)) = [Applied]
  /\ List.map Candidate.applicationData (candidates (store w)) = [form]
  /\ List.map Candidate.applicationId (candidates (store w))
     = [js "HLA-4FZYO82M-LOYW3V28"]
  /\ currentStep (store w) = 2%nat
  /\ applicationForm (store w) = form
  /\ currentStep (resetApplicationForm (store w)) = 0%nat
  /\ applicationForm (resetApplicationForm (store w)) = initialApplicationForm
  /\ form <> initialApplicationForm.
Proof.
  cbv zeta. repeat split; try (vm_compute; reflexivity).
  intros Heq. apply (f_equal ApplicationForm.resumeFileName) in Heq.
  vm_compute in Heq. discriminate Heq.
Qed.

(** The next visit: the wizard opens on the resume step with the draft
    of the submission before, and a second submission enters the same
    draft again. *)
Example second_submission_reuses_the_draft :
  let w :=
    run (Samples.session Samples.ambient
         ++ [SelectJob (js "2"); Submit Samples.ambientHalf]) initial in
  List.map Candidate.jobId (candidates (store w)) = [js "2"; js "1"]
  /\ List.map Candidate.applicationData (candidates (store w))
     = [Samples.draft; Samples.draft]
  /\ List.map Candidate.applicationId (candidates (store w))
     = [js "HLA-I-LOYW3V28"; js "HLA-4FZYO82M-LOYW3V28"].
Proof. cbv zeta. repeat split; vm_compute; reflexivity. Qed.

End Submission.

(** ** The matcher against the language of a pattern *)
Section Matcher.

Implicit Types (r a b : regex) (s t : jsstring) (c : N).

Lemma lang_Void s : lang Void s <-> False.
Proof. split; [|done]. inversion 1. Qed.

Lemma lang_Eps s : lang Eps s <-> s = [].
Proof. split; [by inversion 1|intros ->; constructor]. Qed.

Lemma lang_Cls (p : N -> bool) s :
  lang (Cls p) s <-> exists c, s = [c] /\ p c = true.
Proof.
  split.
  - inversion 1; subst. by eexists.
  - intros (c & -> & Hc). by constructor.
Qed.

Lemma lang_Cat a b s :
  lang (Cat a b) s <-> exists s1 s2, s = s1 ++ s2 /\ lang a s1 /\ lang b s2.
Proof.
  split.
  - inversion 1; subst. by do 2 eexists.
  - intros (s1 & s2 & -> & H1 & H2). by constructor.
Qed.

Lemma lang_Alt a b s : lang (Alt a b) s <-> lang a s \/ lang b s.
Proof.
  split.
  - inversion 1; subst; [by left|by right].
  - intros [H|H]; [by apply lang_alt_l|by apply lang_alt_r].
Qed.

Lemma lang_Star_cons a c s :
  lang (Star a) (c :: s)
  <-> exists s1 s2, s = s1 ++ s2 /\ lang a (c :: s1) /\ lang (Star a) s2.
Proof.
  split.
  - inversion 1; subst. by do 2 eexists.
  - intros (s1 & s2 & -> & H1 & H2). by constructor.
Qed.

Lemma lang_mkCat a b s : lang (mkCat a b) s <-> lang (Cat a b) s.
Proof.
  destruct a; cbn [mkCat]; try reflexivity.
  - rewrite lang_Cat. split; [by intros ?%lang_Void|].
    by intros (? & ? & _ & ?%lang_Void & _).
  - rewrite lang_Cat. split.
    + intros H. exists [], s. repeat split; [constructor|done].
    + intros (s1 & s2 & Heq & H1 & H2). apply lang_Eps in H1. by subst.
Qed.

Lemma lang_mkAlt a b s : lang (mkAlt a b) s <-> lang (Alt a b) s.
Proof.
  rewrite lang_Alt.
  destruct a, b; cbn [mkAlt]; rewrite ?lang_Alt, ?lang_Void; tauto.
Qed.

Lemma nullable_lang r : nullable r = true <-> lang r [].
Proof.
  induction r as [| |p|a IHa b IHb|a IHa b IHb|a IHa]; cbn [nullable].
  - rewrite lang_Void. split; [discriminate|done].
  - rewrite lang_Eps. done.
  - rewrite lang_Cls. split; [discriminate|]. by intros (? & ? & _).
  - rewrite andb_true_iff, IHa, IHb, lang_Cat. split.
    + intros [Ha Hb]. by exists [], [].
    + intros (s1 & s2 & Heq & Ha & Hb).
      symmetry in Heq. apply app_eq_nil in Heq as [-> ->]. done.
  - rewrite orb_true_iff, IHa, IHb, lang_Alt. done.
  - split; [intros _; constructor|done].
Qed.

Lemma deriv_lang c r s : lang (deriv c r) s <-> lang r (c :: s).
Proof.
  revert s.
  induction r as [| |p|a IHa b IHb|a IHa b IHb|a IHa]; intros s;
    cbn [deriv].
  - by rewrite !lang_Void.
  - rewrite lang_Void, lang_Eps. done.
  - rewrite lang_Cls. destruct (p c) eqn:Hc.
    + rewrite lang_Eps. split.
      * intros ->. by exists c.
      * by intros (c' & [= -> ->] & _).
    + rewrite lang_Void. split; [done|].
      intros (c' & [= -> ->] & Hc'). congruence.
  - assert (Hleft : lang (mkCat (deriv c a) b) s
                    <-> exists s1 s2, s = s1 ++ s2
                          /\ lang a (c :: s1) /\ lang b s2).
    { rewrite lang_mkCat, lang_Cat. by setoid_rewrite IHa. }
    rewrite (lang_Cat a b (c :: s)).
    destruct (nullable a) eqn:Hnull.
    + apply nullable_lang in Hnull.
      rewrite lang_mkAlt, lang_Alt, Hleft, IHb. split.
      * intros [(s1 & s2 & -> & H1 & H2)|Hb].
        -- by exists (c :: s1), s2.
        -- by exists [], (c :: s).
      * intros (s1 & s2 & Heq & H1 & H2). destruct s1 as [|c' s1].
        -- right. cbn in Heq. by subst s2.
        -- left. injection Heq as <- ->. by exists s1, s2.
    + rewrite Hleft. split.
      * intros (s1 & s2 & -> & H1 & H2). by exists (c :: s1), s2.
      * intros (s1 & s2 & Heq & H1 & H2). destruct s1 as [|c' s1].
        -- apply nullable_lang in H1. congruence.
        -- injection Heq as <- ->. by exists s1, s2.
  - rewrite lang_mkAlt, !lang_Alt, IHa, IHb. done.
  - rewrite lang_mkCat, lang_Cat, lang_Star_cons. by setoid_rewrite IHa.
Qed.

(** The matcher decides the language: [pattern.test(s)] holds exactly
    when the whole of [s] is in the pattern's language. *)
Lemma test_lang r s : test r s = true <-> lang r s.
Proof.
  unfold test. revert r. induction s as [|c s IH]; intros r; cbn [matches].
  - apply nullable_lang.
  - rewrite IH. apply deriv_lang.
Qed.

(** The language of a class, once or more: the strings of one character
    or more, all of the class. *)
Lemma lang_star_cls (p : N -> bool) s :
  lang (Star (Cls p)) s <-> Forall (fun c => p c = true) s.
Proof.
  rewrite <- test_lang. unfold test. rewrite matches_star_cls.
  rewrite forallb_forall, Forall_forall.
  by setoid_rewrite list_elem_of_In.
Qed.

Lemma lang_plus_cls (p : N -> bool) s :
  lang (Plus (Cls p)) s <-> s <> [] /\ Forall (fun c => p c = true) s.
Proof.
  rewrite <- test_lang, test_plus_cls, andb_true_iff, truthy_true.
  rewrite forallb_forall, Forall_forall.
  by setoid_rewrite list_elem_of_In.
Qed.

(** The e-mail check: not blank, and of the shape local [@] domain [.]
    rest, each part non-empty and free of white space and of [@]. *)
Lemma validateEmail_valid_iff (email : jsstring) :
  valid (validateEmail email) = true
  <-> exists local domain rest,
        email = local ++ [64] ++ domain ++ [46] ++ rest
        /\ local <> [] /\ domain <> [] /\ rest <> []
        /\ Forall (fun c => email_class c = true) (local ++ domain ++ rest).
Proof.
  unfold validateEmail.
  assert (Hshape : test email_pattern email = true
                   <-> exists local domain rest,
                         email = local ++ [64] ++ domain ++ [46] ++ rest
                         /\ local <> [] /\ domain <> [] /\ rest <> []
                         /\ Forall (fun c => email_class c = true)
                              (local ++ domain ++ rest)).
  { rewrite test_lang. unfold email_pattern, Chr. split.
    - intros (s1 & ? & -> & [Hne1 Hall1]%lang_plus_cls
              & (? & ? & -> & (c1 & -> & Hc1)%lang_Cls
              & (s2 & ? & -> & [Hne2 Hall2]%lang_plus_cls
              & (? & s3 & -> & (c2 & -> & Hc2)%lang_Cls
              & [Hne3 Hall3]%lang_plus_cls)%lang_Cat)%lang_Cat)%lang_Cat)%lang_Cat.
      apply N.eqb_eq in Hc1 as <-. apply N.eqb_eq in Hc2 as <-.
      exists s1, s2, s3. repeat split; try done.
      rewrite !Forall_app. done.
    - intros (s1 & s2 & s3 & -> & Hne1 & Hne2 & Hne3 & Hall).
      rewrite !Forall_app in Hall. destruct Hall as (Hall1 & Hall2 & Hall3).
      repeat (apply lang_cat);
        try (apply lang_plus_cls; by split);
        apply lang_cls; apply N.eqb_refl. }
  destruct (truthy (trim email)) eqn:Htrim; cbn [negb].
  - destruct (test email_pattern email); cbn.
    + split; [intros _; by apply Hshape|done].
    + split; [discriminate|]. intros H. apply Hshape in H. discriminate H.
  - cbn. split; [discriminate|].
    intros (s1 & s2 & s3 & -> & Hne1 & _ & _ & Hall). exfalso.
    assert (Hblank : trim (s1 ++ [64] ++ s2 ++ [46] ++ s3) = [])
      by (by destruct (trim _)).
    destruct s1 as [|c s1]; [done|].
    apply Forall_app in Hall as [Hall1 _]. apply Forall_cons in Hall1 as [Hc _].
    unfold email_class in Hc. apply negb_true_iff, orb_false_iff in Hc as [Hc _].
    unfold trim in Hblank. cbn [app trimStart] in Hblank. rewrite Hc in Hblank.
    unfold trimEnd in Hblank.
    apply (f_equal (@rev N)) in Hblank. rewrite rev_involutive in Hblank.
    cbn [rev] in Hblank.
    assert (Hlast : forall l : jsstring, trimStart (l ++ [c]) <> []).
    { induction l as [|x l IHl]; cbn; [by rewrite Hc|].
      destruct (isWhiteSpace x); [exact IHl|done]. }
    exact (Hlast _ Hblank).
Qed.

End Matcher.

(** ** More of the validation engine *)
Section FieldValidators.

Implicit Types (s : jsstring) (c : N) (p : N -> bool).

(** [trimStart] keeps every character that is not white space. *)
Lemma trimStart_keeps c s :
  c ∈ s -> isWhiteSpace c = false -> c ∈ trimStart s.
Proof.
  intros Hc Hws. induction s as [|x s IH]; [done|].
  cbn [trimStart]. destruct (isWhiteSpace x) eqn:Hx; [|done].
  apply elem_of_cons in Hc as [->|Hc]; [congruence|by apply IH].
Qed.

Lemma trim_keeps c s : c ∈ s -> isWhiteSpace c = false -> c ∈ trim s.
Proof.
  intros Hc Hws. unfold trim, trimEnd.
  apply list_elem_of_In, (proj1 (in_rev _ _)), list_elem_of_In.
  apply trimStart_keeps; [|done].
  apply list_elem_of_In, (proj1 (in_rev _ _)), list_elem_of_In.
  by apply trimStart_keeps.
Qed.

(** A string is blank, that is trims to nothing, exactly when all of it
    is white space. *)
Lemma trimStart_nil s :
  trimStart s = [] <-> Forall (fun c => isWhiteSpace c = true) s.
Proof.
  induction s as [|x s IH]; cbn [trimStart]; [by split|].
  destruct (isWhiteSpace x) eqn:Hx.
  - rewrite IH. split; [by constructor|by inversion 1].
  - split; [done|]. inversion 1; congruence.
Qed.

Lemma trim_nil s : trim s = [] <-> Forall (fun c => isWhiteSpace c = true) s.
Proof.
  split.
  - intros Hblank. apply Forall_forall. intros c Hc.
    destruct (isWhiteSpace c) eqn:Hws; [done|].
    pose proof (trim_keeps c s Hc Hws) as Hin. rewrite Hblank in Hin.
    by apply elem_of_nil in Hin.
  - intros Hall. unfold trim.
    by rewrite (proj2 (trimStart_nil s) Hall).
Qed.

Lemma digit_not_white c : isDigit c = true -> isWhiteSpace c = false.
Proof.
  unfold isDigit, between at 1. intros [Hlo Hhi]%andb_true_iff.
  apply N.leb_le in Hlo, Hhi. unfold isWhiteSpace.
  rewrite !between_false by lia.
  repeat match goal with
         | |- context [c =? ?k] =>
             rewrite (proj2 (N.eqb_neq c k)) by lia
         end.
  reflexivity.
Qed.

(** The phone check, in one condition: every character is a digit, white
    space, a hyphen, a plus or a parenthesis, and ten of them or more are
    digits.  The test for a blank value adds nothing to it: ten digits
    leave no value blank. *)
Theorem validatePhone_valid_iff (phone : jsstring) :
  valid (validatePhone phone) = true
  <-> Forall (fun c => phone_class c = true) phone
      /\ (10 <= length (digitsOnly phone))%nat.
Proof.
  unfold validatePhone, phone_pattern, phone_minLength.
  rewrite test_plus_cls.
  assert (Hall : forallb phone_class phone = true
                 <-> Forall (fun c => phone_class c = true) phone).
  { rewrite forallb_forall, Forall_forall.
    by setoid_rewrite list_elem_of_In. }
  assert (Hdigits : (10 <= length (digitsOnly phone))%nat ->
                    truthy (trim phone) = true /\ truthy phone = true).
  { intros Hten. unfold digitsOnly in Hten.
    destruct (List.filter isDigit phone) as [|d ds] eqn:Hfilter;
      [cbn in Hten; lia|].
    assert (Hd : In d (List.filter isDigit phone))
      by (rewrite Hfilter; by left).
    apply filter_In in Hd as [Hd Hisd]. apply list_elem_of_In in Hd.
    split; apply truthy_true.
    - intros Hblank.
      pose proof (trim_keeps d phone Hd (digit_not_white d Hisd)) as Hin.
      rewrite Hblank in Hin. by apply elem_of_nil in Hin.
    - intros ->. by apply elem_of_nil in Hd. }
  destruct (length (digitsOnly phone) <? 10)%nat eqn:Hlen;
    [apply Nat.ltb_lt in Hlen | apply Nat.ltb_ge in Hlen].
  - split; [|intros [_ ?]; lia].
    destruct (negb (truthy (trim phone))); [discriminate|].
    destruct (negb (truthy phone && forallb phone_class phone));
      discriminate.
  - destruct (Hdigits Hlen) as [-> ->]. cbn [negb andb].
    destruct (forallb phone_class phone) eqn:Hcls; cbn.
    + split; [intros _; split; [by apply Hall|done]|done].
    + split; [discriminate|]. intros [Hc _]. apply Hall in Hc. congruence.
Qed.

(** The skills check: between one and twenty entries, none longer than
    fifty characters. *)
Lemma validateSkills_valid_iff (skills : list jsstring) :
  valid (validateSkills skills) = true
  <-> (1 <= length skills <= 20)%nat
      /\ Forall (fun skill => (length skill <= 50)%nat) skills.
Proof.
  unfold validateSkills, skills_maxItems, skills_maxLength.
  case_bool_decide as Hempty; [cbn; split; [discriminate|lia]|].
  destruct (20 <? length skills)%nat eqn:Hmany;
    [apply Nat.ltb_lt in Hmany | apply Nat.ltb_ge in Hmany].
  { cbn. split; [discriminate|lia]. }
  destruct (existsb (fun skill => (50 <? length skill)%nat) skills)
    eqn:Hlong; cbn.
  - split; [discriminate|]. intros [_ Hall].
    apply existsb_exists in Hlong as (skill & Hin & Hlen).
    apply Nat.ltb_lt in Hlen. rewrite Forall_forall in Hall.
    apply list_elem_of_In, Hall in Hin. lia.
  - split; [intros _|done]. split; [lia|].
    apply Forall_forall. intros skill Hin.
    destruct (Nat.le_gt_cases (length skill) 50) as [|Hgt]; [done|].
    assert (existsb (fun skill => (50 <? length skill)%nat) skills = true);
      [|congruence].
    apply existsb_exists. exists skill.
    split; [by apply list_elem_of_In|by apply Nat.ltb_lt].
Qed.

(** The resume check: a file is there, its type is one of the three
    accepted ones, and it is no larger than 5,242,880 bytes (a file of
    exactly that size passes). *)
Lemma validateResume_valid_iff (file : option File) :
  valid (validateResume file) = true
  <-> exists f,
        file = Some f
        /\ fileType f ∈ resume_acceptedFormats
        /\ fileSize f <= 5242880.
Proof.
  unfold validateResume, resume_maxSize. destruct file as [f|].
  - destruct (includes resume_acceptedFormats (fileType f)) eqn:Htype;
      [apply includes_true in Htype | apply includes_false in Htype];
      cbn [negb].
    + destruct (N.ltb_spec (5 * 1024 * 1024) (fileSize f)) as [Hbig|Hok]; cbn.
      * split; [discriminate|]. intros (? & [= <-] & _ & ?). lia.
      * split; [intros _; exists f; repeat split; [done|lia]|done].
    + cbn. split; [discriminate|]. by intros (? & [= <-] & ? & _).
  - cbn. split; [discriminate|]. by intros (? & ? & _).
Qed.

End FieldValidators.

(** ** The step validators *)
Section StepValidators.

Implicit Types (v : Verdict) (errs : gmap string string) (k : string).

Lemma wellFormed_pass : wellFormed pass.
Proof. by left. Qed.

Lemma wellFormed_fail (msg : string) : wellFormed (fail msg).
Proof. right. split; [done|by exists msg]. Qed.

Ltac verdict :=
  repeat match goal with
         | |- wellFormed (if ?b then _ else _) => destruct b
         | |- wellFormed (match ?o with Some _ => _ | None => _ end) =>
             destruct o
         end;
  first [apply wellFormed_pass | apply wellFormed_fail].

Lemma validateFullName_wellFormed s : wellFormed (validateFullName s).
Proof. unfold validateFullName. verdict. Qed.

Lemma validateEmail_wellFormed s : wellFormed (validateEmail s).
Proof. unfold validateEmail. verdict. Qed.

Lemma validatePhone_wellFormed s : wellFormed (validatePhone s).
Proof. unfold validatePhone. verdict. Qed.

Lemma validateYearsOfExperience_wellFormed s :
  wellFormed (validateYearsOfExperience s).
Proof. unfold validateYearsOfExperience. verdict. Qed.

Lemma validateSkills_wellFormed skills : wellFormed (validateSkills skills).
Proof. unfold validateSkills. verdict. Qed.

Lemma validatePortfolioLink_wellFormed s :
  wellFormed (validatePortfolioLink s).
Proof. unfold validatePortfolioLink. verdict. Qed.

Lemma validateResume_wellFormed file : wellFormed (validateResume file).
Proof. unfold validateResume. verdict. Qed.

(** What recording one verdict does to the errors. *)
Lemma record_lookup k v errs k' :
  wellFormed v ->
  record k v errs !! k'
  = if decide (k = k')
    then (if valid v then errs !! k' else error v)
    else errs !! k'.
Proof.
  intros [[Hv He]|[Hv (msg & He)]]; unfold record; rewrite Hv.
  - by case_decide.
  - rewrite He. cbn. case_decide as Hk.
    + subst. apply lookup_insert_eq.
    + by apply lookup_insert_ne.
Qed.

Lemma record_size k v errs :
  size (record k v errs) = 0%nat <-> valid v = true /\ size errs = 0%nat.
Proof.
  unfold record. destruct (valid v).
  - split; [by intros ?|by intros [_ ?]].
  - split; [|by intros [? _]].
    intros Hsize. apply map_size_empty_iff in Hsize.
    by apply insert_non_empty in Hsize.
Qed.

(** Three verdicts collected under three different keys: the step is
    valid exactly when the three are, and the errors hold, under each key,
    the error of its verdict and nothing else. *)
Lemma collected (k1 k2 k3 : string) (v1 v2 v3 : Verdict) :
  k1 <> k2 -> k1 <> k3 -> k2 <> k3 ->
  wellFormed v1 -> wellFormed v2 -> wellFormed v3 ->
  let r := conclude (record k3 v3 (record k2 v2 (record k1 v1 ∅))) in
  stepValid r = valid v1 && valid v2 && valid v3
  /\ errors r !! k1 = error v1
  /\ errors r !! k2 = error v2
  /\ errors r !! k3 = error v3
  /\ (forall k, k <> k1 -> k <> k2 -> k <> k3 -> errors r !! k = None).
Proof.
  intros H12 H13 H23 W1 W2 W3. cbv zeta. cbn [conclude stepValid errors].
  split; [|repeat split].
  - apply eq_true_iff_eq. rewrite bool_decide_eq_true, !andb_true_iff.
    rewrite !record_size, map_size_empty. tauto.
  - rewrite !record_lookup by done. rewrite !decide_False by done.
    rewrite decide_True by done. rewrite lookup_empty.
    by destruct W1 as [[-> ->]|[-> _]].
  - rewrite !record_lookup by done. rewrite (decide_False (P:=k3 = k2)) by done.
    rewrite decide_True by done. rewrite (decide_False (P:=k1 = k2)) by done.
    rewrite lookup_empty. by destruct W2 as [[-> ->]|[-> _]].
  - rewrite !record_lookup by done. rewrite decide_True by done.
    rewrite !decide_False by done. rewrite lookup_empty.
    by destruct W3 as [[-> ->]|[-> _]].
  - intros k Hk1 Hk2 Hk3. rewrite !record_lookup by done.
    rewrite !decide_False by done. apply lookup_empty.
Qed.

(** The personal-information step is valid exactly when the name, the
    e-mail and the phone are, and its errors hold, under each of the
    three field names, the error of that field's validator and nothing
    under any other key. *)
Theorem validatePersonalInfoStep_collects (fullName email phone : jsstring) :
  let r := validatePersonalInfoStep fullName email phone in
  stepValid r
  = valid (validateFullName fullName) && valid (validateEmail email)
    && valid (validatePhone phone)
  /\ errors r !! "fullName"%string = error (validateFullName fullName)
  /\ errors r !! "email"%string = error (validateEmail email)
  /\ errors r !! "phone"%string = error (validatePhone phone)
  /\ (forall k : string,
        k <> "fullName"%string -> k <> "email"%string ->
        k <> "phone"%string -> errors r !! k = None).
Proof.
  apply collected; try done.
  - apply validateFullName_wellFormed.
  - apply validateEmail_wellFormed.
  - apply validatePhone_wellFormed.
Qed.

(** The experience step is valid exactly when the years, the skills and
    the portfolio link are, and its errors hold, under each of the three
    field names, the error of that field's validator and nothing under
    any other key. *)
Theorem validateExperienceStep_collects (years : jsstring)
    (skills : list jsstring) (link : jsstring) :
  let r := validateExperienceStep years skills link in
  stepValid r
  = valid (validateYearsOfExperience years) && valid (validateSkills skills)
    && valid (validatePortfolioLink link)
  /\ errors r !! "yearsOfExperience"%string
     = error (validateYearsOfExperience years)
  /\ errors r !! "skills"%string = error (validateSkills skills)
  /\ errors r !! "portfolioLink"%string = error (validatePortfolioLink link)
  /\ (forall k : string,
        k <> "yearsOfExperience"%string -> k <> "skills"%string ->
        k <> "portfolioLink"%string -> errors r !! k = None).
Proof.
  apply collected; try done.
  - apply validateYearsOfExperience_wellFormed.
  - apply validateSkills_wellFormed.
  - apply validatePortfolioLink_wellFormed.
Qed.

Lemma validateResumeStep_valid (file : option File) :
  stepValid (validateResumeStep file) = valid (validateResume file).
Proof.
  unfold validateResumeStep. cbn [conclude stepValid].
  apply eq_true_iff_eq. rewrite bool_decide_eq_true, record_size.
  rewrite map_size_empty. tauto.
Qed.

End StepValidators.

(** ** What the wizard keeps true *)
Section WizardInvariant.

Import Wizard WizardMachine.

Implicit Types (state : HireLinkStore) (w : WizardMachine.State)
  (e : WizardMachine.Event).

Lemma displayed_step w (k : nat) :
  displayed w = Some k ->
  currentStep (store w) = k
  /\ exists job, ResumeStep.findSelectedJob (store w) = Some job.
Proof.
  unfold displayed.
  destruct (ResumeStep.findSelectedJob (store w)) as [job|]; [|done].
  intros [= <-]. split; [done|by exists job].
Qed.

(** [onNext] is called exactly when the step validator passes. *)
Lemma personal_handleNext_calls (l : PersonalInfoStep.Local) state :
  (PersonalInfoStep.handleNext l state).2
  = personalValid (applicationForm state).
Proof.
  unfold PersonalInfoStep.handleNext, personalValid,
    validatePersonalInfoStep, conclude. cbn [stepValid].
  match goal with |- context [size ?m] => destruct (size m) end;
    reflexivity.
Qed.

Lemma experience_handleNext_calls (l : ExperienceStep.Local) state :
  (ExperienceStep.handleNext l state).2
  = experienceValid (applicationForm state).
Proof.
  unfold ExperienceStep.handleNext, experienceValid,
    validateExperienceStep, conclude. cbn [stepValid].
  match goal with |- context [size ?m] => destruct (size m) end;
    reflexivity.
Qed.

(** Every event of the wizard is one of the moves. *)
Lemma step_move e w : WizardMove (store w) (store (step e w)).
Proof.
  unfold step.
  destruct e; destruct (displayed w) as [[|[|[|n]]]|] eqn:Hd;
    try apply move_none;
    try (apply displayed_step in Hd as [Hstep [job Hjob]]).
  all: try (case_match; [apply move_job|apply move_none]).
  - (* FieldChange *) by apply move_personal.
  - (* PersonalNext *)
    pose proof (personal_handleNext_calls (personal w) (store w)) as Hcalls.
    destruct (PersonalInfoStep.handleNext _ _) as [l [|]];
      [|apply move_none].
    cbn in Hcalls. unfold handleNextStep. rewrite Hstep. cbn.
    change 1%nat with (0 + 1)%nat. rewrite <- Hstep at 1.
    apply move_next; [lia|done|lia].
  - (* ExperienceChange *) by apply move_experience.
  - (* PortfolioChange *) by apply move_experience.
  - (* AddSkill *)
    destruct (ExperienceStep.handleAddSkill (experience w) (store w))
      as [l st] eqn:Hadd.
    unfold ExperienceStep.handleAddSkill in Hadd.
    repeat match type of Hadd with
           | (if ?b then _ else _) = _ => destruct b
           end;
      injection Hadd as <- <-; first [apply move_none|by apply move_experience].
  - (* RemoveSkill *) by apply move_experience.
  - (* ExperienceNext *)
    pose proof (experience_handleNext_calls (experience w) (store w))
      as Hcalls.
    destruct (ExperienceStep.handleNext _ _) as [l [|]];
      [|apply move_none].
    cbn in Hcalls. unfold handleNextStep. rewrite Hstep. cbn.
    change 2%nat with (1 + 1)%nat. rewrite <- Hstep at 1.
    apply move_next; [lia|lia|done].
  - (* ExperienceBack *)
    unfold handlePreviousStep. rewrite Hstep. cbn.
    change 0%nat with (1 - 1)%nat. rewrite <- Hstep at 1.
    apply move_back. lia.
  - (* FileSelect *)
    unfold ResumeStep.handleFileSelect.
    destruct file as [f|]; [|apply move_none].
    destruct (valid (validateResume (Some f))) eqn:Hvalid; cbn;
      [by apply move_file|apply move_none].
  - (* RemoveFile *) by apply move_no_file.
  - (* ResumeBack *)
    unfold handlePreviousStep. rewrite Hstep. cbn.
    change 1%nat with (2 - 1)%nat. rewrite <- Hstep at 1.
    apply move_back. lia.
  - (* Submit *)
    destruct (ApplicationForm.resumeFile (applicationForm (store w)))
      as [f|] eqn:Hfile; [|apply move_none].
    destruct (ResumeStep.isSubmitting (resume w)); [apply move_none|].
    unfold ResumeStep.handleSubmit. rewrite Hfile, Hjob.
    destruct (valid (validateResume (Some f))) eqn:Hvalid; cbn;
      [|apply move_none].
    apply move_submit; [done|by rewrite Hfile|done].
Qed.


(** Every move keeps the invariant. *)
Lemma move_invariant state state' :
  WizardMove state state' -> wizardInvariant state -> wizardInvariant state'.
Proof.
  intros Hmove (Hrange & Hpersonal & Hexperience & Hresume & Hjobs & Hrecords).
  destruct Hmove as
    [state|jobId state|info state Hstep|e state Hstep|f state Hstep Hvalid
    |state Hstep|state Hlt Hp He|state Hpos|a job state Hstep Hvalid Hjob];
    unfold wizardInvariant;
    cbn [currentStep applicationForm candidates jobPostings setSelectedJobId
           setApplicationForm setCurrentStep addCandidate withCandidates
           ExperienceStep.setExperience ResumeStep.setResume
           ApplicationForm.spread ApplicationForm.resumeFile
           ApplicationForm.resumeFileName ApplicationForm.p_resumeFile
           ApplicationForm.p_resumeFileName ApplicationForm.p_personalInfo
           ApplicationForm.p_experience default from_option id].
  - done.
  - done.
  - repeat split; try done; lia.
  - repeat split; try done; lia.
  - repeat split; try done.
  - repeat split; try done.
  - split; [lia|]. split; [|split; [|done]].
    + intros _. destruct (currentStep state) as [|[|n]]; [by apply Hp|..].
      * apply Hpersonal. lia.
      * lia.
    + intros Htwo. apply He. lia.
  - split; [lia|]. split; [|split; [|done]].
    + intros Hone. apply Hpersonal. lia.
    + intros Htwo. lia.
  - repeat split; try done.
    apply Forall_cons. split; [|done].
    unfold submitted. cbn [ResumeStep.newCandidate Candidate.stage
      Candidate.score Candidate.jobId Candidate.jobTitle
      Candidate.applicationData].
    repeat split.
    + unfold ResumeStep.findSelectedJob in Hjob.
      apply find_some in Hjob as [Hin Hid].
      apply bool_decide_eq_true in Hid.
      exists job. rewrite <- Hjobs. split; [by apply list_elem_of_In|].
      rewrite <- Hid. done.
    + apply Hpersonal. lia.
    + by apply Hexperience.
    + unfold resumeValid. by rewrite validateResumeStep_valid.
Qed.

Lemma initial_invariant : wizardInvariant (store initial).
Proof. repeat split; cbn; (lia || discriminate || constructor). Qed.

Lemma run_invariant (events : list Event) w :
  wizardInvariant (store w) -> wizardInvariant (store (run events w)).
Proof.
  revert w. induction events as [|e events IH]; intros w Hw; [exact Hw|].
  cbn. apply IH. exact (move_invariant _ _ (step_move e w) Hw).
Qed.

(** In every state the wizard can reach, the step is 0, 1 or 2; past
    step 0 the personal information passes its step validator, and on
    step 2 the experience passes its own. *)
Theorem wizard_steps_are_gated (events : list Event) :
  let state := store (run events initial) in
  (currentStep state <= 2)%nat
  /\ ((1 <= currentStep state)%nat ->
      personalValid (applicationForm state) = true)
  /\ (currentStep state = 2%nat ->
      experienceValid (applicationForm state) = true).
Proof.
  destruct (run_invariant events initial initial_invariant)
    as (H1 & H2 & H3 & _).
  by repeat split.
Qed.

(** The wizard never alters or removes a record: whatever the events,
    the candidates it started with are still there, as the last of the
    collection, behind the records it added. *)
Theorem wizard_only_prepends (events : list Event) w :
  candidates (store w) `suffix_of` candidates (store (run events w)).
Proof.
  revert w. induction events as [|e events IH]; intros w; [done|].
  cbn. etrans; [|apply IH].
  destruct (step_move e w); try done.
  by apply suffix_cons_r.
Qed.

End WizardInvariant.

(** ** More on the skill list *)
Section SkillList.

Import Wizard WizardMachine.

Implicit Types (state : HireLinkStore) (l : ExperienceStep.Local)
  (w : WizardMachine.State) (skills : list jsstring) (t : jsstring).

Lemma filter_absent t skills :
  t ∉ skills -> filter (fun s => s <> t) skills = skills.
Proof.
  induction skills as [|s skills IH]; intros Ht; [done|].
  apply not_elem_of_cons in Ht as [Hne Ht].
  rewrite filter_cons_True by done. by rewrite IH.
Qed.


(** Adding a skill and then removing it gives back the list there was:
    when an add went through, removing the trimmed text it added leaves
    the skills as they were before the add. *)
Theorem add_then_remove_skill l l' state :
  let input := trim (ExperienceStep.skillInput l) in
  let added := (ExperienceStep.handleAddSkill l state).2 in
  draftSkills added = draftSkills state ++ [input] ->
  draftSkills (ExperienceStep.handleRemoveSkill input l' added).2
  = draftSkills state.
Proof.
  cbv zeta. intros Hadded.
  assert (Hnew : trim (ExperienceStep.skillInput l) ∉ draftSkills state).
  { pose proof (handleAddSkill_cases l state) as Hcases. cbv zeta in Hcases.
    destruct Hcases as [(_ & H)|[(_ & _ & H)|[(_ & _ & _ & H)|
      [(_ & _ & _ & _ & H)|(_ & _ & Hnew & _)]]]]; [| | | |done];
      rewrite H in Hadded; cbn [snd] in Hadded;
      apply (f_equal length) in Hadded; rewrite length_app in Hadded;
      cbn in Hadded; lia. }
  unfold ExperienceStep.handleRemoveSkill. cbn [snd].
  rewrite draftSkills_setExperience. cbn [Experience.skills].
  fold (draftSkills (ExperienceStep.handleAddSkill l state).2).
  rewrite Hadded, filter_app, filter_absent by done.
  rewrite filter_cons_False by (intros H; by apply H).
  by rewrite filter_nil, app_nil_r.
Qed.

Lemma add_then_remove_skill_witness :
  draftSkills
    (ExperienceStep.handleAddSkill (Samples.typed " React ")
       (store (run Samples.atExperienceStep initial))).2
  = draftSkills (store (run Samples.atExperienceStep initial))
    ++ [trim (ExperienceStep.skillInput (Samples.typed " React "))]
  /\ draftSkills
       (ExperienceStep.handleRemoveSkill
          (trim (ExperienceStep.skillInput (Samples.typed " React ")))
          ExperienceStep.mount
          (ExperienceStep.handleAddSkill (Samples.typed " React ")
             (store (run Samples.atExperienceStep initial))).2).2
     = draftSkills (store (run Samples.atExperienceStep initial)).
Proof.
  assert (Hadded :
    draftSkills
      (ExperienceStep.handleAddSkill (Samples.typed " React ")
         (store (run Samples.atExperienceStep initial))).2
    = draftSkills (store (run Samples.atExperienceStep initial))
      ++ [trim (ExperienceStep.skillInput (Samples.typed " React "))])
    by (vm_compute; reflexivity).
  split; [exact Hadded|].
  exact (add_then_remove_skill (Samples.typed " React ") ExperienceStep.mount
           (store (run Samples.atExperienceStep initial)) Hadded).
Defined.

(** One event keeps the skills free of repeats and each of them
    non-empty and of at most 50 characters. *)
Lemma step_skills_shape (e : Event) w :
  NoDup (skillsOf w)
  /\ Forall (fun s => s <> [] /\ (length s <= 50)%nat) (skillsOf w) ->
  NoDup (skillsOf (step e w))
  /\ Forall (fun s => s <> [] /\ (length s <= 50)%nat) (skillsOf (step e w)).
Proof.
  intros [Hnd Hall].
  destruct (step_skills e w)
    as [->|[(t & -> & _ & Hne & Hlen & Hnew)|(t & ->)]].
  - done.
  - split.
    + apply NoDup_app. repeat split; [done| |apply NoDup_singleton].
      intros s Hs ->%list_elem_of_singleton. done.
    + apply Forall_app. split; [done|]. apply Forall_singleton. by split.
  - split; [by apply NoDup_filter|].
    apply Forall_forall. intros s [_ Hs]%list_elem_of_filter.
    by apply (proj1 (Forall_forall _ _) Hall).
Qed.

(** In every state the wizard can reach, the skills hold no text twice,
    none of them is empty or longer than 50 characters, and there are at
    most 20; so the skills check can fail on them in one way only, by the
    list being empty. *)
Theorem wizard_skills_are_well_formed (events : list Event) :
  let skills := skillsOf (run events initial) in
  NoDup skills
  /\ Forall (fun s => s <> [] /\ (length s <= 50)%nat) skills
  /\ (length skills <= 20)%nat
  /\ (valid (validateSkills skills) = true <-> skills <> []).
Proof.
  cbv zeta.
  assert (Hshape : forall w,
            NoDup (skillsOf w)
            /\ Forall (fun s => s <> [] /\ (length s <= 50)%nat) (skillsOf w) ->
            NoDup (skillsOf (run events w))
            /\ Forall (fun s => s <> [] /\ (length s <= 50)%nat)
                 (skillsOf (run events w))).
  { induction events as [|e events IH]; intros w Hw; [exact Hw|].
    cbn. apply IH. by apply step_skills_shape. }
  destruct (Hshape initial) as [Hnd Hall];
    [split; [apply NoDup_nil_2|constructor]|].
  assert (Hbound : (length (skillsOf (run events initial)) <= 20)%nat)
    by (apply run_skills_bound; cbn; lia).
  split; [exact Hnd|]. split; [exact Hall|]. split; [exact Hbound|].
  rewrite validateSkills_valid_iff.
  remember (skillsOf (run events initial)) as skills eqn:Hskills.
  clear Hskills. split.
  - intros [Hlen _] ->. cbn in Hlen. lia.
  - intros Hne. split.
    + destruct skills; [done|cbn in *; lia].
    + eapply Forall_impl; [exact Hall|]. by intros s [_ ?].
Qed.

End SkillList.

(** ** Lookups and repeated updates in the store *)
Section StoreLookups.

Implicit Types (state : HireLinkStore) (c : Candidate.t)
  (cs : list Candidate.t) (id : jsstring) (updates : Candidate.partial).

(** A lookup returns the first record of the id, or nothing when no record
    has the id. *)
Theorem getCandidateById_finds_the_first id state :
  match getCandidateById id state with
  | Some c =>
      Candidate.id c = id
      /\ exists before after,
           candidates state = before ++ c :: after /\ (id ∉ ids before)
  | None => id ∉ ids (candidates state)
  end.
Proof.
  unfold getCandidateById. generalize (candidates state) as cs.
  induction cs as [|x cs IH]; cbn [find].
  - apply not_elem_of_nil.
  - destruct (eqb (Candidate.id x) id) eqn:Hx.
    + apply eqb_true in Hx. split; [done|].
      exists [], cs. split; [done|apply not_elem_of_nil].
    + apply eqb_false in Hx.
      destruct (find (fun c => eqb (Candidate.id c) id) cs) as [c|].
      * destruct IH as (Hid & before & after & -> & Hnot).
        split; [done|]. exists (x :: before), after. split; [done|].
        cbn. apply not_elem_of_cons. split; [congruence|done].
      * cbn. apply not_elem_of_cons. split; [congruence|done].
Qed.

(** Insert, then look up: the id of the inserted record finds that
    record, and any other id finds what it found before. *)
Theorem addCandidate_then_lookup c id state :
  getCandidateById id (addCandidate c state)
  = if decide (Candidate.id c = id) then Some c
    else getCandidateById id state.
Proof.
  unfold getCandidateById. cbn.
  destruct (decide (Candidate.id c = id)) as [He|Hne].
  - by rewrite (proj2 (eqb_true _ _) He).
  - by rewrite (proj2 (eqb_false _ _) Hne).
Qed.

(** Update, then look up: with an update that does not rename the
    record, an id finds after the update the record it found before,
    merged with the update when it is the updated id. *)
Theorem updateCandidate_then_lookup id id' updates state :
  Candidate.p_id updates = None ->
  getCandidateById id' (updateCandidate id updates state)
  = (fun c => if decide (id' = id) then Candidate.spread c updates else c)
      <$> getCandidateById id' state.
Proof.
  intros Hnoid. unfold getCandidateById, updateCandidate.
  cbn [candidates withCandidates]. generalize (candidates state) as cs.
  induction cs as [|x cs IH]; [done|].
  cbn [List.map find].
  assert (Hid : Candidate.id
                  (if eqb (Candidate.id x) id
                   then Candidate.spread x updates else x)
                = Candidate.id x).
  { destruct (eqb (Candidate.id x) id); [|done]. cbn. by rewrite Hnoid. }
  rewrite Hid. destruct (eqb (Candidate.id x) id') eqn:Hx; [|exact IH].
  apply eqb_true in Hx. cbn. f_equal.
  destruct (decide (id' = id)) as [->|Hne].
  - by rewrite (proj2 (eqb_true _ _) Hx).
  - rewrite (proj2 (eqb_false _ _)); [done|congruence].
Qed.

Lemma updateCandidate_then_lookup_witness :
  Candidate.p_id (Recruiter.CandidateModal.stageOnly Reviewed) = None
  /\ getCandidateById (Candidate.id Samples.ada)
       (updateCandidate (Candidate.id Samples.ada)
          (Recruiter.CandidateModal.stageOnly Reviewed)
          (Samples.storeWith Samples.ada))
     = (fun c =>
          if decide (Candidate.id Samples.ada = Candidate.id Samples.ada)
          then Candidate.spread c (Recruiter.CandidateModal.stageOnly Reviewed)
          else c)
         <$> getCandidateById (Candidate.id Samples.ada)
               (Samples.storeWith Samples.ada).
Proof.
  split; [reflexivity|].
  exact (updateCandidate_then_lookup (Candidate.id Samples.ada)
           (Candidate.id Samples.ada)
           (Recruiter.CandidateModal.stageOnly Reviewed)
           (Samples.storeWith Samples.ada) eq_refl).
Defined.

Lemma spread_twice c updates :
  Candidate.spread (Candidate.spread c updates) updates
  = Candidate.spread c updates.
Proof.
  destruct updates as [o1 o2 o3 o4 o5 o6 o7 o8 o9 o10 o11 o12].
  unfold Candidate.spread. cbn.
  f_equal;
    match goal with
    | |- default (default _ ?o) ?o = _ => by destruct o
    end.
Qed.

(** The same update twice is the update once. *)
Theorem updateCandidate_twice id updates state :
  updateCandidate id updates (updateCandidate id updates state)
  = updateCandidate id updates state.
Proof.
  unfold updateCandidate. cbn [candidates withCandidates].
  unfold withCandidates at 1 3. cbn.
  f_equal. rewrite List.map_map. apply List.map_ext. intros c.
  destruct (eqb (Candidate.id c) id) eqn:Hc; [|by rewrite Hc].
  destruct (eqb (Candidate.id (Candidate.spread c updates)) id);
    [apply spread_twice|done].
Qed.

(** Updates of two different ids do not depend on their order, when
    neither renames a record. *)
Theorem updateCandidate_commutes id1 id2 (u1 u2 : Candidate.partial) state :
  id1 <> id2 ->
  Candidate.p_id u1 = None -> Candidate.p_id u2 = None ->
  updateCandidate id1 u1 (updateCandidate id2 u2 state)
  = updateCandidate id2 u2 (updateCandidate id1 u1 state).
Proof.
  intros Hne H1 H2. unfold updateCandidate. cbn [candidates withCandidates].
  unfold withCandidates at 1 3. cbn.
  f_equal. rewrite !List.map_map. apply List.map_ext. intros c.
  destruct (eqb (Candidate.id c) id1) eqn:Hc1;
    destruct (eqb (Candidate.id c) id2) eqn:Hc2;
    rewrite ?Hc1, ?Hc2; try done.
  - apply eqb_true in Hc1, Hc2. congruence.
  - cbn [Candidate.spread Candidate.id]. rewrite H1. cbn. by rewrite Hc2.
  - cbn [Candidate.spread Candidate.id]. rewrite H2. cbn. by rewrite Hc1.
Qed.

Lemma updateCandidate_commutes_witness :
  Candidate.id Samples.ada <> Candidate.id Samples.alan
  /\ updateCandidate (Candidate.id Samples.ada)
       (Recruiter.CandidateModal.stageOnly Reviewed)
       (updateCandidate (Candidate.id Samples.alan)
          (Recruiter.CandidateModal.stageOnly Applied)
          (withCandidates [Samples.ada; Samples.alan] initialStore))
     = updateCandidate (Candidate.id Samples.alan)
         (Recruiter.CandidateModal.stageOnly Applied)
         (updateCandidate (Candidate.id Samples.ada)
            (Recruiter.CandidateModal.stageOnly Reviewed)
            (withCandidates [Samples.ada; Samples.alan] initialStore)).
Proof.
  assert (Hne : Candidate.id Samples.ada <> Candidate.id Samples.alan)
    by (vm_compute; discriminate).
  split; [exact Hne|].
  exact (updateCandidate_commutes (Candidate.id Samples.ada)
           (Candidate.id Samples.alan)
           (Recruiter.CandidateModal.stageOnly Reviewed)
           (Recruiter.CandidateModal.stageOnly Applied)
           (withCandidates [Samples.ada; Samples.alan] initialStore)
           Hne eq_refl eq_refl).
Defined.

End StoreLookups.

(** ** The recruiter's actions and what they leave of a record *)
Section RecruiterDesk.

Import Recruiter Dashboard.

Implicit Types (state : HireLinkStore) (c r : Candidate.t)
  (cs : list Candidate.t) (id : jsstring) (updates : Candidate.partial)
  (s : Dashboard.State) (e : Dashboard.Event).

(** What one event does to the store. *)
Lemma step_recruiter e s :
  match e with
  | Arrive c => store (step e s) = addCandidate c (store s)
  | _ => RecruiterMove s (store (step e s))
  end.
Proof.
  destruct s as [st sel m sch off].
  destruct e; [reflexivity|..];
    cbn [step selectedCandidate store modal scheduler offer];
    (destruct sel as [c0|];
     [|first [apply (recruiter_none (mkState st None m sch off))
             |destruct (candidates st !! i);
              apply (recruiter_none (mkState st None m sch off))]]).
  all: set (s0 := mkState st (Some c0) m sch off).
  all: try apply (recruiter_none s0).
  - (* Save *)
    case_match; [apply (recruiter_none s0)|].
    by apply (recruiter_save s0 c0).
  - (* MoveToReviewed *)
    destruct (Candidate.stage c0) eqn:Hstage;
      try apply (recruiter_none s0).
    by apply (recruiter_reviewed s0 c0).
  - (* OpenScheduler *)
    destruct (Candidate.stage c0); apply (recruiter_none s0).
  - (* Schedule *)
    destruct (CandidateModal.isInterviewSchedulerOpen m) eqn:Hopen;
      [|apply (recruiter_none s0)].
    unfold InterviewScheduler.handleScheduleInterview.
    destruct (InterviewScheduler.isValid sch) eqn:Hvalid;
      [|apply (recruiter_none s0)].
    destruct (InterviewScheduler.isScheduling sch);
      [apply (recruiter_none s0)|].
    by apply (recruiter_schedule s0 c0).
  - (* OpenOffer *)
    destruct (Candidate.stage c0); apply (recruiter_none s0).
  - (* SendOffer *)
    destruct (CandidateModal.isOfferLetterOpen m) eqn:Hopen;
      [|apply (recruiter_none s0)].
    destruct (truthy (OfferLetter.salary off)); [|apply (recruiter_none s0)].
    destruct (truthy (OfferLetter.startDate off));
      [|apply (recruiter_none s0)].
    destruct (OfferLetter.isSending off); [apply (recruiter_none s0)|].
    by apply (recruiter_offer s0 c0).
Qed.

(** The collection after an update, record by record. *)
Lemma updateCandidate_candidates state id updates :
  candidates (updateCandidate id updates state)
  = List.map
      (fun c =>
         if decide (Candidate.id c = id) then Candidate.spread c updates
         else c)
      (candidates state).
Proof.
  unfold updateCandidate. cbn [candidates withCandidates].
  apply List.map_ext. intros c.
  destruct (decide (Candidate.id c = id)) as [He|Hne].
  - by rewrite (proj2 (eqb_true _ _) He).
  - by rewrite (proj2 (eqb_false _ _) Hne).
Qed.

Lemma run_cons e (events : list Event) s :
  run (e :: events) s = run events (step e s).
Proof. reflexivity. Qed.

Lemma run_snoc (events : list Event) e s :
  run (events ++ [e]) s = step e (run events s).
Proof. unfold run. by rewrite foldl_app. Qed.

(** An action of the recruiter keeps every record's submission, in its
    place. *)
Lemma recruiter_move_submissions s state' :
  RecruiterMove s state' ->
  List.map submission (candidates state')
  = List.map submission (candidates (store s)).
Proof.
  intros [ |c Hsel|c Hsel Hstage|c Hsel Hopen Hvalid|c Hsel Hopen];
    [reflexivity|..];
    rewrite updateCandidate_candidates, List.map_map;
    apply List.map_ext; intros r; by case_decide.
Qed.

(** Whatever the recruiter does, and whatever arrives meanwhile, the
    collection holds, in this order, the records that arrived, the latest
    first, and then the records it held before; and every one of them
    still carries the id, the application id, the job, the draft and the
    date it was submitted with. *)
Theorem dashboard_keeps_what_was_submitted (events : list Event) s :
  List.map submission (candidates (store (run events s)))
  = List.map submission (arrivals events ++ candidates (store s)).
Proof.
  revert s. induction events as [|e events IH]; intros s; [reflexivity|].
  rewrite run_cons, IH. cbn [arrivals].
  rewrite <- (app_assoc (arrivals events)), !List.map_app. f_equal.
  pose proof (step_recruiter e s) as Hmove.
  destruct e; try (cbn [app]; by apply recruiter_move_submissions).
  by rewrite Hmove.
Qed.

Lemma oneStageAtMost_refl cs : oneStageAtMost cs cs.
Proof. intros c Hc. exists c. repeat split; [done|lia..]. Qed.

(** Under a coherent page an action of the recruiter advances a record by
    one stage at most. *)
Lemma recruiter_move_one_stage s state' :
  coherent s -> RecruiterMove s state' ->
  oneStageAtMost (candidates (store s)) (candidates state').
Proof.
  intros [Hnd Hco] Hmove.
  assert (Hupdate : forall c0 updates,
    selectedCandidate s = Some c0 ->
    Candidate.p_id updates = None ->
    (forall r, r ∈ candidates (store s) ->
       Candidate.id r = Candidate.id c0 ->
       (Candidate.stage r = Candidate.stage c0
        \/ Candidate.stage c0 = Applied /\ Candidate.stage r = Reviewed) ->
       (stageRank (Candidate.stage r)
        <= stageRank (default (Candidate.stage r) (Candidate.p_stage updates))
        <= stageRank (Candidate.stage r) + 1)%nat) ->
    oneStageAtMost (candidates (store s))
      (candidates (updateCandidate (Candidate.id c0) updates (store s)))).
  { intros c0 updates Hsel Hnoid Hrank c Hc.
    pose proof (updateCandidate_elem (store s) (Candidate.id c0) updates c Hc)
      as Hc'.
    destruct (decide (Candidate.id c = Candidate.id c0)) as [He|Hne].
    - exists (Candidate.spread c updates). split; [exact Hc'|].
      cbn. rewrite Hnoid. split; [reflexivity|].
      rewrite Hsel in Hco. destruct Hco as ((r & Hr & Hid & Hstage) & _).
      assert (c = r) as ->
        by (apply (ids_unique (candidates (store s))); congruence).
      by apply Hrank.
    - exists c. repeat split; [done|lia..]. }
  destruct Hmove as [ |c Hsel|c Hsel Hstage|c Hsel Hopen Hvalid|c Hsel Hopen].
  - apply oneStageAtMost_refl.
  - apply Hupdate; [done..|]. intros r _ _ _.
    rewrite Hsel in Hco. destruct Hco as (_ & Hnew & _).
    cbn. rewrite Hnew. cbn. lia.
  - apply Hupdate; [done..|]. intros r _ _ Hr. cbn.
    destruct Hr as [->|[_ ->]]; [rewrite Hstage|]; cbn; lia.
  - apply Hupdate; [done..|]. intros r _ _ Hr. cbn.
    rewrite Hsel in Hco. destruct Hco as (_ & _ & Hsched & _).
    specialize (Hsched Hopen).
    destruct Hr as [->|[? _]]; [|congruence]. rewrite Hsched. cbn. lia.
  - apply Hupdate; [done..|]. intros r _ _ Hr. cbn.
    rewrite Hsel in Hco. destruct Hco as (_ & _ & _ & Hoffer).
    specialize (Hoffer Hopen).
    destruct Hr as [->|[? _]]; [|congruence]. rewrite Hoffer. cbn. lia.
Qed.

Lemma freshArrivals_app (events events' : list Event) s :
  freshArrivals (events ++ events') s ->
  freshArrivals events s /\ freshArrivals events' (run events s).
Proof.
  revert s. induction events as [|e events IH]; intros s; [done|].
  cbn [app freshArrivals]. intros [Hnew Hrest].
  destruct (IH _ Hrest) as [H1 H2]. by repeat split.
Qed.

Lemma run_coherent (events : list Event) s :
  coherent s -> freshArrivals events s -> coherent (run events s).
Proof.
  revert s. induction events as [|e events IH]; intros s Hco Hfresh; [done|].
  destruct Hfresh as [Hnew Hrest]. rewrite run_cons.
  apply IH; [|done]. by apply step_coherent.
Qed.

(** No stage is skipped: after any run of the dashboard in which the
    arriving records bring new ids, one more event leaves every record
    at its stage or takes it to the next stage on the path Applied,
    Reviewed, Interview Scheduled, Offer Sent. *)
Theorem dashboard_skips_no_stage (events : list Event) e :
  freshArrivals (events ++ [e]) initial ->
  oneStageAtMost (candidates (store (run events initial)))
    (candidates (store (run (events ++ [e]) initial))).
Proof.
  intros [Hfresh [Hnew _]]%freshArrivals_app.
  pose proof (run_coherent events initial initial_coherent Hfresh) as Hco.
  rewrite run_snoc. set (s := run events initial) in *.
  pose proof (step_recruiter e s) as Hmove.
  destruct e; try (by apply recruiter_move_one_stage).
  rewrite Hmove. intros r Hr. exists r.
  repeat split; [by apply list_elem_of_further|lia..].
Qed.

Lemma dashboard_skips_no_stage_witness :
  freshArrivals (take 10 Samples.review ++ [Schedule]) initial
  /\ oneStageAtMost
       (candidates (store (run (take 10 Samples.review) initial)))
       (candidates
          (store (run (take 10 Samples.review ++ [Schedule]) initial))).
Proof.
  assert (Hfresh : freshArrivals (take 10 Samples.review ++ [Schedule])
                     initial).
  { vm_compute. repeat split. intros Hin. inversion Hin. }
  split; [exact Hfresh|].
  exact (dashboard_skips_no_stage (take 10 Samples.review) Schedule Hfresh).
Defined.

Lemma truthy_nonempty (text : jsstring) : truthy text = true -> text <> [].
Proof. by intros Htext ->. Qed.

(** Under a coherent page an action of the recruiter keeps every record
    past Reviewed dated. *)
Lemma recruiter_move_dated s state' :
  coherent s -> RecruiterMove s state' ->
  Forall dated (candidates (store s)) -> Forall dated (candidates state').
Proof.
  intros [Hnd Hco] Hmove Hall.
  assert (Hupdate : forall c0 updates,
    selectedCandidate s = Some c0 ->
    (forall r, r ∈ candidates (store s) ->
       (Candidate.stage r = Candidate.stage c0
        \/ Candidate.stage c0 = Applied /\ Candidate.stage r = Reviewed) ->
       dated r -> dated (Candidate.spread r updates)) ->
    Forall dated
      (candidates (updateCandidate (Candidate.id c0) updates (store s)))).
  { intros c0 updates Hsel Hkeeps.
    rewrite updateCandidate_candidates. apply Forall_forall.
    intros c' Hc'. apply list_elem_of_In, in_map_iff in Hc' as (c & <- & Hc).
    apply list_elem_of_In in Hc.
    pose proof (proj1 (Forall_forall _ _) Hall c Hc) as Hdated.
    case_decide as He; [|done].
    rewrite Hsel in Hco. destruct Hco as ((r & Hr & Hid & Hstage) & _).
    assert (c = r) as ->
      by (apply (ids_unique (candidates (store s))); congruence).
    by apply Hkeeps. }
  destruct Hmove as [ |c Hsel|c Hsel Hstage|c Hsel Hopen Hvalid|c Hsel Hopen].
  - done.
  - apply Hupdate; [done|]. intros r _ _ Hdated.
    rewrite Hsel in Hco. destruct Hco as (_ & Hnew & _).
    unfold dated. cbn. rewrite Hnew. exact Hdated.
  - apply Hupdate; [done|]. intros r _ _ _.
    split; cbn; [lia|discriminate].
  - apply Hupdate; [done|]. intros r _ _ _.
    unfold InterviewScheduler.isValid in Hvalid.
    apply andb_prop in Hvalid as [[Hdate Htime]%andb_prop _].
    split; cbn; [|discriminate]. intros _.
    exists (InterviewScheduler.interviewDate (scheduler s)),
      (InterviewScheduler.interviewTime (scheduler s)).
    repeat split; by apply truthy_nonempty.
  - apply Hupdate; [done|]. intros r _ Hr [Hdated _].
    rewrite Hsel in Hco. destruct Hco as (_ & _ & _ & Hoffer).
    specialize (Hoffer Hopen).
    destruct Hr as [Hr|[? _]]; [|congruence].
    split; cbn; [|by eexists]. intros _. apply Hdated.
    rewrite Hr, Hoffer. cbn. lia.
Qed.

(** Starting from the empty dashboard, with records that arrive at
    Applied under new ids, every record past Reviewed has an interview
    date and an interview time, neither of them empty, and every record
    at Offer Sent has an offer text: the later stages are reached only
    through the interview dialog with its form filled in, and through
    the offer dialog. *)
Theorem dashboard_dates_every_interview (events : list Event) :
  freshArrivals events initial ->
  Forall asThePageProduces events ->
  Forall dated (candidates (store (run events initial))).
Proof.
  assert (Hgen : forall s,
    coherent s -> Forall dated (candidates (store s)) ->
    freshArrivals events s -> Forall asThePageProduces events ->
    Forall dated (candidates (store (run events s)))).
  { induction events as [|e events IH]; intros s Hco Hall Hfresh Hpage;
      [done|].
    destruct Hfresh as [Hnew Hrest].
    apply Forall_cons in Hpage as [He Hpage].
    rewrite run_cons. apply IH; [by apply step_coherent| |done..].
    pose proof (step_recruiter e s) as Hmove.
    destruct e; try (by apply (recruiter_move_dated s)).
    rewrite Hmove. cbn. apply Forall_cons. split; [|done].
    destruct He as [Hstage _]. split; rewrite Hstage; cbn; [lia|discriminate]. }
  intros Hfresh Hpage.
  apply Hgen; [apply initial_coherent|apply Forall_nil_2|done..].
Qed.

Lemma dashboard_dates_every_interview_witness :
  freshArrivals (take 11 Samples.review) initial
  /\ Forall asThePageProduces (take 11 Samples.review)
  /\ Forall dated
       (candidates (store (run (take 11 Samples.review) initial))).
Proof.
  assert (Hfresh : freshArrivals (take 11 Samples.review) initial).
  { vm_compute. repeat split. intros Hin. inversion Hin. }
  assert (Hpage : Forall asThePageProduces (take 11 Samples.review)).
  { repeat constructor; cbn; lia. }
  split; [exact Hfresh|]. split; [exact Hpage|].
  exact (dashboard_dates_every_interview (take 11 Samples.review)
           Hfresh Hpage).
Defined.

(** The score a Save writes is absent or the score of the modal. *)
Lemma savedScore_inRange (score : option Z) :
  inRange score -> inRange (CandidateModal.savedScore score).
Proof.
  destruct score as [n|]; [|done]. cbn. intros Hn.
  by destruct (n =? 0)%Z.
Qed.

(** An action of the recruiter keeps the scores of the store in range,
    when the score of the modal is. *)
Lemma recruiter_move_scores s state' :
  RecruiterMove s state' ->
  inRange (CandidateModal.score (modal s)) ->
  Forall (fun c => inRange (Candidate.score c)) (candidates (store s)) ->
  Forall (fun c => inRange (Candidate.score c)) (candidates state').
Proof.
  intros Hmove Hmodal Hall.
  destruct Hmove as [ |c Hsel|c Hsel Hstage|c Hsel Hopen Hvalid|c Hsel Hopen];
    [done|..];
    rewrite updateCandidate_candidates; apply Forall_forall;
    intros c' Hc';
    apply list_elem_of_In, in_map_iff in Hc' as (r & <- & Hr);
    apply list_elem_of_In in Hr;
    pose proof (proj1 (Forall_forall _ _) Hall r Hr) as Hscore;
    (case_decide; [|done]); cbn; try done.
  by apply savedScore_inRange.
Qed.

(** One event keeps the scores of the store and the score of the modal
    in range. *)
Lemma step_scores e s :
  asThePageProduces e ->
  Forall (fun c => inRange (Candidate.score c)) (candidates (store s))
  /\ inRange (CandidateModal.score (modal s)) ->
  Forall (fun c => inRange (Candidate.score c))
    (candidates (store (step e s)))
  /\ inRange (CandidateModal.score (modal (step e s))).
Proof.
  intros He [Hall Hmodal]. split.
  - pose proof (step_recruiter e s) as Hmove.
    destruct e; try (by apply (recruiter_move_scores s)).
    rewrite Hmove. cbn. apply Forall_cons. split; [|done].
    destruct He as [_ ->]. done.
  - destruct s as [st sel m sch off]. cbn in Hall, Hmodal.
    destruct e; cbn [step selectedCandidate store modal scheduler offer];
      try done; destruct sel as [c0|]; try done.
    + destruct (candidates st !! i) as [c|] eqn:Hi; [|done].
      cbn. apply (proj1 (Forall_forall _ _) Hall c).
      by apply (list_elem_of_lookup_2 _ i).
    + by case_match.
    + by destruct (Candidate.stage c0).
    + by destruct (Candidate.stage c0).
    + unfold InterviewScheduler.handleScheduleInterview.
      repeat case_match; done.
    + by destruct (Candidate.stage c0).
    + by repeat case_match.
Qed.

(** Starting from the empty dashboard, with records that arrive unscored
    and scores set by the five buttons, every score in the store is
    absent or one of 1 to 5. *)
Theorem dashboard_scores_stay_in_range (events : list Event) :
  Forall asThePageProduces events ->
  Forall (fun c => inRange (Candidate.score c))
    (candidates (store (run events initial))).
Proof.
  assert (Hgen : forall s,
    Forall asThePageProduces events ->
    Forall (fun c => inRange (Candidate.score c)) (candidates (store s))
    /\ inRange (CandidateModal.score (modal s)) ->
    Forall (fun c => inRange (Candidate.score c))
      (candidates (store (run events s)))
    /\ inRange (CandidateModal.score (modal (run events s)))).
  { induction events as [|e events IH]; intros s Hpage Hinv; [done|].
    apply Forall_cons in Hpage as [He Hpage].
    rewrite run_cons. apply IH; [done|]. by apply step_scores. }
  intros Hpage. apply Hgen; [done|]. split; [apply Forall_nil_2|exact I].
Qed.

Lemma dashboard_scores_stay_in_range_witness :
  Forall asThePageProduces (take 11 Samples.review)
  /\ Forall (fun c => inRange (Candidate.score c))
       (candidates (store (run (take 11 Samples.review) initial))).
Proof.
  assert (Hpage : Forall asThePageProduces (take 11 Samples.review)).
  { repeat constructor; cbn; lia. }
  split; [exact Hpage|].
  exact (dashboard_scores_stay_in_range (take 11 Samples.review) Hpage).
Defined.

End RecruiterDesk.

(** ** Application ids, submissions, years of experience, merged updates *)
Section Identifiers.

(** Two identifiers made from the same random number are equal only when
    the clock readings are: the time segment tells the readings apart. *)
Theorem generateApplicationId_separates_readings (now now' : N)
    (rendering : jsstring) :
  generateApplicationId now rendering = generateApplicationId now' rendering
  <-> now = now'.
Proof.
  split; [|by intros ->].
  unfold generateApplicationId. intros Heq.
  do 3 apply app_inv_head in Heq.
  pose proof (toString36_reads_back now) as Hnow.
  rewrite Heq, toString36_reads_back in Hnow. congruence.
Qed.

End Identifiers.

Section Submitting.

Import Wizard.

(** A submission has two outcomes.  Refused, when the resume does not
    pass or the selected job is not among the postings: the store is
    left as it is, no page is asked for and a message is shown.
    Accepted: one record built from the draft is put in front of the
    candidates and the page asked for is the thank-you page of that
    record's application id. *)
Theorem handleSubmit_outcomes (a : ResumeStep.Ambient)
    (l : ResumeStep.Local) (state : HireLinkStore) :
  let result := ResumeStep.handleSubmit a l state in
  (result.1.2 = state /\ result.2 = None
   /\ ResumeStep.error result.1.1 <> ""%string
   /\ (valid
         (validateResume (ApplicationForm.resumeFile (applicationForm state)))
       = false
       \/ ResumeStep.findSelectedJob state = None))
  \/ (exists job,
        valid
          (validateResume
             (ApplicationForm.resumeFile (applicationForm state))) = true
        /\ ResumeStep.findSelectedJob state = Some job
        /\ result.1.2
           = addCandidate (ResumeStep.newCandidate a job state) state
        /\ result.2
           = Some (js "/thank-you/"
                   ++ Candidate.applicationId
                        (ResumeStep.newCandidate a job state))).
Proof.
  cbv zeta. unfold ResumeStep.handleSubmit.
  destruct (valid (validateResume _)) eqn:Hvalid; cbn [negb].
  - destruct (ResumeStep.findSelectedJob state) as [job|] eqn:Hjob.
    + right. exists job. by repeat split.
    + left. repeat split; [done|by right].
  - left. repeat split; [|by left].
    cbn. unfold validateResume in *.
    repeat case_match; cbn in *; done.
Qed.

End Submitting.

Section Years.

Lemma isDigit_not_point c : isDigit c = true -> c <> 46.
Proof.
  unfold isDigit, between. intros [Hlo Hhi]%andb_true_iff.
  apply N.leb_le in Hlo, Hhi. lia.
Qed.

(** The years pattern accepts the decimal numerals. *)
Lemma years_pattern_lang (s : jsstring) :
  test yearsOfExperience_pattern s = true <-> decimalNumeral s.
Proof.
  rewrite test_lang. unfold yearsOfExperience_pattern, Opt, Chr, decimalNumeral.
  split.
  - intros (whole & frac & -> & [Hne Hall]%lang_plus_cls & Hfrac)%lang_Cat.
    exists whole, frac. repeat split; try done.
    apply lang_Alt in Hfrac as [->%lang_Eps|Hfrac]; [by left|right].
    apply lang_Cat in Hfrac
      as (? & ds & -> & (c & -> & Hc)%lang_Cls & [Hne' Hall']%lang_plus_cls).
    apply N.eqb_eq in Hc as <-. by exists ds.
  - intros (whole & frac & -> & Hne & Hall & Hfrac).
    apply lang_cat; [by apply lang_plus_cls|].
    destruct Hfrac as [->|(ds & -> & Hne' & Hall')].
    + apply lang_alt_l. constructor.
    + apply lang_alt_r. apply (lang_cat _ _ [46] ds).
      * apply lang_cls. apply N.eqb_refl.
      * by apply lang_plus_cls.
Qed.

Lemma decimalNumeral_not_blank (s : jsstring) :
  decimalNumeral s -> truthy (trim s) = true.
Proof.
  intros (whole & frac & -> & Hne & Hall & _).
  destruct whole as [|c whole]; [done|].
  apply Forall_cons in Hall as [Hc _].
  apply truthy_true. intros Hblank.
  assert (Hin : c ∈ trim ((c :: whole) ++ frac)).
  { apply trim_keeps; [by left|by apply digit_not_white]. }
  rewrite Hblank in Hin. by apply elem_of_nil in Hin.
Qed.

(** The years check, test by test. *)
Lemma years_verdict (years : jsstring) :
  valid (validateYearsOfExperience years) = true
  <-> test yearsOfExperience_pattern years = true
      /\ Qle_bool (decimalValue years) (80 + (1 # Pos.pow 2 47)) = true.
Proof.
  unfold validateYearsOfExperience, outOfRange.
  destruct (test yearsOfExperience_pattern years) eqn:Htest.
  - rewrite (decimalNumeral_not_blank years)
      by (by apply years_pattern_lang).
    cbn [negb]. destruct (Qle_bool _ _); cbn; split; (done || by intros []).
  - destruct (truthy (trim years)); cbn; split; (done || by intros []).
Qed.

(** The years check: the text is a decimal numeral, and its exact value
    is not above the largest value that [parseFloat] still reads as 80.
    A sign, an exponent or a blank never passes. *)
Theorem validateYearsOfExperience_valid_iff (years : jsstring) :
  valid (validateYearsOfExperience years) = true
  <-> decimalNumeral years
      /\ (decimalValue years <= 80 + (1 # Pos.pow 2 47))%Q.
Proof. by rewrite years_verdict, years_pattern_lang, Qle_bool_iff. Qed.

Lemma splitAtPoint_digits (s : jsstring) :
  (46 ∉ s) -> splitAtPoint s = (s, None).
Proof.
  induction s as [|c s IH]; [done|]. intros Hnot.
  apply not_elem_of_cons in Hnot as [Hc Hs]. cbn [splitAtPoint].
  rewrite (proj2 (N.eqb_neq c 46)) by done. by rewrite IH.
Qed.

(** Whole numbers of years: a text without a point passes exactly when it
    is a non-empty run of digits whose value is 80 at most. *)
Theorem validateYearsOfExperience_whole (years : jsstring) :
  valid (validateYearsOfExperience years) = true /\ (46 ∉ years)
  <-> years <> [] /\ Forall (fun c => isDigit c = true) years
      /\ digitsValue years <= 80.
Proof.
  rewrite years_verdict, years_pattern_lang, Qle_bool_iff.
  assert (Hvalue : (46 ∉ years) ->
            (decimalValue years <= 80 + (1 # Pos.pow 2 47))%Q
            <-> digitsValue years <= 80).
  { intros Hnot. unfold decimalValue. rewrite splitAtPoint_digits by done.
    unfold Qle. cbn. lia. }
  split.
  - intros [[(whole & frac & -> & Hne & Hall & Hfrac) Hle] Hnot].
    destruct Hfrac as [->|(ds & -> & _)].
    + rewrite app_nil_r in *. repeat split; [done..|]. by apply Hvalue.
    + exfalso. apply Hnot. apply elem_of_app. right. by left.
  - intros (Hne & Hall & Hle).
    assert (Hnot : 46 ∉ years).
    { intros Hin. apply (proj1 (Forall_forall _ _) Hall) in Hin.
      by apply isDigit_not_point in Hin. }
    split; [|done]. split; [|by apply Hvalue].
    exists years, []. rewrite app_nil_r. repeat split; try done. by left.
Qed.

End Years.

Section MergedUpdates.

Lemma default_later {A : Type} (old : A) (second first : option A) :
  default (default old first) second = default old (later second first).
Proof. by destruct second. Qed.

Lemma spread_override (c : Candidate.t) (first second : Candidate.partial) :
  Candidate.spread (Candidate.spread c first) second
  = Candidate.spread c (override first second).
Proof.
  unfold Candidate.spread, override. cbn. f_equal; apply default_later.
Qed.

(** Two updates of one id, the first of which does not rename the record,
    are one update with the two merged, the keys of the second winning. *)
Theorem updateCandidate_merges_updates (id : jsstring)
    (first second : Candidate.partial) (state : HireLinkStore) :
  Candidate.p_id first = None ->
  updateCandidate id second (updateCandidate id first state)
  = updateCandidate id (override first second) state.
Proof.
  intros Hnoid. unfold updateCandidate. cbn [candidates withCandidates].
  unfold withCandidates at 1 3. cbn. f_equal.
  rewrite List.map_map. apply List.map_ext. intros c.
  destruct (eqb (Candidate.id c) id) eqn:Hc; [|by rewrite Hc].
  cbn [Candidate.spread Candidate.id]. rewrite Hnoid. cbn [default].
  rewrite Hc. apply spread_override.
Qed.

Lemma updateCandidate_merges_updates_witness :
  Candidate.p_id
    (Recruiter.CandidateModal.saveUpdates
       (Recruiter.CandidateModal.mount Samples.ada)) = None
  /\ updateCandidate (Candidate.id Samples.ada)
       (Recruiter.CandidateModal.stageOnly Reviewed)
       (updateCandidate (Candidate.id Samples.ada)
          (Recruiter.CandidateModal.saveUpdates
             (Recruiter.CandidateModal.mount Samples.ada))
          (Samples.storeWith Samples.ada))
     = updateCandidate (Candidate.id Samples.ada)
         (override
            (Recruiter.CandidateModal.saveUpdates
               (Recruiter.CandidateModal.mount Samples.ada))
            (Recruiter.CandidateModal.stageOnly Reviewed))
         (Samples.storeWith Samples.ada).
Proof.
  split; [reflexivity|].
  exact (updateCandidate_merges_updates (Candidate.id Samples.ada)
           (Recruiter.CandidateModal.saveUpdates
              (Recruiter.CandidateModal.mount Samples.ada))
           (Recruiter.CandidateModal.stageOnly Reviewed)
           (Samples.storeWith Samples.ada) eq_refl).
Defined.

End MergedUpdates.

(** ** What a session of the wizard writes, whatever it starts from *)
Section WizardSessions.

Import Wizard WizardMachine.

Implicit Types (state : HireLinkStore) (w : WizardMachine.State)
  (e : WizardMachine.Event).

(** A move leaves the resume of the draft and its name as they were, or
    leaves a checked resume. *)
Lemma move_resume state state' :
  WizardMove state state' ->
  (ApplicationForm.resumeFile (applicationForm state')
   = ApplicationForm.resumeFile (applicationForm state)
   /\ ApplicationForm.resumeFileName (applicationForm state')
      = ApplicationForm.resumeFileName (applicationForm state))
  \/ checkedResume (applicationForm state').
Proof.
  intros Hmove.
  destruct Hmove as
    [state|jobId state|info state Hstep|x state Hstep|f state Hstep Hvalid
    |state Hstep|state Hlt Hp He|state Hpos|a job state Hstep Hvalid Hjob];
    try (by left).
  - right. by split.
  - by right.
Qed.

(** Whatever the draft holds when a session starts, after any events of
    the wizard the resume of the draft and its recorded name are either
    the ones the session started with, or a file that passes the resume
    check recorded under its own name, or no file and an empty name: the
    wizard writes no unchecked file into the draft. *)
Theorem wizard_writes_only_checked_resumes (events : list Event) w :
  let before := applicationForm (store w) in
  let form := applicationForm (store (run events w)) in
  (ApplicationForm.resumeFile form = ApplicationForm.resumeFile before
   /\ ApplicationForm.resumeFileName form
      = ApplicationForm.resumeFileName before)
  \/ checkedResume form.
Proof.
  cbv zeta. induction events as [|e events IH] using rev_ind; [by left|].
  unfold run in *. rewrite foldl_app. cbn [foldl].
  set (w' := foldl (fun w e => step e w) w events) in *.
  destruct (move_resume _ _ (step_move e w')) as [[Hfile Hname]|Hchecked];
    [|by right].
  destruct IH as [[Hfile' Hname']|Hchecked].
  - left. split; congruence.
  - right. unfold checkedResume in *. by rewrite Hfile, Hname.
Qed.

(** A move from a gated store leaves a gated store with the same
    postings, and either the same records or one more in front, which is
    as a submission leaves it. *)
Lemma move_gated state state' :
  WizardMove state state' -> gated state ->
  gated state'
  /\ jobPostings state' = jobPostings state
  /\ (candidates state' = candidates state
      \/ exists c,
           candidates state' = c :: candidates state
           /\ submitted (jobPostings state) c).
Proof.
  intros Hmove (Hrange & Hpersonal & Hexperience).
  destruct Hmove as
    [state|jobId state|info state Hstep|x state Hstep|f state Hstep Hvalid
    |state Hstep|state Hlt Hp He|state Hpos|a job state Hstep Hvalid Hjob];
    unfold gated;
    cbn [currentStep applicationForm candidates jobPostings setSelectedJobId
           setApplicationForm setCurrentStep addCandidate withCandidates
           ExperienceStep.setExperience ResumeStep.setResume
           ApplicationForm.spread ApplicationForm.resumeFile
           ApplicationForm.resumeFileName ApplicationForm.p_resumeFile
           ApplicationForm.p_resumeFileName ApplicationForm.p_personalInfo
           ApplicationForm.p_experience default from_option id].
  - repeat split; try done. by left.
  - repeat split; try done. by left.
  - repeat split; try done; try lia. by left.
  - repeat split; try done; try lia. by left.
  - repeat split; try done. by left.
  - repeat split; try done. by left.
  - split; [|split; [done|by left]].
    split; [lia|]. split.
    + intros _. destruct (currentStep state) as [|[|n]]; [by apply Hp|..].
      * apply Hpersonal. lia.
      * lia.
    + intros Htwo. apply He. lia.
  - split; [|split; [done|by left]].
    split; [lia|]. split.
    + intros Hone. apply Hpersonal. lia.
    + intros Htwo. lia.
  - split; [by repeat split|]. split; [done|]. right.
    eexists. split; [reflexivity|].
    unfold submitted. cbn [ResumeStep.newCandidate Candidate.stage
      Candidate.score Candidate.jobId Candidate.jobTitle
      Candidate.applicationData].
    repeat split.
    + unfold ResumeStep.findSelectedJob in Hjob.
      apply find_some in Hjob as [Hin Hid].
      apply bool_decide_eq_true in Hid.
      exists job. split; [by apply list_elem_of_In|].
      rewrite <- Hid. done.
    + apply Hpersonal. lia.
    + by apply Hexperience.
    + unfold resumeValid. by rewrite validateResumeStep_valid.
Qed.

(** Whatever records the store holds and whatever resume the draft holds
    when a session starts on a step whose earlier steps are valid, the
    records the wizard adds in the session come in front of the records
    that were there, which stay as they were, and every added record is,
    as it is added, at Applied, not scored, for one of the job postings
    under its title, with a draft that passes the three step validators;
    in particular its resume passed the resume check. *)
Theorem wizard_adds_only_valid_drafts (events : list Event) w :
  gated (store w) ->
  exists added,
    candidates (store (run events w)) = added ++ candidates (store w)
    /\ Forall (submitted (jobPostings (store w))) added.
Proof.
  revert w. induction events as [|e events IH]; intros w Hgated.
  - exists []. by split.
  - destruct (move_gated _ _ (step_move e w) Hgated)
      as (Hgated' & Hjobs & Hrecords).
    destruct (IH (step e w) Hgated') as (added & Hrun & Hall).
    rewrite Hjobs in Hall. change (run (e :: events) w)
      with (run events (step e w)).
    destruct Hrecords as [Hsame|(c & Hcons & Hc)].
    + exists added. by rewrite Hrun, Hsame.
    + exists (added ++ [c]). split.
      * by rewrite Hrun, Hcons, <- app_assoc.
      * apply Forall_app. split; [done|by apply Forall_singleton].
Qed.

Lemma wizard_adds_only_valid_drafts_witness :
  gated (store Samples.returning)
  /\ exists added,
       candidates
         (store
            (run [FileSelect (Some Samples.pdf); Submit Samples.ambientHalf]
               Samples.returning))
       = added ++ candidates (store Samples.returning)
       /\ Forall (submitted (jobPostings (store Samples.returning))) added.
Proof.
  assert (Hgated : gated (store Samples.returning)).
  { split; [vm_compute; lia|]. split; intros _; vm_compute; reflexivity. }
  split; [exact Hgated|].
  exact (wizard_adds_only_valid_drafts
           [FileSelect (Some Samples.pdf); Submit Samples.ambientHalf]
           Samples.returning Hgated).
Defined.

(** The visit the lemma above is evaluated on: the draft holds a file
    that does not pass the check, so a submission is refused; after a
    file that passes is chosen the submission adds one record in front of
    the one that was there. *)
Example returning_visit :
  valid
    (validateResume
       (ApplicationForm.resumeFile
          (applicationForm (store Samples.returning)))) = false
  /\ length
       (candidates
          (store (run [Submit Samples.ambientHalf] Samples.returning)))
     = 1%nat
  /\ length
       (candidates
          (store
             (run [FileSelect (Some Samples.pdf); Submit Samples.ambientHalf]
                Samples.returning)))
     = 2%nat.
Proof. repeat split; vm_compute; reflexivity. Qed.

End WizardSessions.
